(** * pkg/database: the embedded relational store adapter

    A shallow embedding of [pkg/database/database.go] and
    [pkg/database/seed.go] (schema bootstrap, seed loader, query executor,
    convenience accessors, password hashing), with the properties the
    specification states about them; and of the callers of the adapter,
    [pkg/config], [pkg/logging] and the handlers of the services that go
    through it, with properties read off their code.

    Go strings are byte sequences; they are modelled by [string], whose
    characters are the 8-bit bytes.  The operating system (environment,
    files, standard output) and the SQL engine behind [database/sql] are an
    explicit world threaded through every operation; the engine itself is a
    parameter of the development. *)

From Stdlib Require Import ZArith Zbitwise Ascii String List Lia Bool.
From stdpp Require Import base option gmap strings pretty.

Local Open Scope string_scope.
Local Open Scope list_scope.
Local Open Scope Z_scope.

(** ** Bytes and byte strings *)

Module GoString.

(** [s[i]] as a number. *)
Definition byte (c : ascii) : Z := Z.of_N (N_of_ascii c).

(** The conversion [byte(x)], which keeps the low eight bits. *)
Definition chr (z : Z) : ascii := ascii_of_N (Z.to_N (z mod 256)).

Definition len (s : string) : nat := String.length s.

(** [s[:n]] and [s[n:]], clipped to the length of [s]. *)
Fixpoint take (n : nat) (s : string) : string :=
  match n, s with
  | S k, String c t => String c (take k t)
  | _, _ => EmptyString
  end.

Fixpoint drop (n : nat) (s : string) : string :=
  match n, s with
  | S k, String c t => drop k t
  | _, _ => s
  end.

(** [s[i]], with 0 past the end (callers check the length first). *)
Definition at_ (i : nat) (s : string) : Z :=
  match drop i s with
  | String c _ => byte c
  | EmptyString => 0
  end.

(** [strings.HasPrefix]. *)
Fixpoint HasPrefix (s prefix : string) {struct prefix} : bool :=
  match prefix, s with
  | EmptyString, _ => true
  | String p ps, String c cs => if Ascii.eqb c p then HasPrefix cs ps else false
  | String _ _, EmptyString => false
  end.

(** Concatenation of the pieces of a list. *)
Definition concat (l : list string) : string :=
  fold_right String.append EmptyString l.

(** Is the byte [c] one of the bytes of [p]? *)
Fixpoint occurs (c : ascii) (p : string) : bool :=
  match p with
  | EmptyString => false
  | String a p' => Ascii.eqb c a || occurs c p'
  end.

End GoString.

Import GoString.

(** ** unicode/utf8 *)

Module utf8.

Definition RuneError : Z := 0xFFFD.
Definition RuneSelf : Z := 0x80.
Definition MaxRune : Z := 0x10FFFF.

Definition locb : Z := 0x80.
Definition hicb : Z := 0xBF.
Definition xx : Z := 0xF1.
Definition as_ : Z := 0xF0.
Definition s1 : Z := 0x02.
Definition s2 : Z := 0x13.
Definition s3 : Z := 0x03.
Definition s4 : Z := 0x23.
Definition s5 : Z := 0x34.
Definition s6 : Z := 0x04.
Definition s7 : Z := 0x44.

(** The table [first]: information about the first byte of an encoding. *)
Definition first (b : Z) : Z :=
  if b <? 0x80 then as_
  else if b <? 0xC2 then xx
  else if b <? 0xE0 then s1
  else if b =? 0xE0 then s2
  else if b <? 0xED then s3
  else if b =? 0xED then s4
  else if b <? 0xF0 then s3
  else if b =? 0xF0 then s5
  else if b <? 0xF4 then s6
  else if b =? 0xF4 then s7
  else xx.

(** The table [acceptRanges]: bounds of the second byte. *)
Definition acceptRanges (i : Z) : Z * Z :=
  if i =? 0 then (locb, hicb)
  else if i =? 1 then (0xA0, hicb)
  else if i =? 2 then (locb, 0x9F)
  else if i =? 3 then (0x90, hicb)
  else if i =? 4 then (locb, 0x8F)
  else (0, 0).

(** [utf8.DecodeRuneInString]: the first rune of [s] and its width in bytes;
    [(RuneError, 1)] for a byte that starts no valid encoding. *)
Definition DecodeRuneInString (s : string) : Z * nat :=
  match s with
  | EmptyString => (RuneError, 0%nat)
  | String c0 _ =>
    let b0 := byte c0 in
    let x := first b0 in
    if as_ <=? x then ((if x =? xx then RuneError else b0), 1%nat)
    else
      let sz := Z.land x 7 in
      let '(lo, hi) := acceptRanges (Z.shiftr x 4) in
      if Z.of_nat (len s) <? sz then (RuneError, 1%nat)
      else
        let b1 := at_ 1 s in
        if (b1 <? lo) || (hi <? b1) then (RuneError, 1%nat)
        else if sz <=? 2 then
          (Z.lor (Z.shiftl (Z.land b0 0x1F) 6) (Z.land b1 0x3F), 2%nat)
        else
          let b2 := at_ 2 s in
          if (b2 <? locb) || (hicb <? b2) then (RuneError, 1%nat)
          else if sz <=? 3 then
            (Z.lor (Z.lor (Z.shiftl (Z.land b0 0x0F) 12)
                          (Z.shiftl (Z.land b1 0x3F) 6))
                   (Z.land b2 0x3F), 3%nat)
          else
            let b3 := at_ 3 s in
            if (b3 <? locb) || (hicb <? b3) then (RuneError, 1%nat)
            else
              (Z.lor (Z.lor (Z.lor (Z.shiftl (Z.land b0 0x07) 18)
                                   (Z.shiftl (Z.land b1 0x3F) 12))
                            (Z.shiftl (Z.land b2 0x3F) 6))
                     (Z.land b3 0x3F), 4%nat)
  end.

(** [utf8.AppendRune] on an empty buffer, for a rune that is not negative:
    the UTF-8 encoding of [r], that of [RuneError] when [r] is out of range
    or a surrogate half. *)
Definition EncodeRune (r : Z) : string :=
  let enc3 (r : Z) :=
    String (chr (Z.lor 0xE0 (Z.shiftr r 12)))
      (String (chr (Z.lor 0x80 (Z.land (Z.shiftr r 6) 0x3F)))
        (String (chr (Z.lor 0x80 (Z.land r 0x3F))) EmptyString)) in
  if r <=? 0x7F then String (chr r) EmptyString
  else if r <=? 0x7FF then
    String (chr (Z.lor 0xC0 (Z.shiftr r 6)))
      (String (chr (Z.lor 0x80 (Z.land r 0x3F))) EmptyString)
  else if (MaxRune <? r) || ((0xD800 <=? r) && (r <=? 0xDFFF)) then enc3 RuneError
  else if r <=? 0xFFFF then enc3 r
  else
    String (chr (Z.lor 0xF0 (Z.shiftr r 18)))
      (String (chr (Z.lor 0x80 (Z.land (Z.shiftr r 12) 0x3F)))
        (String (chr (Z.lor 0x80 (Z.land (Z.shiftr r 6) 0x3F)))
          (String (chr (Z.lor 0x80 (Z.land r 0x3F))) EmptyString))).

(** The runes of [s] in order, each with the bytes it was decoded from: what
    [for i, r := range s] enumerates.  An empty string has none; every step
    consumes at least one byte, so [len s] steps are enough. *)
Fixpoint runes_fuel (fuel : nat) (s : string) : list (Z * string) :=
  match fuel with
  | O => []
  | S k =>
    match s with
    | EmptyString => []
    | String _ _ =>
      let '(r, w) := DecodeRuneInString s in
      (r, take w s) :: runes_fuel k (drop w s)
    end
  end.

Definition runes (s : string) : list (Z * string) := runes_fuel (len s) s.

(** The bytes a list of decoded runes came from. *)
Definition bytes_of (rs : list (Z * string)) : string :=
  concat (map snd rs).

End utf8.

(** ** unicode *)

Module unicode.

Definition MaxASCII : Z := 0x7F.
Definition MaxLatin1 : Z := 0xFF.

(** [unicode.IsSpace]: the Latin-1 cases, then the [White_Space] table. *)
Definition IsSpace (r : Z) : bool :=
  if (0 <=? r) && (r <=? MaxLatin1) then
    (r =? 0x09) || (r =? 0x0A) || (r =? 0x0B) || (r =? 0x0C) || (r =? 0x0D)
    || (r =? 0x20) || (r =? 0x85) || (r =? 0xA0)
  else
    (r =? 0x1680) || ((0x2000 <=? r) && (r <=? 0x200A))
    || (r =? 0x2028) || (r =? 0x2029) || (r =? 0x202F) || (r =? 0x205F)
    || (r =? 0x3000).

Definition UpperCase : Z := 0.
Definition LowerCase : Z := 1.

(** [unicode.ToUpper] and [unicode.ToLower]: ASCII is handled in place, every
    other rune goes through the case tables, [unicode.To(_case, r)], here
    the parameter [To]. *)
Definition ToUpper (To : Z -> Z -> Z) (r : Z) : Z :=
  if r <=? MaxASCII then
    if (0x61 <=? r) && (r <=? 0x7A) then r - (0x61 - 0x41) else r
  else To UpperCase r.

Definition ToLower (To : Z -> Z -> Z) (r : Z) : Z :=
  if r <=? MaxASCII then
    if (0x41 <=? r) && (r <=? 0x5A) then r + (0x61 - 0x41) else r
  else To LowerCase r.

End unicode.

(** ** strings *)

Module strings.

Fixpoint drop_while {A} (f : A -> bool) (l : list A) : list A :=
  match l with
  | [] => []
  | x :: t => if f x then drop_while f t else l
  end.

Definition space_rune (p : Z * string) : bool := unicode.IsSpace (fst p).

(** [strings.TrimLeftFunc(s, unicode.IsSpace)]: [s] without its leading
    white space runes. *)
Definition TrimLeftSpace (s : string) : string :=
  utf8.bytes_of (drop_while space_rune (utf8.runes s)).

(** [strings.TrimRightFunc(s, unicode.IsSpace)]: [s] without its trailing
    white space runes. *)
Definition TrimRightSpace (s : string) : string :=
  utf8.bytes_of (rev (drop_while space_rune (rev (utf8.runes s)))).

(** [strings.TrimSpace]: leading and trailing white space removed, as
    defined by Unicode. *)
Definition TrimSpace (s : string) : string :=
  TrimRightSpace (TrimLeftSpace s).

(** What [strings.Map] writes for one rune: the encoding of its image, and
    nothing when the image is negative. *)
Definition map_rune (mapping : Z -> Z) (p : Z * string) : string :=
  let r := mapping (fst p) in
  if 0 <=? r then utf8.EncodeRune r else EmptyString.

(** [strings.Map(mapping, s)]: every rune replaced by its image, an invalid
    byte counting as [RuneError].  For a rune that is its own image the
    encoding written is the bytes it was read from. *)
Definition Map (mapping : Z -> Z) (s : string) : string :=
  concat (map (map_rune mapping) (utf8.runes s)).

(** [strings.ToUpper] and [strings.ToLower]. *)
Definition ToUpper (To : Z -> Z -> Z) (s : string) : string :=
  Map (unicode.ToUpper To) s.

Definition ToLower (To : Z -> Z -> Z) (s : string) : string :=
  Map (unicode.ToLower To) s.

End strings.


(** ** Plain ASCII text

    The comparisons of the specification, on bytes: white space is the six
    ASCII blanks and a letter is compared without its case.  These follow
    the specification and are what the calls of package [strings] are
    compared with on ASCII text. *)

Module Plain.

Fixpoint all_ascii (s : string) : bool :=
  match s with
  | EmptyString => true
  | String c t => (byte c <? 0x80) && all_ascii t
  end.

Definition is_space (c : ascii) : bool :=
  let b := byte c in
  (b =? 0x09) || (b =? 0x0A) || (b =? 0x0B) || (b =? 0x0C) || (b =? 0x0D)
  || (b =? 0x20).

Definition upper (c : ascii) : ascii :=
  if (0x61 <=? byte c) && (byte c <=? 0x7A) then chr (byte c - 0x20) else c.

Definition lower (c : ascii) : ascii :=
  if (0x41 <=? byte c) && (byte c <=? 0x5A) then chr (byte c + 0x20) else c.

Fixpoint map_bytes (f : ascii -> ascii) (s : string) : string :=
  match s with
  | EmptyString => EmptyString
  | String c t => String (f c) (map_bytes f t)
  end.

(** The text after its leading white space. *)
Fixpoint skip_spaces (s : string) : string :=
  match s with
  | EmptyString => EmptyString
  | String c t => if is_space c then skip_spaces t else s
  end.

(** The text, after its leading white space and without regard to case,
    begins with the keyword. *)
Definition begins_with (keyword s : string) : bool :=
  HasPrefix (map_bytes upper (skip_spaces s)) keyword.

(** The text is the word, without regard to case. *)
Definition is_word (word s : string) : bool :=
  String.eqb (map_bytes lower s) word.

End Plain.

(** ** crypto/md5 (RFC 1321) *)

Module md5.

Definition w32 (x : Z) : Z := x mod 2 ^ 32.

Definition rotl (x c : Z) : Z :=
  Z.lor (w32 (Z.shiftl x c)) (Z.shiftr x (32 - c)).

Definition not32 (x : Z) : Z := Z.lxor x 0xFFFFFFFF.

(** The sine table. *)
Definition K : list Z :=
  [0xd76aa478; 0xe8c7b756; 0x242070db; 0xc1bdceee; 0xf57c0faf; 0x4787c62a;
   0xa8304613; 0xfd469501; 0x698098d8; 0x8b44f7af; 0xffff5bb1; 0x895cd7be;
   0x6b901122; 0xfd987193; 0xa679438e; 0x49b40821; 0xf61e2562; 0xc040b340;
   0x265e5a51; 0xe9b6c7aa; 0xd62f105d; 0x02441453; 0xd8a1e681; 0xe7d3fbc8;
   0x21e1cde6; 0xc33707d6; 0xf4d50d87; 0x455a14ed; 0xa9e3e905; 0xfcefa3f8;
   0x676f02d9; 0x8d2a4c8a; 0xfffa3942; 0x8771f681; 0x6d9d6122; 0xfde5380c;
   0xa4beea44; 0x4bdecfa9; 0xf6bb4b60; 0xbebfbc70; 0x289b7ec6; 0xeaa127fa;
   0xd4ef3085; 0x04881d05; 0xd9d4d039; 0xe6db99e5; 0x1fa27cf8; 0xc4ac5665;
   0xf4292244; 0x432aff97; 0xab9423a7; 0xfc93a039; 0x655b59c3; 0x8f0ccc92;
   0xffeff47d; 0x85845dd1; 0x6fa87e4f; 0xfe2ce6e0; 0xa3014314; 0x4e0811a1;
   0xf7537e82; 0xbd3af235; 0x2ad7d2bb; 0xeb86d391].

(** The per-round shift amounts. *)
Definition shifts : list Z :=
  [7; 12; 17; 22; 7; 12; 17; 22; 7; 12; 17; 22; 7; 12; 17; 22;
   5; 9; 14; 20; 5; 9; 14; 20; 5; 9; 14; 20; 5; 9; 14; 20;
   4; 11; 16; 23; 4; 11; 16; 23; 4; 11; 16; 23; 4; 11; 16; 23;
   6; 10; 15; 21; 6; 10; 15; 21; 6; 10; 15; 21; 6; 10; 15; 21].

Definition Digest : Type := (Z * Z * Z * Z)%type.

Definition init : Digest := (0x67452301, 0xefcdab89, 0x98badcfe, 0x10325476).

(** One of the 64 operations on the words [M] of a block. *)
Definition round (M : list Z) (d : Digest) (i : nat) : Digest :=
  let '(a, b, c, dd) := d in
  let iz := Z.of_nat i in
  let '(f, g) :=
    if iz <? 16 then (Z.lor (Z.land b c) (Z.land (not32 b) dd), iz)
    else if iz <? 32 then
      (Z.lor (Z.land dd b) (Z.land (not32 dd) c), (5 * iz + 1) mod 16)
    else if iz <? 48 then (Z.lxor (Z.lxor b c) dd, (3 * iz + 5) mod 16)
    else (Z.lxor c (Z.lor b (not32 dd)), (7 * iz) mod 16) in
  let f' := w32 (f + a + nth i K 0 + nth (Z.to_nat g) M 0) in
  (dd, w32 (b + rotl f' (nth i shifts 0)), b, c).

(** Little-endian words of a list of bytes. *)
Fixpoint words (bs : list Z) : list Z :=
  match bs with
  | b0 :: b1 :: b2 :: b3 :: t =>
    (b0 + Z.shiftl b1 8 + Z.shiftl b2 16 + Z.shiftl b3 24) :: words t
  | _ => []
  end.

Definition block (d : Digest) (bs : list Z) : Digest :=
  let '(a0, b0, c0, d0) := d in
  let '(a, b, c, dd) := fold_left (round (words bs)) (seq 0 64) d in
  (w32 (a0 + a), w32 (b0 + b), w32 (c0 + c), w32 (d0 + dd)).

(** The blocks of 64 bytes of a padded message. *)
Fixpoint blocks (n : nat) (bs : list Z) : list (list Z) :=
  match n with
  | O => []
  | S k => firstn 64 bs :: blocks k (skipn 64 bs)
  end.

Definition le_bytes (n : nat) (x : Z) : list Z :=
  map (fun i => Z.land (Z.shiftr x (8 * Z.of_nat i)) 0xFF) (seq 0 n).

(** The message, a 1 bit, zeros up to 56 modulo 64, and the bit length. *)
Definition pad (msg : list Z) : list Z :=
  let n := Z.of_nat (length msg) in
  let zeros := Z.to_nat ((55 - n) mod 64) in
  msg ++ [0x80] ++ repeat 0 zeros ++ le_bytes 8 ((8 * n) mod 2 ^ 64).

(** [md5.Sum]: the 16 bytes of the digest. *)
Definition Sum (data : string) : list Z :=
  let bs := pad (map byte (list_ascii_of_string data)) in
  let '(a, b, c, d) :=
    fold_left block (blocks (length bs / 64) bs) init in
  le_bytes 4 a ++ le_bytes 4 b ++ le_bytes 4 c ++ le_bytes 4 d.

End md5.

(** ** encoding/hex *)

Module hex.

Definition hextable : string := "0123456789abcdef".

Definition digit (v : Z) : ascii :=
  match String.get (Z.to_nat v) hextable with
  | Some c => c
  | None => "0"%char
  end.

(** [hex.EncodeToString]: two lower-case digits per byte. *)
Fixpoint EncodeToString (src : list Z) : string :=
  match src with
  | [] => EmptyString
  | v :: t =>
    String (digit (Z.shiftr v 4)) (String (digit (Z.land v 0x0F)) (EncodeToString t))
  end.

End hex.

(** ** fmt *)

Module fmt.

(** [fmt.Sprintf] for the formats of this package: the verbs [%s] and [%v]
    print the next operand, given here by its text; a verb without operand
    prints [%!s(MISSING)] or [%!v(MISSING)]; every other byte is copied. *)
Fixpoint Sprintf (format : string) (a : list string) : string :=
  match format with
  | EmptyString => EmptyString
  | String c tl =>
    match tl with
    | String v rest =>
      if Ascii.eqb c "%" && (Ascii.eqb v "s" || Ascii.eqb v "v") then
        match a with
        | x :: a' => x +:+ Sprintf rest a'
        | [] => "%!" +:+ String v "(MISSING)" +:+ Sprintf rest []
        end
      else String c (Sprintf tl a)
    | EmptyString => String c (Sprintf tl a)
    end
  end.

End fmt.

(** ** database/sql, the operating system, and the world

    What the adapter sees of its surroundings.  Errors are the sentinel
    [sql.ErrNoRows] or any other error value, given by its text. *)

Inductive error : Type :=
| ErrNoRows
| Err (msg : string).

#[global] Instance error_eq_dec : EqDecision error.
Proof. solve_decision. Defined.

(** [err.Error()]. *)
Definition error_text (e : error) : string :=
  match e with
  | ErrNoRows => "sql: no rows in result set"
  | Err msg => msg
  end.

(** A value of type [interface{}] as it occurs here: what a driver delivers
    ([nil], [int64], [float64], [bool], [[]byte], [string], [time.Time]) and
    the [int] of the adapter's own literals.  A [float64] is carried by its
    IEEE 754 bits, a [time.Time] by its text; the adapter computes on
    neither. *)
Inductive Value : Type :=
| VNil
| VInt (n : Z)
| VInt64 (n : Z)
| VFloat64 (bits : Z)
| VBool (b : bool)
| VBytes (b : string)
| VString (s : string)
| VTime (t : string).

#[global] Instance Value_eq_dec : EqDecision Value.
Proof. solve_decision. Defined.

(** [*sql.Rows] as the adapter observes it: the answer of [Columns()], then
    one entry per call of [Next()] that returns true, holding the values
    [Scan] copies out or the error it returns, then the answer of [Err()]
    once [Next()] has returned false, and the answer of [Close()]. *)
Record Rows : Type := mkRows {
  rows_columns : error + list string;
  rows_data : list (error + list Value);
  rows_err : option error;
  rows_close : option error
}.

(** The engine behind [database/sql], over its own state [Store] and
    connection handles [Conn]; and the conversions [Scan] applies when the
    destination is a [*int] or a [*string]. *)
Record Engine (Store Conn : Type) : Type := mkEngine {
  sql_Open : string -> string -> Store -> Store * (error + Conn);
  db_Ping : Conn -> Store -> Store * option error;
  db_Close : Conn -> Store -> Store * option error;
  db_Exec : Conn -> string -> Store -> Store * option error;
  db_Query : Conn -> string -> Store -> Store * (error + Rows);
  convert_int : Value -> error + Z;
  convert_string : Value -> error + string
}.

Arguments sql_Open {Store Conn}.
Arguments db_Ping {Store Conn}.
Arguments db_Close {Store Conn}.
Arguments db_Exec {Store Conn}.
Arguments db_Query {Store Conn}.
Arguments convert_int {Store Conn}.
Arguments convert_string {Store Conn}.

(** What the adapter does to its surroundings, in order. *)
Inductive Event : Type :=
| Printed (text : string)
| Logged (text : string)
| FileRead (path : string)
| Opened (driver dsn : string)
| Pinged
| ConnClosed
| Executed (query : string)
| Queried (query : string).

#[global] Instance Event_eq_dec : EqDecision Event.
Proof. solve_decision. Defined.

(** The process environment (a variable is set or not), the files (a read
    gives the content or fails), the state of the engine, and the events so
    far, oldest first. *)
Record World (Store : Type) : Type := mkWorld {
  w_env : string -> option string;
  w_files : string -> error + string;
  w_store : Store;
  w_trace : list Event
}.

Arguments mkWorld {Store}.
Arguments w_env {Store}.
Arguments w_files {Store}.
Arguments w_store {Store}.
Arguments w_trace {Store}.

(** A call returns, or panics (a nil pointer is dereferenced). *)
Inductive Outcome (A : Type) : Type :=
| Ret (a : A)
| Panic.

Arguments Ret {A}.
Arguments Panic {A}.

(** [type Database struct { conn *sql.DB }]; a [*Database] is an
    [option Database], [nil] being [None]. *)
Record Database (Conn : Type) : Type := mkDatabase {
  conn : option Conn
}.

Arguments mkDatabase {Conn}.
Arguments conn {Conn}.

(** A row of a result: [map[string]interface{}]. *)
Abbreviation RowMap := (gmap string Value).

(** The world [w] once the events [evs] have happened and the store has
    become [st]. *)
Definition after {Store} (w : World Store) (evs : list Event) (st : Store)
  : World Store :=
  mkWorld (w_env w) (w_files w) st (w_trace w ++ evs).

(** ** The adapter: pkg/database *)

Section Adapter.

Context {Store Conn : Type}.
Variable E : Engine Store Conn.

(** The case tables of package [unicode]: [To _case r] is
    [unicode.To(_case, r)]. *)
Variable To : Z -> Z -> Z.

(** *** Calls and their effects *)

(** A call is run in a world and leaves one; it returns or panics. *)
Definition M (A : Type) : Type := World Store -> Outcome A * World Store.

Definition ret {A} (a : A) : M A := fun w => (Ret a, w).

Definition bind {A B} (m : M A) (k : A -> M B) : M B :=
  fun w =>
    match m w with
    | (Ret a, w') => k a w'
    | (Panic, w') => (Panic, w')
    end.

Definition panic {A} : M A := fun w => (Panic, w).

Notation "x <- m ;; k" := (bind m (fun x => k))
  (at level 100, m at next level, right associativity).
Notation "m ;;; k" := (bind m (fun _ => k))
  (at level 100, right associativity).

Definition emit (e : Event) : M unit :=
  fun w => (Ret tt, mkWorld (w_env w) (w_files w) (w_store w) (w_trace w ++ [e])).

(** An operation of the engine, run on the store. *)
Definition on_store {A} (f : Store -> Store * A) : M A :=
  fun w =>
    let '(st, a) := f (w_store w) in
    (Ret a, mkWorld (w_env w) (w_files w) st (w_trace w)).

(** [os.Getenv]: the value, empty when the variable is not set. *)
Definition Getenv (key : string) : M string :=
  fun w => (Ret (default "" (w_env w key)), w).

(** [os.ReadFile], [ioutil.ReadFile]. *)
Definition ReadFile (path : string) : M (error + string) :=
  emit (FileRead path) ;;; (fun w => (Ret (w_files w path), w)).

(** [fmt.Printf] to standard output and [log.Printf]. *)
Definition Printf (format : string) (a : list string) : M unit :=
  emit (Printed (fmt.Sprintf format a)).

Definition log_Printf (format : string) (a : list string) : M unit :=
  emit (Logged (fmt.Sprintf format a)).

Definition Open (driver dsn : string) : M (error + Conn) :=
  emit (Opened driver dsn) ;;; on_store (sql_Open E driver dsn).

Definition Ping (c : Conn) : M (option error) :=
  emit Pinged ;;; on_store (db_Ping E c).

Definition conn_Close (c : Conn) : M (option error) :=
  emit ConnClosed ;;; on_store (db_Close E c).

Definition Exec (c : Conn) (query : string) : M (option error) :=
  emit (Executed query) ;;; on_store (db_Exec E c query).

Definition Query (c : Conn) (query : string) : M (error + Rows) :=
  emit (Queried query) ;;; on_store (db_Query E c query).

(** [db.conn] used as the receiver of a method of [*sql.DB]: a nil [db] or
    a nil [db.conn] panics. *)
Definition the_conn (db : option (Database Conn)) : M Conn :=
  match db with
  | Some d =>
    match conn d with
    | Some c => ret c
    | None => panic
    end
  | None => panic
  end.

(** *** database.go *)

Definition schemaEmbedded : string := "
CREATE TABLE IF NOT EXISTS users (
	id INTEGER PRIMARY KEY AUTOINCREMENT,
	username TEXT NOT NULL UNIQUE,
	email TEXT,
	password TEXT
);

CREATE TABLE IF NOT EXISTS products (
	id INTEGER PRIMARY KEY AUTOINCREMENT,
	name TEXT,
	description TEXT,
	price REAL,
	category TEXT
);

CREATE TABLE IF NOT EXISTS orders (
	id INTEGER PRIMARY KEY AUTOINCREMENT,
	user_id INTEGER,
	product_id INTEGER,
	quantity INTEGER,
	total_price REAL,
	status TEXT,
	created_at TEXT,
	user_snapshot TEXT,
	product_snapshot TEXT
);
".

(** The literal [embedded] of [NewDatabase]. *)
Definition embedded : string := "
		CREATE TABLE IF NOT EXISTS users (
			id INTEGER PRIMARY KEY AUTOINCREMENT,
			username TEXT NOT NULL UNIQUE,
			email TEXT,
			password TEXT
		);

		CREATE TABLE IF NOT EXISTS products (
			id INTEGER PRIMARY KEY AUTOINCREMENT,
			name TEXT,
			description TEXT,
			price REAL,
			category TEXT
		);

		CREATE TABLE IF NOT EXISTS orders (
			id INTEGER PRIMARY KEY AUTOINCREMENT,
			user_id INTEGER,
			product_id INTEGER,
			quantity INTEGER,
			total_price REAL,
			status TEXT,
			created_at TEXT,
			user_snapshot TEXT,
			product_snapshot TEXT
		);
		".

(** [Close] closes the underlying DB connection. *)
Definition Close (db : option (Database Conn)) : M (option error) :=
  match db with
  | None => ret None
  | Some d =>
    match conn d with
    | None => ret None
    | Some c => conn_Close c
    end
  end.

(** *** seed.go *)

(** [SeedFromFile] reads SQL from a file and executes it against the
    database. *)
Definition SeedFromFile (db : option (Database Conn)) (path : string)
  : M (option error) :=
  match db with
  | None => ret None
  | Some d =>
    match conn d with
    | None => ret None
    | Some c =>
      r <- ReadFile path ;;
      match r with
      | inl err => ret (Some err)
      | inr b => Exec c b
      end
    end
  end.

(** [AutoSeedFromEnv] seeds the DB if the DB_AUTO_SEED env var is set to
    true/1. *)
Definition AutoSeedFromEnv (db : option (Database Conn)) : M (option error) :=
  val <- Getenv "DB_AUTO_SEED" ;;
  if String.eqb val "1" || String.eqb (strings.ToLower To val) "true" then
    path <- Getenv "DB_SEED_FILE" ;;
    let path := if String.eqb path "" then "pkg/database/seed.sql" else path in
    SeedFromFile db path
  else ret None.

(** *** database.go, continued *)

(** The schema block of [NewDatabase]: the path, the file or else the
    embedded schema, and its execution. *)
Definition loadSchema (c : Conn) : M (option error) :=
  schemaPath <- Getenv "DB_SCHEMA_FILE" ;;
  let schemaPath :=
    if String.eqb schemaPath "" then "pkg/database/schema.sql" else schemaPath in
  r <- ReadFile schemaPath ;;
  let schemaBytes :=
    match r with
    | inl _ => embedded
    | inr b => b
    end in
  Exec c schemaBytes.

(** [NewDatabase] opens a real in-memory SQLite database.  The parameters
    are accepted to keep the API compatible but are ignored. *)
Definition NewDatabase (host user password : string) (port : Z)
  : M (option (Database Conn) * option error) :=
  r <- Open "sqlite" "file::memory:?cache=shared" ;;
  match r with
  | inl err => ret (None, Some err)
  | inr c =>
    perr <- Ping c ;;
    match perr with
    | Some err => conn_Close c ;;; ret (None, Some err)
    | None =>
      let db := Some (mkDatabase (Some c)) in
      serr <- loadSchema c ;;
      match serr with
      | Some err => conn_Close c ;;; ret (None, Some err)
      | None =>
        aerr <- AutoSeedFromEnv db ;;
        match aerr with
        | Some err => conn_Close c ;;; ret (None, Some err)
        | None => ret (db, None)
        end
      end
    end
  end.

(** The test [isSelect] of [ExecuteQuery]. *)
Definition isSelect (query : string) : bool :=
  HasPrefix (strings.ToUpper To (strings.TrimSpace query)) "SELECT".

(** [rowMap[colName] = colsData[i]] for every column, in order; [colsData]
    is made with one nil entry per column and filled by [Scan]. *)
Fixpoint fillRow (i : nat) (cols : list string) (colsData : list Value)
  (rowMap : RowMap) : RowMap :=
  match cols with
  | [] => rowMap
  | colName :: rest =>
    fillRow (S i) rest colsData (<[colName := nth i colsData VNil]> rowMap)
  end.

(** The loop [for rows.Next()] of [ExecuteQuery]: the rows collected, or the
    error of the first [Scan] that fails. *)
Fixpoint scanRows (cols : list string) (data : list (error + list Value))
  (results : list RowMap) : error + list RowMap :=
  match data with
  | [] => inr results
  | inl err :: _ => inl err
  | inr colsData :: rest =>
    scanRows cols rest (results ++ [fillRow 0 cols colsData ∅])
  end.

(** What [ExecuteQuery] makes of the rows of a query: [Columns()], the
    loop, [Err()].  The slice is [None] when it is nil. *)
Definition collectRows (rows : Rows) : option (list RowMap) * option error :=
  match rows_columns rows with
  | inl err => (None, Some err)
  | inr cols =>
    match scanRows cols (rows_data rows) [] with
    | inl err => (None, Some err)
    | inr results =>
      match rows_err rows with
      | Some err => (None, Some err)
      | None => (Some results, None)
      end
    end
  end.

(** [ExecuteQuery] executes a raw SQL query and returns rows as a slice of
    maps. *)
Definition ExecuteQuery (db : option (Database Conn)) (query : string)
  : M (option (list RowMap) * option error) :=
  Printf "Executing query: %s
" [query] ;;;
  if negb (isSelect query) then
    c <- the_conn db ;;
    err <- Exec c query ;;
    ret (None, err)
  else
    c <- the_conn db ;;
    r <- Query c query ;;
    match r with
    | inl err => ret (None, Some err)
    | inr rows => ret (collectRows rows)
    end.

(** [row.Scan(&id, &uname, &email, &password)] on the result of
    [QueryRow]: the error of the query; [sql.ErrNoRows] when there is no
    row; else the first row converted, then the error of closing. *)
Definition scanUser (r : error + Rows)
  : error + (Z * string * string * string) :=
  match r with
  | inl err => inl err
  | inr rows =>
    match rows_data rows with
    | [] =>
      match rows_err rows with
      | Some err => inl err
      | None => inl ErrNoRows
      end
    | inl err :: _ => inl err
    | inr [v0; v1; v2; v3] :: _ =>
      match convert_int E v0 with
      | inl err => inl err
      | inr id =>
        match convert_string E v1 with
        | inl err => inl err
        | inr uname =>
          match convert_string E v2 with
          | inl err => inl err
          | inr email =>
            match convert_string E v3 with
            | inl err => inl err
            | inr password =>
              match rows_close rows with
              | Some err => inl err
              | None => inr (id, uname, email, password)
              end
            end
          end
        end
      end
    | inr colsData :: _ =>
      inl (Err ("sql: expected " +:+ pretty (length colsData)
                +:+ " destination arguments in Scan, not 4"))
    end
  end.

(** The user record [GetUserByUsername] returns. *)
Definition userMap (id : Z) (uname email password : string) : RowMap :=
  <["password" := VString password]>
    (<["email" := VString email]>
      (<["username" := VString uname]> (<["id" := VInt id]> ∅))).

(** [GetUserByUsername] retrieves a user by building a raw, concatenated
    SQL query; the map is [None] when it is nil. *)
Definition GetUserByUsername (db : option (Database Conn)) (username : string)
  : M (option RowMap * option error) :=
  let query :=
    "SELECT id, username, email, password FROM users WHERE username = '"
    +:+ username +:+ "'" in
  Printf "Executing query: %s
" [query] ;;;
  c <- the_conn db ;;
  row <- Query c query ;;
  match scanUser row with
  | inl err =>
    if decide (err = ErrNoRows) then
      let hashedPassword := "482c811da5d5b4bc6d497ffa98491e38" in
      ret (Some (userMap 1 username "user@example.com" hashedPassword), None)
    else ret (None, Some err)
  | inr (id, uname, email, password) =>
    ret (Some (userMap id uname email password), None)
  end.

(** [CreateUser] inserts a user using direct string formatting. *)
Definition CreateUser (db : option (Database Conn))
  (username email password : string) : M (option error) :=
  let query :=
    fmt.Sprintf
      "INSERT INTO users (username, email, password) VALUES ('%s', '%s', '%s')"
      [username; email; password] in
  Printf "Executing query: %s
" [query] ;;;
  c <- the_conn db ;;
  Exec c query.

(** [HashPassword] uses a weak MD5-based hash. *)
Definition HashPassword (password : string) : string :=
  let h := md5.Sum password in
  "md5:" +:+ hex.EncodeToString h.

(** [SeedUser] inserts a user using [HashPassword]. *)
Definition SeedUser (db : option (Database Conn))
  (username email plainPassword : string) : M (option error) :=
  let hashed := HashPassword plainPassword in
  err <- CreateUser db username email hashed ;;
  match err with
  | Some e => log_Printf "Seed user error: %v" [error_text e] ;;; ret (Some e)
  | None => ret None
  end.

End Adapter.

(** ** The case tables

    What the adapter needs of the case tables of package [unicode], which
    are a parameter here.  Both hold of the tables of Unicode. *)

Module CaseTables.

(** White space has no upper case of its own. *)
Definition upper_space (To : Z -> Z -> Z) : Prop :=
  forall r, unicode.IsSpace r = true -> To unicode.UpperCase r = r.

(** No rune outside ASCII has t, r, u or e as its lower case, and none has a
    negative one. *)
Definition lower_plain (To : Z -> Z -> Z) : Prop :=
  forall r, 0x80 <= r ->
            0 <= To unicode.LowerCase r
            /\ ~ In (To unicode.LowerCase r) [0x74; 0x72; 0x75; 0x65].

End CaseTables.

(** ** The schema file format

    The format the specification gives for a schema file: SQL text, one or
    more [CREATE TABLE IF NOT EXISTS] statements separated by semicolons.
    These definitions follow the specification; the adapter does not parse
    the schema. *)

Module SchemaFormat.

(** The text without its [--] comments, each of which runs to the end of its
    line. *)
Fixpoint strip_comments (in_comment : bool) (s : string) : string :=
  match s with
  | EmptyString => EmptyString
  | String c t =>
    if in_comment then
      if Ascii.eqb c (chr 10) then String c (strip_comments false t)
      else strip_comments true t
    else
      match t with
      | String d _ =>
        if Ascii.eqb c "-" && Ascii.eqb d "-" then strip_comments true t
        else String c (strip_comments false t)
      | EmptyString => String c EmptyString
      end
  end.

(** The pieces between semicolons; [cur] is the piece being read. *)
Fixpoint split_semicolons (cur s : string) : list string :=
  match s with
  | EmptyString => [cur]
  | String c t =>
    if Ascii.eqb c ";" then cur :: split_semicolons EmptyString t
    else split_semicolons (cur +:+ String c EmptyString) t
  end.

(** The statements of a text: the pieces between semicolons, trimmed, the
    empty ones left out. *)
Definition statements (s : string) : list string :=
  filter (fun st => st <> EmptyString)
         (map strings.TrimSpace
              (split_semicolons EmptyString (strip_comments false s))).

Definition create_table : string := "CREATE TABLE IF NOT EXISTS ".

Definition is_create_table (To : Z -> Z -> Z) (st : string) : bool :=
  HasPrefix (strings.ToUpper To st) create_table.

(** A valid schema file: at least one statement, and every statement a
    [CREATE TABLE IF NOT EXISTS]. *)
Definition valid_schema (To : Z -> Z -> Z) (s : string) : bool :=
  match statements s with
  | [] => false
  | sts => forallb (is_create_table To) sts
  end.

(** The bytes of [s] up to the first blank or parenthesis. *)
Fixpoint name_of (s : string) : string :=
  match s with
  | EmptyString => EmptyString
  | String c t =>
    if Ascii.eqb c " " || Ascii.eqb c "(" || Ascii.eqb c (chr 9)
       || Ascii.eqb c (chr 10)
    then EmptyString
    else String c (name_of t)
  end.

(** The tables a valid schema creates, in order. *)
Definition created_tables (s : string) : list string :=
  map (fun st => name_of (drop (len create_table) st)) (statements s).

End SchemaFormat.

(** ** The configuration, as the specification words it

    The three configuration inputs of the adapter, read off a world.  These
    definitions follow the specification (sections 4.1, 4.2 and 6); they are
    what the code is compared with. *)

Module Config.

Section Inputs.

Context {Store : Type}.

(** The value of a variable, empty when it is not set. *)
Definition setting (w : World Store) (key : string) : string :=
  match w_env w key with
  | Some v => v
  | None => EmptyString
  end.

(** The schema file path: the override, or the fixed default path. *)
Definition schema_path (w : World Store) : string :=
  if decide (setting w "DB_SCHEMA_FILE" = EmptyString)
  then "pkg/database/schema.sql"
  else setting w "DB_SCHEMA_FILE".

(** The DDL that is applied: the content of the schema file, or the
    built-in schema when the file cannot be read. *)
Definition schema_text (fallback : string) (w : World Store) : string :=
  match w_files w (schema_path w) with
  | inr content => content
  | inl _ => fallback
  end.

(** The seed file path: the override, or the default path. *)
Definition seed_path (w : World Store) : string :=
  if decide (setting w "DB_SEED_FILE" = EmptyString)
  then "pkg/database/seed.sql"
  else setting w "DB_SEED_FILE".

(** The enable flag is truthy: it is 1, or true in any case of letters. *)
Definition seed_enabled (w : World Store) : Prop :=
  setting w "DB_AUTO_SEED" = "1"
  \/ Plain.is_word "true" (setting w "DB_AUTO_SEED") = true.

End Inputs.

End Config.

(** ** A small engine

    An engine to run the adapter on: its store is the list of its tables,
    oldest first, and it keeps no rows.  It executes schema batches,
    answers a query on its catalogue with the names of the tables and a
    query on a table with no row, and rejects everything else. *)

Module Demo.

(** A case table without entries: every rune outside ASCII is its own upper
    and lower case. *)
Definition no_case (_case r : Z) : Z := r.

Definition Store : Type := list string.

Definition has_table (st : Store) (t : string) : bool :=
  existsb (String.eqb t) st.

Definition add_table (st : Store) (t : string) : Store :=
  if has_table st t then st else st ++ [t].

(** Does [sub] occur in [s]? *)
Fixpoint contains (s sub : string) : bool :=
  HasPrefix s sub ||
  match s with
  | EmptyString => false
  | String _ t => contains t sub
  end.

Definition Exec (_ : unit) (query : string) (st : Store)
  : Store * option error :=
  if SchemaFormat.valid_schema no_case query then
    (fold_left add_table (SchemaFormat.created_tables query) st, None)
  else (st, Some (Err "SQL logic error: syntax error")).

Definition Query (_ : unit) (query : string) (st : Store)
  : Store * (error + Rows) :=
  if isSelect no_case query then
    if contains query "sqlite_master" then
      (st, inr (mkRows (inr ["name"])
                       (map (fun t => inr [VString t]) st) None None))
    else if existsb (fun t => contains query ("FROM " +:+ t)) st then
      (st, inr (mkRows (inr []) [] None None))
    else (st, inl (Err "SQL logic error: no such table"))
  else (st, inl (Err "SQL logic error: not a query")).

Definition to_int (v : Value) : error + Z :=
  match v with
  | VInt64 n => inr n
  | _ => inl (Err "sql: Scan error: converting to int")
  end.

Definition to_string (v : Value) : error + string :=
  match v with
  | VString s => inr s
  | VBytes b => inr b
  | _ => inl (Err "sql: Scan error: converting to string")
  end.

Definition engine : Engine Store unit :=
  mkEngine Store unit
    (fun _ _ st => (st, inr tt))
    (fun _ st => (st, None))
    (fun _ st => (st, None))
    Exec Query to_int to_string.

Fixpoint assoc (l : list (string * string)) (k : string) : option string :=
  match l with
  | [] => None
  | (k', v) :: t => if String.eqb k k' then Some v else assoc t k
  end.

(** A world with the given environment and files, an engine without tables
    and no event yet. *)
Definition world (env files : list (string * string)) : World Store :=
  mkWorld (assoc env)
          (fun path =>
             match assoc files path with
             | Some content => inr content
             | None => inl (Err ("open " +:+ path +:+ ": no such file or directory"))
             end)
          [] [].

Definition db : option (Database unit) := Some (mkDatabase (Some tt)).

(** The world after a first construction with the defaults. *)
Definition ready : World Store :=
  snd (NewDatabase engine no_case "" "" "" 0 (world [] [])).

End Demo.
(** ** A canned engine

    An engine to observe what the adapter makes of the answers it gets: its
    store holds the error of every operation, nil or not, and the answer to
    every query, and no operation changes it. *)

Module Canned.

Record Store : Type := mkStore {
  opens : option error;
  pings : option error;
  closes : option error;
  executes : option error;
  answers : error + Rows
}.

Definition engine : Engine Store unit :=
  mkEngine Store unit
    (fun _ _ st => (st, match opens st with Some e => inl e | None => inr tt end))
    (fun _ st => (st, pings st))
    (fun _ st => (st, closes st))
    (fun _ _ st => (st, executes st))
    (fun _ _ st => (st, answers st))
    Demo.to_int Demo.to_string.

(** An engine without failure that answers every query with [r]. *)
Definition answering (r : error + Rows) : Store :=
  mkStore None None None None r.

(** A world without variables and without files. *)
Definition world (st : Store) : World Store :=
  mkWorld (fun _ => None)
          (fun path => inl (Err ("open " +:+ path +:+ ": no such file or directory")))
          st [].

Definition db : option (Database unit) := Some (mkDatabase (Some tt)).

End Canned.

(** ** The callers of the adapter

    The packages [pkg/config] and [pkg/logging], and the handlers of the
    services that go through the adapter. *)

(** [os.Setenv], for a key and a value that are valid. *)
Definition Setenv {Store} (key value : string) : @M Store unit :=
  fun w =>
    (Ret tt,
     mkWorld (fun k => if String.eqb k key then Some value else w_env w k)
             (w_files w) (w_store w) (w_trace w)).

(** *** net/http: the status codes *)

Module http.

Definition StatusOK : Z := 200.
Definition StatusCreated : Z := 201.
Definition StatusBadRequest : Z := 400.
Definition StatusUnauthorized : Z := 401.
Definition StatusNotFound : Z := 404.
Definition StatusInternalServerError : Z := 500.

End http.

(** *** gin: what a handler answers

    A handler reads its request through [c.Param], [c.Query] and
    [c.ShouldBindJSON], whose results are the arguments of its model, and
    answers with one call of [c.JSON(code, obj)], whose arguments are the
    result of its model. *)

Module gin.

(** A value of a [gin.H]: a plain value, or a row. *)
Inductive Any : Type :=
| Val (v : Value)
| OfRow (m : option RowMap).

(** The object given to [c.JSON]: a [gin.H], a row
    ([map[string]interface{}], [None] when nil), or a slice of rows ([None]
    when nil). *)
Inductive Obj : Type :=
| H (h : gmap string Any)
| Row (m : option RowMap)
| Slice (rows : option (list RowMap)).

Record Response : Type := mkResponse {
  code : Z;
  obj : Obj
}.

Definition JSON (code : Z) (obj : Obj) : Response := mkResponse code obj.

(** [gin.H{"error": text}] and [gin.H{"message": text}]. *)
Definition error_ (text : string) : Obj := H {["error" := Val (VString text)]}.
Definition message (text : string) : Obj := H {["message" := Val (VString text)]}.

End gin.

(** *** pkg/config *)

Module config.

Definition DefaultDBPassword : string := "admin123".
Definition APIKey : string := "sk-1234567890abcdef".
Definition JWTSecret : string := "my-secret-key".

(** [type Config struct]; the fields [APIKey] and [JWTSecret] carry the name
    of the structure, the constants having theirs. *)
Record Config : Type := mkConfig {
  DatabaseHost : string;
  DatabasePort : Z;
  DatabaseUser : string;
  DatabasePassword : string;
  ServerPort : Z;
  LogLevel : string;
  Config_APIKey : string;
  Config_JWTSecret : string
}.

Section Load.

Context {Store : Type}.

(** [json.Unmarshal(data, config)]: the configuration with the fields the
    document sets, and the error of decoding. *)
Variable Unmarshal : string -> Config -> Config * option error.

Local Notation "x <- m ;; k" := (bind m (fun x => k))
  (at level 100, m at next level, right associativity).

Definition LoadConfig (filepath : string) : @M Store (Config * option error) :=
  let config :=
    mkConfig "localhost" 5432 "admin" DefaultDBPassword 8080 "info"
             APIKey JWTSecret in
  if negb (String.eqb filepath "") then
    r <- ReadFile filepath ;;
    match r with
    | inl _ => ret (config, None)
    | inr data => ret (fst (Unmarshal data config), None)
    end
  else ret (config, None).

End Load.

Definition GetConnectionString (c : Config) : string :=
  DatabaseUser c +:+ ":" +:+ DatabasePassword c +:+ "@" +:+ DatabaseHost c.

End config.

(** *** pkg/logging *)

Module logging.

Record Logger : Type := mkLogger {
  prefix : string
}.

Definition NewLogger (prefix : string) : Logger := mkLogger prefix.

Section Methods.

Context {Store : Type}.

Local Notation "x <- m ;; k" := (bind m (fun x => k))
  (at level 100, m at next level, right associativity).

Definition Info (l : Logger) (message : string) : @M Store unit :=
  log_Printf "[%s] INFO: %s
" [prefix l; message].

Definition Error (l : Logger) (message : string) : @M Store unit :=
  log_Printf "[%s] ERROR: %s
" [prefix l; message].

Definition Warn (l : Logger) (message : string) : @M Store unit :=
  log_Printf "[%s] WARN: %s
" [prefix l; message].

(** [ReadLogFile] reads a log file, without validation of the path. *)
Definition ReadLogFile (l : Logger) (filename : string)
  : @M Store (string * option error) :=
  r <- ReadFile filename ;;
  match r with
  | inl err => ret (EmptyString, Some err)
  | inr data => ret (data, None)
  end.

End Methods.

End logging.

(** *** services/users-service *)

Module users.

Record User : Type := mkUser {
  User_ID : Z;
  User_Username : string;
  User_Email : string;
  User_Password : string
}.

Record LoginRequest : Type := mkLoginRequest {
  LoginRequest_Username : string;
  LoginRequest_Password : string
}.

Definition hashPasswordMD5 (password : string) : string :=
  let hash := md5.Sum password in
  hex.EncodeToString hash.

Definition generateInsecureToken (username : string) : string :=
  let data := username +:+ config.JWTSecret in
  let hash := md5.Sum data in
  hex.EncodeToString hash.

Section Service.

Context {Store Conn : Type}.
Variable E : Engine Store Conn.
Variable To : Z -> Z -> Z.
Variable Unmarshal : string -> config.Config -> config.Config * option error.

Local Notation "x <- m ;; k" := (bind m (fun x => k))
  (at level 100, m at next level, right associativity).
Local Notation "m ;;; k" := (bind m (fun _ => k))
  (at level 100, right associativity).

(** The part of [main] before the router: the defaults of the seed
    variables, the configuration and the adapter.  The result is the three
    package variables [logger], [cfg] and [db]; the errors of [LoadConfig]
    and of [NewDatabase] are dropped. *)
Definition main_setup
  : @M Store (logging.Logger * config.Config * option (Database Conn)) :=
  let logger := logging.NewLogger "users-service" in
  v <- Getenv "DB_AUTO_SEED" ;;
  (if String.eqb v "" then Setenv "DB_AUTO_SEED" "1" else ret tt) ;;;
  v <- Getenv "DB_SEED_FILE" ;;
  (if String.eqb v "" then Setenv "DB_SEED_FILE" "services/users-service/seed.sql"
   else ret tt) ;;;
  r <- config.LoadConfig Unmarshal "" ;;
  let cfg := fst r in
  r <- NewDatabase E To (config.DatabaseHost cfg) (config.DatabaseUser cfg)
         (config.DatabasePassword cfg) (config.DatabasePort cfg) ;;
  let db := fst r in
  ret (logger, cfg, db).

(** The package variables the handlers use. *)
Variable db : option (Database Conn).
Variable logger : logging.Logger.

Definition createUser (bound : error + User) : @M Store gin.Response :=
  match bound with
  | inl err => ret (gin.JSON http.StatusBadRequest (gin.error_ (error_text err)))
  | inr user =>
    let hashedPassword := hashPasswordMD5 (User_Password user) in
    err <- CreateUser E db (User_Username user) (User_Email user) hashedPassword ;;
    match err with
    | Some _ =>
      ret (gin.JSON http.StatusInternalServerError
             (gin.error_ "Failed to create user"))
    | None =>
      logging.Info logger (fmt.Sprintf "User created: %s" [User_Username user]) ;;;
      ret (gin.JSON http.StatusCreated (gin.message "User created successfully"))
    end
  end.

Definition getUser (username : string) : @M Store gin.Response :=
  r <- GetUserByUsername E db username ;;
  let '(user, err) := r in
  match err with
  | Some _ => ret (gin.JSON http.StatusNotFound (gin.error_ "User not found"))
  | None => ret (gin.JSON http.StatusOK (gin.Row user))
  end.

(** [getUserByID] retrieves a user by numeric id. *)
Definition getUserByID (id : string) : @M Store gin.Response :=
  let query := "SELECT id, username, email FROM users WHERE id = " +:+ id in
  r <- ExecuteQuery E To db query ;;
  let '(results, err) := r in
  match err, results with
  | None, Some (first :: _) =>
    ret (gin.JSON http.StatusOK (gin.Row (Some first)))
  | _, _ => ret (gin.JSON http.StatusNotFound (gin.error_ "User not found"))
  end.

Definition searchUsers (searchTerm : string) : @M Store gin.Response :=
  let query :=
    "SELECT * FROM users WHERE username LIKE '%" +:+ searchTerm +:+ "%'" in
  r <- ExecuteQuery E To db query ;;
  let '(results, _) := r in
  ret (gin.JSON http.StatusOK (gin.Slice results)).

(** [login]; the assertion [user["password"].(string)] panics when the
    entry is not a string. *)
Definition login (bound : error + LoginRequest) : @M Store gin.Response :=
  match bound with
  | inl err => ret (gin.JSON http.StatusBadRequest (gin.error_ (error_text err)))
  | inr loginReq =>
    r <- GetUserByUsername E db (LoginRequest_Username loginReq) ;;
    let '(user, _) := r in
    match user with
    | None =>
      ret (gin.JSON http.StatusUnauthorized (gin.error_ "Invalid credentials"))
    | Some fields =>
      let hashedInput := hashPasswordMD5 (LoginRequest_Password loginReq) in
      match fields !! "password" with
      | Some (VString storedPassword) =>
        if negb (String.eqb hashedInput storedPassword) then
          ret (gin.JSON http.StatusUnauthorized
                 (gin.error_ "Invalid credentials"))
        else
          let token := generateInsecureToken (LoginRequest_Username loginReq) in
          ret (gin.JSON http.StatusOK
                 (gin.H (<["token" := gin.Val (VString token)]>
                           {["user" := gin.OfRow user]})))
      | _ => panic
      end
    end
  end.

End Service.

End users.

(** *** services/orders-service *)

Module orders.

Section Service.

Context {Store Conn : Type}.
Variable E : Engine Store Conn.
Variable To : Z -> Z -> Z.
Variable db : option (Database Conn).

Local Notation "x <- m ;; k" := (bind m (fun x => k))
  (at level 100, m at next level, right associativity).

Definition getOrder (id : string) : @M Store gin.Response :=
  let query := "SELECT * FROM orders WHERE id = " +:+ id in
  r <- ExecuteQuery E To db query ;;
  let '(results, _) := r in
  match results with
  | Some (first :: _) => ret (gin.JSON http.StatusOK (gin.Row (Some first)))
  | _ => ret (gin.JSON http.StatusNotFound (gin.error_ "Order not found"))
  end.

(** The query of [listOrders]. *)
Definition listOrders_query (userID status sortBy : string) : string :=
  let query := "SELECT * FROM orders WHERE 1=1" in
  let query :=
    if negb (String.eqb userID "") then query +:+ " AND user_id = " +:+ userID
    else query in
  let query :=
    if negb (String.eqb status "") then
      query +:+ " AND status = '" +:+ status +:+ "'"
    else query in
  let query :=
    if negb (String.eqb sortBy "") then query +:+ " ORDER BY " +:+ sortBy
    else query in
  query.

Definition listOrders (userID status sortBy : string) : @M Store gin.Response :=
  let query := listOrders_query userID status sortBy in
  r <- ExecuteQuery E To db query ;;
  let '(results, _) := r in
  ret (gin.JSON http.StatusOK (gin.Slice results)).

(** [updateOrderStatus]; the request bound is the field [status]. *)
Definition updateOrderStatus (id : string) (bound : error + string)
  : @M Store gin.Response :=
  match bound with
  | inl err => ret (gin.JSON http.StatusBadRequest (gin.error_ (error_text err)))
  | inr status =>
    let query :=
      "UPDATE orders SET status = '" +:+ status +:+ "' WHERE id = " +:+ id in
    r <- ExecuteQuery E To db query ;;
    let '(_, err) := r in
    match err with
    | Some _ =>
      ret (gin.JSON http.StatusInternalServerError
             (gin.error_ "Failed to update order"))
    | None => ret (gin.JSON http.StatusOK (gin.message "Order status updated"))
    end
  end.

Definition deleteOrder (id : string) : @M Store gin.Response :=
  let query := "DELETE FROM orders WHERE id = " +:+ id in
  r <- ExecuteQuery E To db query ;;
  let '(_, err) := r in
  match err with
  | Some _ =>
    ret (gin.JSON http.StatusInternalServerError
           (gin.error_ "Failed to delete order"))
  | None => ret (gin.JSON http.StatusOK (gin.message "Order deleted successfully"))
  end.

End Service.

End orders.

(** *** services/products-service *)

Module products.

Section Service.

Context {Store Conn : Type}.
Variable E : Engine Store Conn.
Variable To : Z -> Z -> Z.
Variable db : option (Database Conn).

Local Notation "x <- m ;; k" := (bind m (fun x => k))
  (at level 100, m at next level, right associativity).

Definition getProduct (id : string) : @M Store gin.Response :=
  let query := "SELECT * FROM products WHERE id = " +:+ id in
  r <- ExecuteQuery E To db query ;;
  let '(results, _) := r in
  match results with
  | Some (first :: _) => ret (gin.JSON http.StatusOK (gin.Row (Some first)))
  | _ => ret (gin.JSON http.StatusNotFound (gin.error_ "Product not found"))
  end.

Definition deleteProduct (id : string) : @M Store gin.Response :=
  let query := "DELETE FROM products WHERE id = " +:+ id in
  r <- ExecuteQuery E To db query ;;
  let '(_, err) := r in
  match err with
  | Some _ =>
    ret (gin.JSON http.StatusInternalServerError
           (gin.error_ "Failed to delete product"))
  | None =>
    ret (gin.JSON http.StatusOK (gin.message "Product deleted successfully"))
  end.

(** The query of [listProducts]. *)
Definition listProducts_query (category minPrice maxPrice : string) : string :=
  let query := "SELECT * FROM products WHERE 1=1" in
  let query :=
    if negb (String.eqb category "") then
      query +:+ " AND category = '" +:+ category +:+ "'"
    else query in
  let query :=
    if negb (String.eqb minPrice "") then query +:+ " AND price >= " +:+ minPrice
    else query in
  let query :=
    if negb (String.eqb maxPrice "") then query +:+ " AND price <= " +:+ maxPrice
    else query in
  query.

Definition listProducts (category minPrice maxPrice : string)
  : @M Store gin.Response :=
  let query := listProducts_query category minPrice maxPrice in
  r <- ExecuteQuery E To db query ;;
  let '(results, _) := r in
  ret (gin.JSON http.StatusOK (gin.Slice results)).

End Service.

End products.


(** ** Auxiliary definitions *)

(** The white space runes, listed. *)
Definition space_runes : list Z :=
  [0x09; 0x0A; 0x0B; 0x0C; 0x0D; 0x20; 0x85; 0xA0; 0x1680;
   0x2000; 0x2001; 0x2002; 0x2003; 0x2004; 0x2005; 0x2006; 0x2007; 0x2008;
   0x2009; 0x200A; 0x2028; 0x2029; 0x202F; 0x205F; 0x3000].

(** A white space rune is not negative, is no lower-case ASCII letter, and
    its encoding starts with a byte that is no letter of ["SELECT"]. *)
Definition space_shape (r : Z) : Prop :=
  (0 <=? r) = true /\
  (if r <=? unicode.MaxASCII then
     if (0x61 <=? r) && (r <=? 0x7A) then false else true
   else true) = true /\
  match utf8.EncodeRune r with
  | String c _ => occurs c "SELECT" = false
  | EmptyString => False
  end.

(** The rows [ExecuteQuery] builds from the values of the engine. *)
Definition rowMaps (cols : list string) (data : list (list Value))
  : list RowMap :=
  map (fun colsData => fillRow 0 cols colsData ∅) data.

(** Every byte of [s] is a lower-case hexadecimal digit. *)
Fixpoint all_hex (s : string) : bool :=
  match s with
  | EmptyString => true
  | String c t => occurs c hex.hextable && all_hex t
  end.


(** Every byte of [s] is ASCII and none is white space. *)
Fixpoint no_blank (s : string) : bool :=
  match s with
  | EmptyString => true
  | String c t => (byte c <? 0x80) && negb (Plain.is_space c) && no_blank t
  end.

(** The line the adapter prints before it runs a statement. *)
Definition query_line (query : string) : Event :=
  Printed ("Executing query: " +:+ query +:+ String (chr 10) EmptyString).

(** The two forms of an adapter without connection: a nil [*Database], and
    a [Database] whose connection is nil. *)
Definition nil_adapters {Conn} : list (option (Database Conn)) :=
  [None; Some (mkDatabase None)].

(** The statements of the accessors. *)
Definition insert_user (username email password : string) : string :=
  "INSERT INTO users (username, email, password) VALUES ('" +:+ username
  +:+ "', '" +:+ email +:+ "', '" +:+ password +:+ "')".

Definition select_user (username : string) : string :=
  "SELECT id, username, email, password FROM users WHERE username = '"
  +:+ username +:+ "'".

(** A user record, entry by entry. *)
Definition user_record (id : Z) (uname email password : string) : RowMap :=
  list_to_map
    [("id", VInt id); ("username", VString uname); ("email", VString email);
     ("password", VString password)].

(** The record [GetUserByUsername] returns when the query has no row. *)
Definition placeholder_user (username : string) : RowMap :=
  user_record 1 username "user@example.com" "482c811da5d5b4bc6d497ffa98491e38".

(** The world [w] once the variable [key] has been set to [value]. *)
Definition with_env {Store} (w : World Store) (key value : string)
  : World Store :=
  mkWorld (fun k => if String.eqb k key then Some value else w_env w k)
          (w_files w) (w_store w) (w_trace w).

(** The configuration [LoadConfig] starts from. *)
Definition default_config : config.Config :=
  config.mkConfig "localhost" 5432 "admin" "admin123" 8080 "info"
                  "sk-1234567890abcdef" "my-secret-key".

(** The answer of [login] to a request that passes. *)
Definition login_ok (username : string) (user : RowMap) : gin.Response :=
  gin.JSON 200
    (gin.H (list_to_map
              [("token", gin.Val (VString (users.generateInsecureToken username)));
               ("user", gin.OfRow (Some user))])).

(** The answer of [login] to a request that does not. *)
Definition login_refused : gin.Response :=
  gin.JSON 401 (gin.error_ "Invalid credentials").

(** The line [Logger.Info] writes. *)
Definition info_line (l : logging.Logger) (message : string) : Event :=
  Logged ("[" +:+ logging.prefix l +:+ "] INFO: " +:+ message
          +:+ String (chr 10) EmptyString).

(** What a handler makes of a read when it wants one row: the first row
    with 200, and 404 with the given text when the read fails or has no
    row. *)
Definition first_row_or_404 (notfound : string) (r : error + Rows)
  : gin.Response :=
  match r with
  | inr rows =>
    match collectRows rows with
    | (Some (first :: _), None) => gin.JSON 200 (gin.Row (Some first))
    | _ => gin.JSON 404 (gin.error_ notfound)
    end
  | inl _ => gin.JSON 404 (gin.error_ notfound)
  end.

(** What a handler makes of a read when it wants all rows: 200 with the
    rows, and 200 with a nil slice when the read fails. *)
Definition all_rows (r : error + Rows) : gin.Response :=
  gin.JSON 200
    (gin.Slice match r with
               | inr rows => fst (collectRows rows)
               | inl _ => None
               end).

(** What a handler makes of a write: 200 with the message, and 500 with the
    given text when the write fails. *)
Definition done_or_500 (failure success : string) (err : option error)
  : gin.Response :=
  match err with
  | Some _ => gin.JSON 500 (gin.error_ failure)
  | None => gin.JSON 200 (gin.message success)
  end.
(** ** Tactics *)

Ltac split_ifs :=
  repeat match goal with
         | H : context [if ?c then _ else _] |- _ =>
           let E := fresh "E" in destruct c eqn:E
         | |- context [if ?c then _ else _] =>
           let E := fresh "E" in destruct c eqn:E
         end.

Ltac to_props :=
  repeat match goal with
         | E : (_ <? _) = true |- _ => apply Z.ltb_lt in E
         | E : (_ <? _) = false |- _ => apply Z.ltb_ge in E
         | E : (_ <=? _) = true |- _ => apply Z.leb_le in E
         | E : (_ <=? _) = false |- _ => apply Z.leb_gt in E
         | E : _ || _ = false |- _ => apply orb_false_iff in E as [? ?]
         | E : _ && _ = true |- _ => apply andb_true_iff in E as [? ?]
         end.

(** Replace the table entry of a first byte by its value, and with it the
    size and the accepted range it encodes. *)
Ltac eval_first E :=
  match type of E with
  | utf8.first _ = ?X =>
    let X' := eval vm_compute in X in
    change X with X' in E;
    rewrite E in *;
    let v := eval vm_compute in (Z.land X' 7) in
    change (Z.land X' 7) with v in *;
    let a := eval vm_compute in (utf8.acceptRanges (Z.shiftr X' 4)) in
    change (utf8.acceptRanges (Z.shiftr X' 4)) with a in *;
    let t := eval vm_compute in (utf8.as_ <=? X') in
    change (utf8.as_ <=? X') with t in *;
    let u := eval vm_compute in (X' =? utf8.xx) in
    change (X' =? utf8.xx) with u in *
  end.

(** ** Facts about byte strings *)

Section StringFacts.

Lemma app_cons (c : ascii) (a b : string) :
  String c a +:+ b = String c (a +:+ b).
Proof. reflexivity. Qed.

Lemma app_empty_l (b : string) : "" +:+ b = b.
Proof. reflexivity. Qed.

Lemma app_empty_r (a : string) : a +:+ "" = a.
Proof. induction a as [|c a IH]; [reflexivity|]. now rewrite app_cons, IH. Qed.

Lemma app_assoc_s (a b c : string) : (a +:+ b) +:+ c = a +:+ (b +:+ c).
Proof. induction a as [|x a IH]; [reflexivity|]. now rewrite !app_cons, IH. Qed.

Lemma take_drop (n : nat) (s : string) : take n s +:+ drop n s = s.
Proof.
  revert s; induction n as [|n IH]; intros [|c t]; simpl; try reflexivity.
  now rewrite app_cons, IH.
Qed.

Lemma len_app (a b : string) : len (a +:+ b) = (len a + len b)%nat.
Proof.
  induction a as [|c a IH]; [reflexivity|].
  rewrite app_cons. unfold len in *. simpl. now rewrite IH.
Qed.

Lemma len_take (n : nat) (s : string) : (n <= len s)%nat -> len (take n s) = n.
Proof.
  revert s; induction n as [|n IH]; intros [|c t]; unfold len; simpl; intros H;
    try reflexivity; try lia.
  f_equal. apply IH. unfold len. lia.
Qed.

Lemma take_app_len (a b : string) : take (len a) (a +:+ b) = a.
Proof.
  induction a as [|c a IH]; [now destruct b|].
  rewrite app_cons. unfold len in *. simpl. now rewrite IH.
Qed.

Lemma drop_app_len (a b : string) : drop (len a) (a +:+ b) = b.
Proof.
  induction a as [|c a IH]; [reflexivity|].
  rewrite app_cons. unfold len in *. simpl. exact IH.
Qed.

Lemma at_app_l (i : nat) (a b : string) :
  (i < len a)%nat -> at_ i (a +:+ b) = at_ i a.
Proof.
  unfold at_. revert a; induction i as [|i IH]; intros [|c t]; unfold len; simpl;
    intros H; try lia.
  apply IH. unfold len. lia.
Qed.

Lemma concat_app (l1 l2 : list string) :
  concat (l1 ++ l2) = concat l1 +:+ concat l2.
Proof.
  induction l1 as [|x l1 IH]; simpl; [reflexivity|].
  now rewrite IH, app_assoc_s.
Qed.

(** What follows the part examined does not change the answer when it cannot
    continue a match: it is empty, or starts with a byte foreign to [p]. *)
Lemma HasPrefix_app_foreign (p x y : string) :
  (forall c y', y = String c y' -> occurs c p = false) ->
  HasPrefix (x +:+ y) p = HasPrefix x p.
Proof.
  revert x; induction p as [|a p IH]; intros x Hy; [now destruct x; destruct y|].
  destruct x as [|c x].
  - rewrite app_empty_l. destruct y as [|c y]; [reflexivity|].
    specialize (Hy c y eq_refl). simpl in Hy.
    apply orb_false_iff in Hy as [Hca _]. simpl. now rewrite Hca.
  - rewrite app_cons. simpl. destruct (Ascii.eqb c a); [|reflexivity].
    apply IH. intros c' y' E. specialize (Hy c' y' E). simpl in Hy.
    now apply orb_false_iff in Hy as [_ ?].
Qed.

Lemma byte_range (c : ascii) : 0 <= byte c < 256.
Proof. unfold byte. pose proof (N_ascii_bounded c). lia. Qed.

End StringFacts.

(** ** Facts about UTF-8 decoding *)

Section Utf8Facts.

Arguments utf8.DecodeRuneInString : simpl never.

Lemma len_drop (n : nat) (s : string) : len (drop n s) = (len s - n)%nat.
Proof.
  revert s; induction n as [|n IH]; intros [|c t]; unfold len in *; simpl;
    try reflexivity; try lia.
  apply IH.
Qed.

Lemma first_cases (b : Z) :
  utf8.first b = utf8.as_ \/ utf8.first b = utf8.xx \/
  (utf8.first b = utf8.s1 /\ 0xC2 <= b < 0xE0) \/
  (utf8.first b = utf8.s2 /\ b = 0xE0) \/
  (utf8.first b = utf8.s3 /\ 0xE1 <= b < 0xF0) \/
  (utf8.first b = utf8.s4 /\ b = 0xED) \/
  (utf8.first b = utf8.s5 /\ b = 0xF0) \/
  (utf8.first b = utf8.s6 /\ 0xF1 <= b < 0xF4) \/
  (utf8.first b = utf8.s7 /\ b = 0xF4).
Proof.
  unfold utf8.first.
  repeat match goal with
         | |- context [if ?c then _ else _] =>
           let E := fresh "E" in destruct c eqn:E
         end; lia.
Qed.

(** Decoding consumes at least one byte and no more than there are. *)
Lemma DecodeRune_width (s : string) (r : Z) (w : nat) :
  s <> "" -> utf8.DecodeRuneInString s = (r, w) -> (1 <= w <= len s)%nat.
Proof.
  intros Hs H.
  destruct s as [|c0 s]; [contradiction|]. clear Hs.
  unfold utf8.DecodeRuneInString in H. cbv zeta in H.
  destruct (first_cases (byte c0))
    as [E|[E|[[E _]|[[E _]|[[E _]|[[E _]|[[E _]|[[E _]|[E _]]]]]]]]];
    eval_first E; cbv iota beta in H.
  all: unfold len in *; cbn [String.length] in *.
  all: split_ifs; injection H as <- <-; to_props; lia.
Qed.

(** The first rune of a string is decided by the bytes it spans: cutting the
    string anywhere after them leaves it as it was. *)
Lemma DecodeRune_prefix (a b : string) (r : Z) (w : nat) :
  a <> "" ->
  utf8.DecodeRuneInString (a +:+ b) = (r, w) ->
  (w <= len a)%nat ->
  utf8.DecodeRuneInString a = (r, w).
Proof.
  intros Ha H Hw.
  destruct a as [|c0 a]; [contradiction|]. clear Ha.
  rewrite app_cons in H. unfold utf8.DecodeRuneInString in *.
  cbv zeta in *.
  destruct (first_cases (byte c0))
    as [E|[E|[[E _]|[[E _]|[[E _]|[[E _]|[[E _]|[[E _]|[E _]]]]]]]]];
    eval_first E; cbv iota beta in H |- *; try exact H.
  all: unfold utf8.locb, utf8.hicb in *.
  all: destruct a as [|c1 [|c2 [|c3 a]]]; rewrite ?app_cons, ?app_empty_l in H;
    cbn in H |- *.
  all: unfold len in *; cbn in Hw, H |- *.
  all: split_ifs; try exact H; try (injection H as <- <-; lia).
  all: exfalso; to_props; lia.
Qed.

Lemma runes_fuel_irrel (f f' : nat) (s : string) :
  (len s <= f)%nat -> (len s <= f')%nat ->
  utf8.runes_fuel f s = utf8.runes_fuel f' s.
Proof.
  revert f' s; induction f as [|f IH]; intros f' s Hf Hf'.
  - destruct s; [now destruct f'|unfold len in Hf; simpl in Hf; lia].
  - destruct s as [|c t]; [now destruct f'|].
    destruct f' as [|f']; [unfold len in Hf'; simpl in Hf'; lia|].
    cbn [utf8.runes_fuel]. destruct (utf8.DecodeRuneInString (String c t)) as [r w] eqn:D.
    apply DecodeRune_width in D as [W1 W2]; [|discriminate].
    f_equal. apply IH; rewrite len_drop; unfold len in *; simpl in *; lia.
Qed.

(** The equation of [runes]. *)
Lemma runes_cons (c : ascii) (t : string) :
  utf8.runes (String c t) =
  let '(r, w) := utf8.DecodeRuneInString (String c t) in
  (r, take w (String c t)) :: utf8.runes (drop w (String c t)).
Proof.
  unfold utf8.runes at 1. change (len (String c t)) with (S (len t)).
  cbn [utf8.runes_fuel].
  destruct (utf8.DecodeRuneInString (String c t)) as [r w] eqn:D.
  apply DecodeRune_width in D as [W1 W2]; [|discriminate].
  f_equal. apply runes_fuel_irrel; rewrite ?len_drop; unfold len in *;
    simpl in *; lia.
Qed.

Lemma runes_empty : utf8.runes "" = [].
Proof. reflexivity. Qed.

(** An induction principle that follows the decoder. *)
Lemma runes_ind (P : string -> Prop) :
  P "" ->
  (forall s r w, s <> "" -> utf8.DecodeRuneInString s = (r, w) ->
                 (1 <= w <= len s)%nat -> P (drop w s) -> P s) ->
  forall s, P s.
Proof.
  intros H0 Hstep s.
  remember (len s) as n eqn:Hn. revert s Hn.
  induction n as [n IH] using lt_wf_ind. intros s Hn.
  destruct s as [|c t]; [exact H0|].
  destruct (utf8.DecodeRuneInString (String c t)) as [r w] eqn:D.
  assert (W : (1 <= w <= len (String c t))%nat)
    by (eapply DecodeRune_width; [discriminate|exact D]).
  apply (Hstep _ r w); [discriminate|exact D|exact W|].
  apply (IH (len (drop w (String c t)))); [|reflexivity].
  rewrite len_drop. lia.
Qed.

(** Decoding loses no byte. *)
Lemma bytes_of_runes (s : string) : utf8.bytes_of (utf8.runes s) = s.
Proof.
  induction s as [|s r w Hs D W IH] using runes_ind; [reflexivity|].
  destruct s as [|c t]; [contradiction|].
  rewrite runes_cons, D. unfold utf8.bytes_of in *. simpl.
  rewrite IH. apply take_drop.
Qed.

Lemma bytes_of_app (l1 l2 : list (Z * string)) :
  utf8.bytes_of (l1 ++ l2) = utf8.bytes_of l1 +:+ utf8.bytes_of l2.
Proof. unfold utf8.bytes_of. now rewrite map_app, concat_app. Qed.

(** Cutting a string between two of its runes leaves the runes before the
    cut as they were. *)
Lemma runes_prefix (pre post : list (Z * string)) (s : string) :
  utf8.runes s = pre ++ post -> utf8.runes (utf8.bytes_of pre) = pre.
Proof.
  revert s; induction pre as [|[r bs] pre IH]; intros s H; [reflexivity|].
  destruct s as [|c t]; [discriminate|].
  rewrite runes_cons in H.
  destruct (utf8.DecodeRuneInString (String c t)) as [r' w] eqn:D.
  assert (W : (1 <= w <= len (String c t))%nat)
    by (eapply DecodeRune_width; [discriminate|exact D]).
  simpl in H. injection H as -> <- Hrest.
  specialize (IH _ Hrest).
  assert (Hs : String c t =
               (take w (String c t) +:+ utf8.bytes_of pre) +:+ utf8.bytes_of post).
  { rewrite app_assoc_s, <- bytes_of_app, <- Hrest, bytes_of_runes.
    symmetry. apply take_drop. }
  assert (Hl : len (take w (String c t)) = w) by (apply len_take; lia).
  assert (Hne : take w (String c t) +:+ utf8.bytes_of pre <> "").
  { destruct w; [lia|]. simpl. discriminate. }
  rewrite Hs in D. apply DecodeRune_prefix in D; [|exact Hne|rewrite len_app; lia].
  change (utf8.bytes_of ((r, take w (String c t)) :: pre))
    with (take w (String c t) +:+ utf8.bytes_of pre).
  destruct (take w (String c t) +:+ utf8.bytes_of pre) as [|c' t'] eqn:Es;
    [contradiction|].
  rewrite runes_cons, D, <- Es.
  rewrite <- Hl at 1 3. rewrite take_app_len, drop_app_len, IH. reflexivity.
Qed.

(** Cutting a string between two of its runes leaves the runes after the cut
    as they were. *)
Lemma runes_suffix (pre post : list (Z * string)) (s : string) :
  utf8.runes s = pre ++ post -> utf8.runes (utf8.bytes_of post) = post.
Proof.
  revert s; induction pre as [|[r bs] pre IH]; intros s H.
  - simpl in H. now rewrite <- H, bytes_of_runes.
  - destruct s as [|c t]; [discriminate|].
    rewrite runes_cons in H.
    destruct (utf8.DecodeRuneInString (String c t)) as [r' w].
    simpl in H. injection H as _ _ Hrest. exact (IH _ Hrest).
Qed.

End Utf8Facts.

(** ** Trimming and upper-casing *)

Section TrimFacts.

Lemma drop_while_split {A} (f : A -> bool) (l : list A) :
  exists pre, l = pre ++ strings.drop_while f l /\ forallb f pre = true.
Proof.
  induction l as [|x l [pre [E F]]]; [now exists []|].
  simpl. destruct (f x) eqn:Fx.
  - exists (x :: pre). simpl. rewrite Fx, F. now rewrite <- E.
  - now exists [].
Qed.

(** Trimming on the right removes a run of matching elements at the end. *)
Lemma drop_while_rev_split {A} (f : A -> bool) (l : list A) :
  exists tail,
    l = rev (strings.drop_while f (rev l)) ++ tail /\ forallb f tail = true.
Proof.
  destruct (drop_while_split f (rev l)) as [pre [E F]].
  exists (rev pre). split.
  - rewrite <- rev_app_distr, <- E. symmetry. apply rev_involutive.
  - rewrite forallb_forall in *. intros x Hx. apply F. now apply in_rev.
Qed.

Lemma IsSpace_listed (r : Z) : unicode.IsSpace r = true -> In r space_runes.
Proof.
  unfold unicode.IsSpace, unicode.MaxLatin1, space_runes. intros H.
  destruct ((0 <=? r) && (r <=? 255)) eqn:E.
  - repeat (apply orb_true_iff in H; destruct H as [H|H]);
      apply Z.eqb_eq in H; subst r; simpl; tauto.
  - repeat (apply orb_true_iff in H; destruct H as [H|H]);
      try (apply Z.eqb_eq in H; subst r; simpl; tauto).
    apply andb_true_iff in H as [H1 H2].
    apply Z.leb_le in H1. apply Z.leb_le in H2. simpl. lia.
Qed.

Lemma space_runes_shape : Forall space_shape space_runes.
Proof. unfold space_runes. repeat constructor. Qed.

Section WithCaseTable.

Variable To : Z -> Z -> Z.

(** White space has no upper-case mapping in the case tables. *)
Hypothesis To_upper_space :
  forall r, unicode.IsSpace r = true -> To unicode.UpperCase r = r.

Lemma ToUpper_runes (s : string) :
  strings.ToUpper To s
  = concat (map (strings.map_rune (unicode.ToUpper To)) (utf8.runes s)).
Proof. reflexivity. Qed.

Lemma upper_bytes_space (p : Z * string) :
  strings.space_rune p = true ->
  exists c t,
    strings.map_rune (unicode.ToUpper To) p = String c t
    /\ occurs c "SELECT" = false.
Proof.
  destruct p as [r bs]. unfold strings.space_rune, strings.map_rune. simpl.
  intros Hsp.
  pose proof (IsSpace_listed r Hsp) as Hin.
  pose proof (proj1 (List.Forall_forall _ _) space_runes_shape) as Hall.
  destruct (Hall r Hin) as (Hpos & Hup & Henc).
  assert (Er : unicode.ToUpper To r = r).
  { unfold unicode.ToUpper.
    destruct (r <=? unicode.MaxASCII); [|now apply To_upper_space].
    now destruct ((97 <=? r) && (r <=? 122)). }
  rewrite Er, Hpos.
  destruct (utf8.EncodeRune r) as [|c t]; [contradiction|].
  now exists c, t.
Qed.

Lemma upper_bytes_spaces (l : list (Z * string)) :
  forallb strings.space_rune l = true ->
  forall c y,
    concat (map (strings.map_rune (unicode.ToUpper To)) l) = String c y ->
    occurs c "SELECT" = false.
Proof.
  destruct l as [|p l]; simpl; intros H c y E; [discriminate|].
  apply andb_true_iff in H as [Hp _].
  destruct (upper_bytes_space p Hp) as (c' & t & Ep & Hc).
  rewrite Ep, app_cons in E. now injection E as <- _.
Qed.

(** Trailing white space never decides whether the upper-cased text begins
    with ["SELECT"]. *)
Lemma HasPrefix_ToUpper_TrimRight (s : string) :
  HasPrefix (strings.ToUpper To (strings.TrimRightSpace s)) "SELECT"
  = HasPrefix (strings.ToUpper To s) "SELECT".
Proof.
  unfold strings.TrimRightSpace.
  destruct (drop_while_rev_split strings.space_rune (utf8.runes s))
    as [tail [E F]].
  set (keep := rev (strings.drop_while strings.space_rune (rev (utf8.runes s))))
    in *.
  clearbody keep.
  rewrite !ToUpper_runes, (runes_prefix keep tail s E), E, map_app, concat_app.
  symmetry. apply HasPrefix_app_foreign.
  intros c y. now apply upper_bytes_spaces.
Qed.

Lemma HasPrefix_ToUpper_TrimSpace (q : string) :
  HasPrefix (strings.ToUpper To (strings.TrimSpace q)) "SELECT"
  = HasPrefix (strings.ToUpper To (strings.TrimLeftSpace q)) "SELECT".
Proof. apply HasPrefix_ToUpper_TrimRight. Qed.

End WithCaseTable.

End TrimFacts.

(** ** ASCII text

    On text without a byte above 0x7F the calls of package [strings] are the
    plain comparisons on bytes, whatever the case tables. *)

Section PlainFacts.

Variable To : Z -> Z -> Z.

Lemma chr_byte (c : ascii) : chr (byte c) = c.
Proof.
  unfold chr, byte. pose proof (N_ascii_bounded c) as H.
  rewrite Z.mod_small by lia. rewrite N2Z.id. apply ascii_N_embedding.
Qed.

Lemma DecodeRune_ascii (c : ascii) (t : string) :
  byte c < 0x80 ->
  utf8.DecodeRuneInString (String c t) = (byte c, 1%nat).
Proof.
  intros H. unfold utf8.DecodeRuneInString, utf8.first.
  destruct (Z.ltb_spec (byte c) 128) as [_|Hge]; [reflexivity|lia].
Qed.

Lemma runes_ascii (c : ascii) (t : string) :
  byte c < 0x80 ->
  utf8.runes (String c t) = (byte c, String c EmptyString) :: utf8.runes t.
Proof.
  intros H. rewrite runes_cons, (DecodeRune_ascii c t H). reflexivity.
Qed.

Lemma all_ascii_cons (c : ascii) (t : string) :
  Plain.all_ascii (String c t) = true ->
  byte c < 0x80 /\ Plain.all_ascii t = true.
Proof.
  simpl. intros H. apply andb_true_iff in H as [H1 H2].
  apply Z.ltb_lt in H1. now split.
Qed.

(** A mapping that sends ASCII to ASCII acts byte by byte. *)
Lemma Map_ascii (f : Z -> Z) (g : ascii -> ascii) (s : string) :
  (forall c, byte c < 0x80 -> 0 <= f (byte c) <= 0x7F /\ chr (f (byte c)) = g c) ->
  Plain.all_ascii s = true ->
  strings.Map f s = Plain.map_bytes g s.
Proof.
  intros Hf. induction s as [|c t IH]; intros Ha; [reflexivity|].
  apply all_ascii_cons in Ha as [Hc Ht].
  unfold strings.Map in *. rewrite (runes_ascii c t Hc).
  cbn [map concat fold_right Plain.map_bytes]. fold (concat (map (strings.map_rune f) (utf8.runes t))).
  rewrite (IH Ht). unfold strings.map_rune. cbn [fst].
  destruct (Hf c Hc) as [[Hlo Hhi] Hg].
  destruct (Z.leb_spec 0 (f (byte c))) as [_|Hneg]; [|lia].
  unfold utf8.EncodeRune.
  destruct (Z.leb_spec (f (byte c)) 127) as [_|Hbig]; [|lia].
  now rewrite Hg.
Qed.

Lemma ToUpper_ascii (s : string) :
  Plain.all_ascii s = true ->
  strings.ToUpper To s = Plain.map_bytes Plain.upper s.
Proof.
  apply Map_ascii. intros c Hc. pose proof (byte_range c) as Hr.
  unfold unicode.ToUpper, unicode.MaxASCII, Plain.upper.
  destruct (Z.leb_spec (byte c) 127) as [_|Hbig]; [|lia].
  destruct ((97 <=? byte c) && (byte c <=? 122)) eqn:El.
  - apply andb_true_iff in El as [E1 E2].
    apply Z.leb_le in E1. apply Z.leb_le in E2.
    split; [lia|reflexivity].
  - split; [lia|apply chr_byte].
Qed.

Lemma ToLower_ascii (s : string) :
  Plain.all_ascii s = true ->
  strings.ToLower To s = Plain.map_bytes Plain.lower s.
Proof.
  apply Map_ascii. intros c Hc. pose proof (byte_range c) as Hr.
  unfold unicode.ToLower, unicode.MaxASCII, Plain.lower.
  destruct (Z.leb_spec (byte c) 127) as [_|Hbig]; [|lia].
  destruct ((65 <=? byte c) && (byte c <=? 90)) eqn:El.
  - apply andb_true_iff in El as [E1 E2].
    apply Z.leb_le in E1. apply Z.leb_le in E2.
    split; [lia|reflexivity].
  - split; [lia|apply chr_byte].
Qed.

Lemma IsSpace_ascii (c : ascii) :
  byte c < 0x80 -> unicode.IsSpace (byte c) = Plain.is_space c.
Proof.
  intros Hc. pose proof (byte_range c) as Hr.
  unfold unicode.IsSpace, unicode.MaxLatin1, Plain.is_space.
  destruct (Z.leb_spec 0 (byte c)) as [_|]; [|lia].
  destruct (Z.leb_spec (byte c) 255) as [_|]; [|lia].
  cbn [andb].
  destruct (Z.eqb_spec (byte c) 133) as [|_]; [lia|].
  destruct (Z.eqb_spec (byte c) 160) as [|_]; [lia|].
  now rewrite !orb_false_r.
Qed.

Lemma all_ascii_skip_spaces (s : string) :
  Plain.all_ascii s = true -> Plain.all_ascii (Plain.skip_spaces s) = true.
Proof.
  induction s as [|c t IH]; intros Ha; [reflexivity|].
  cbn [Plain.skip_spaces]. destruct (Plain.is_space c); [|exact Ha].
  apply IH. now apply all_ascii_cons in Ha as [_ ?].
Qed.

Lemma TrimLeftSpace_ascii (s : string) :
  Plain.all_ascii s = true -> strings.TrimLeftSpace s = Plain.skip_spaces s.
Proof.
  unfold strings.TrimLeftSpace.
  induction s as [|c t IH]; intros Ha; [reflexivity|].
  apply all_ascii_cons in Ha as [Hc Ht].
  rewrite (runes_ascii c t Hc). cbn [strings.drop_while Plain.skip_spaces].
  unfold strings.space_rune at 1. cbn [fst]. rewrite (IsSpace_ascii c Hc).
  destruct (Plain.is_space c); [exact (IH Ht)|].
  rewrite <- (runes_ascii c t Hc). apply bytes_of_runes.
Qed.

End PlainFacts.

(** ** Runes outside ASCII *)

Section NotAscii.

Lemma land_le_l (a b : Z) : 0 <= a -> Z.land a b <= a.
Proof.
  intros Ha. pose proof (Z.sub_land_same_l a b) as H.
  assert (0 <= Z.land a (Z.lnot b)) by (apply Z.land_nonneg; now left).
  lia.
Qed.

Lemma lor_ge_l (a b : Z) : 0 <= a -> 0 <= b -> a <= Z.lor a b.
Proof.
  intros Ha Hb. pose proof (Z.add_lor_land a b) as H.
  pose proof (land_le_l b a Hb) as H1. rewrite Z.land_comm in H1. lia.
Qed.

Lemma lor_ge_r (a b : Z) : 0 <= a -> 0 <= b -> b <= Z.lor a b.
Proof. intros. rewrite Z.lor_comm. now apply lor_ge_l. Qed.

Lemma lor_le_add (a b : Z) : 0 <= a -> 0 <= b -> Z.lor a b <= a + b.
Proof.
  intros Ha Hb. pose proof (Z.add_lor_land a b) as H.
  assert (0 <= Z.land a b) by (apply Z.land_nonneg; now left). lia.
Qed.

Lemma mask_mod (a k n : Z) : 0 <= n -> k = Z.ones n -> Z.land a k = a mod 2 ^ n.
Proof. intros Hn ->. now apply Z.land_ones. Qed.

(** The bounds of the pieces a rune is put together from. *)
Ltac bits :=
  repeat match goal with
         | |- context [Z.land ?a 0x3F] =>
           rewrite (mask_mod a 0x3F 6) by (reflexivity || lia)
         | |- context [Z.land ?a 0x1F] =>
           rewrite (mask_mod a 0x1F 5) by (reflexivity || lia)
         | |- context [Z.land ?a 0x0F] =>
           rewrite (mask_mod a 0x0F 4) by (reflexivity || lia)
         | |- context [Z.land ?a 0x07] =>
           rewrite (mask_mod a 0x07 3) by (reflexivity || lia)
         | |- context [Z.shiftl ?a ?n] => rewrite (Z.shiftl_mul_pow2 a n) by lia
         end.

Ltac nonneg :=
  repeat first
    [ apply Z.lor_nonneg; split
    | apply Z.shiftl_nonneg
    | apply Z.land_nonneg; right; lia ].

Ltac piece :=
  bits;
  change (2 ^ 3) with 8; change (2 ^ 4) with 16; change (2 ^ 5) with 32;
  change (2 ^ 6) with 64; change (2 ^ 12) with 4096;
  change (2 ^ 18) with 262144;
  Z.div_mod_to_equations; lia.

(** A rune that does not start with an ASCII byte is not an ASCII rune:
    the decoder accepts no overlong encoding. *)
Lemma DecodeRune_not_ascii (c : ascii) (t : string) (r : Z) (w : nat) :
  0x80 <= byte c ->
  utf8.DecodeRuneInString (String c t) = (r, w) ->
  0x80 <= r.
Proof.
  intros Hc H. unfold utf8.DecodeRuneInString in H. cbv zeta in H.
  pose proof (byte_range c) as Hr.
  destruct (first_cases (byte c))
    as [E|[E|[[E R]|[[E R]|[[E R]|[[E R]|[[E R]|[[E R]|[E R]]]]]]]]];
    try (exfalso; unfold utf8.first in E; split_ifs; to_props;
         unfold utf8.as_, utf8.xx, utf8.s1, utf8.s2, utf8.s3, utf8.s4, utf8.s5,
           utf8.s6, utf8.s7 in E; lia);
    eval_first E; cbv iota beta in H.
  all: unfold utf8.locb, utf8.hicb, utf8.RuneError in *.
  all: split_ifs; injection H as <- <-; try lia.
  all: to_props.
  all: repeat match goal with
              | |- context [at_ ?i ?s] => generalize dependent (at_ i s); intros
              end.
  all: first
         [ eapply Z.le_trans; [|apply lor_ge_l; nonneg]; piece
         | eapply Z.le_trans;
           [|apply lor_ge_l; nonneg];
           first [ eapply Z.le_trans; [|apply lor_ge_l; nonneg]; piece
                 | eapply Z.le_trans; [|apply lor_ge_r; nonneg]; piece
                 | eapply Z.le_trans;
                   [|apply lor_ge_l; nonneg];
                   first [ eapply Z.le_trans; [|apply lor_ge_l; nonneg]; piece
                         | eapply Z.le_trans; [|apply lor_ge_r; nonneg]; piece ] ] ].
Qed.

Lemma byte_chr (z : Z) : byte (chr z) = z mod 256.
Proof.
  unfold byte, chr.
  assert (H : 0 <= z mod 256 < 256) by (apply Z.mod_pos_bound; lia).
  rewrite N_ascii_embedding by lia. lia.
Qed.

(** The encoding of a rune that is not ASCII starts with a byte that is not
    ASCII. *)
Lemma EncodeRune_not_ascii (r : Z) :
  0x80 <= r ->
  exists c t, utf8.EncodeRune r = String c t /\ 0x80 <= byte c.
Proof.
  intros Hr. unfold utf8.EncodeRune, utf8.MaxRune, utf8.RuneError.
  split_ifs; to_props; try lia; eexists; eexists; (split; [reflexivity|]);
    rewrite byte_chr; try (vm_compute; discriminate).
  all: match goal with
       | |- _ <= Z.lor ?a ?b mod 256 =>
         assert (Hb : 0 <= b) by (apply Z.shiftr_nonneg; lia);
         assert (Ha : 0 <= a) by lia;
         pose proof (lor_ge_l a b Ha Hb);
         pose proof (lor_le_add a b Ha Hb);
         assert (a + b <= 255)
           by (rewrite Z.shiftr_div_pow2 by lia;
               change (2 ^ 6) with 64; change (2 ^ 12) with 4096;
               change (2 ^ 18) with 262144;
               Z.div_mod_to_equations; lia);
         rewrite Z.mod_small by lia; lia
       end.
Qed.

Lemma occurs_ascii (c : ascii) (W : string) :
  Plain.all_ascii W = true -> occurs c W = true -> byte c < 0x80.
Proof.
  induction W as [|k W IH]; simpl; intros Ha Ho; [discriminate|].
  apply andb_true_iff in Ha as [Hk Ha]. apply Z.ltb_lt in Hk.
  apply orb_true_iff in Ho as [Ho|Ho]; [|now apply IH].
  apply Ascii.eqb_eq in Ho. now subst.
Qed.

(** When no rune outside ASCII is mapped to a byte of [W], a text whose
    image is a word over [W] is ASCII. *)
Lemma Map_word_ascii (f : Z -> Z) (W : string) (s : string) :
  (forall c, byte c < 0x80 -> 0 <= f (byte c) <= 0x7F) ->
  (forall r, 0x80 <= r ->
             0 <= f r /\ (f r <= 0x7F -> occurs (chr (f r)) W = false)) ->
  Plain.all_ascii W = true ->
  forall word,
    (forall c, occurs c word = true -> occurs c W = true) ->
    strings.Map f s = word -> Plain.all_ascii s = true.
Proof.
  intros Hlow Hhigh HW. induction s as [|c t IH]; intros word Hsub Hm;
    [reflexivity|].
  destruct (Z.ltb_spec (byte c) 0x80) as [Hc|Hc].
  - unfold strings.Map in Hm. rewrite (runes_ascii c t Hc) in Hm.
    cbn [map concat fold_right] in Hm. unfold strings.map_rune at 1 in Hm.
    cbn [fst] in Hm. destruct (Hlow c Hc) as [H0 H1].
    destruct (Z.leb_spec 0 (f (byte c))) as [_|]; [|lia].
    unfold utf8.EncodeRune in Hm.
    destruct (Z.leb_spec (f (byte c)) 127) as [_|]; [|lia].
    rewrite app_cons, app_empty_l in Hm.
    destruct word as [|k word]; [discriminate|]. injection Hm as _ Hm.
    cbn [Plain.all_ascii]. apply andb_true_iff. split; [now apply Z.ltb_lt|].
    apply (IH word); [|exact Hm].
    intros c' Hc'. apply Hsub. simpl. rewrite Hc'. apply orb_true_r.
  - exfalso. unfold strings.Map in Hm. rewrite runes_cons in Hm.
    destruct (utf8.DecodeRuneInString (String c t)) as [r w] eqn:D.
    pose proof (DecodeRune_not_ascii c t r w Hc D) as Hr.
    cbn [map concat fold_right] in Hm. unfold strings.map_rune at 1 in Hm.
    cbn [fst] in Hm. destruct (Hhigh r Hr) as [H0 Hno].
    destruct (Z.leb_spec 0 (f r)) as [_|]; [|lia].
    assert (Hhead : exists c' t', utf8.EncodeRune (f r) = String c' t'
                                  /\ occurs c' W = false).
    { destruct (Z.le_gt_cases (f r) 0x7F) as [Hs|Hb].
      - exists (chr (f r)), EmptyString. split; [|now apply Hno].
        unfold utf8.EncodeRune.
        now destruct (Z.leb_spec (f r) 127) as [_|]; [|lia].
      - destruct (EncodeRune_not_ascii (f r) ltac:(lia)) as (c' & t' & He & Hb').
        exists c', t'. split; [exact He|].
        destruct (occurs c' W) eqn:Ho; [|reflexivity].
        pose proof (occurs_ascii c' W HW Ho). lia. }
    destruct Hhead as (c' & t' & He & Ho). rewrite He, app_cons in Hm.
    destruct word as [|k word]; [discriminate|]. injection Hm as <- _.
    rewrite (Hsub c') in Ho; [discriminate|].
    simpl. now rewrite Ascii.eqb_refl.
Qed.

Lemma lower_ascii_inv (c : ascii) :
  byte (Plain.lower c) < 0x80 -> byte c < 0x80.
Proof.
  unfold Plain.lower. destruct ((65 <=? byte c) && (byte c <=? 90)) eqn:El;
    [|trivial].
  apply andb_true_iff in El as [_ E2]. apply Z.leb_le in E2. lia.
Qed.

Lemma map_lower_ascii (s word : string) :
  Plain.all_ascii word = true ->
  Plain.map_bytes Plain.lower s = word -> Plain.all_ascii s = true.
Proof.
  revert word; induction s as [|c t IH]; intros word Hw Hm; [reflexivity|].
  destruct word as [|k word]; [discriminate|].
  cbn [Plain.map_bytes] in Hm. injection Hm as Hk Hm.
  apply all_ascii_cons in Hw as [Hk' Hw].
  cbn [Plain.all_ascii]. apply andb_true_iff. split.
  - apply Z.ltb_lt, lower_ascii_inv. now rewrite Hk.
  - now apply (IH word).
Qed.

Section LowerCaseTable.

Variable To : Z -> Z -> Z.

(** No rune outside ASCII has t, r, u or e as its lower case, and none has a
    negative one. *)
Hypothesis To_lower_true :
  forall r, 0x80 <= r ->
            0 <= To unicode.LowerCase r
            /\ ~ In (To unicode.LowerCase r) [0x74; 0x72; 0x75; 0x65].

(** In lower case the text is [true] exactly when it is that word byte by
    byte, without regard to case. *)
Lemma ToLower_true (s : string) :
  strings.ToLower To s = "true" <-> Plain.is_word "true" s = true.
Proof.
  unfold Plain.is_word. rewrite String.eqb_eq. split.
  - intros H. rewrite <- (ToLower_ascii To); [exact H|].
    apply (Map_word_ascii (unicode.ToLower To) "true" s) with (word := "true");
      [| |reflexivity|auto|exact H].
    + intros c Hc. pose proof (byte_range c).
      unfold unicode.ToLower, unicode.MaxASCII.
      destruct (Z.leb_spec (byte c) 127); [|lia].
      destruct ((65 <=? byte c) && (byte c <=? 90)) eqn:El; [|lia].
      apply andb_true_iff in El as [E1 E2].
      apply Z.leb_le in E1. apply Z.leb_le in E2. lia.
    + intros r Hr. unfold unicode.ToLower, unicode.MaxASCII.
      destruct (Z.leb_spec r 127); [lia|].
      destruct (To_lower_true r Hr) as [Hpos Hno]. split; [exact Hpos|].
      intros Hsmall.
      destruct (occurs (chr (To unicode.LowerCase r)) "true") eqn:Ho;
        [|reflexivity].
      exfalso. apply Hno.
      pose proof (byte_chr (To unicode.LowerCase r)) as Hb.
      rewrite Z.mod_small in Hb by lia.
      cbn [occurs] in Ho. rewrite !orb_true_iff, !Ascii.eqb_eq in Ho.
      destruct Ho as [Ho|[Ho|[Ho|[Ho|Ho]]]]; [..|discriminate];
        rewrite Ho in Hb; rewrite <- Hb; vm_compute; tauto.
  - intros H. rewrite ToLower_ascii; [exact H|].
    now apply (map_lower_ascii s "true").
Qed.

End LowerCaseTable.

End NotAscii.
(** ** The first word of a statement *)

Section KeywordFacts.

Variable To : Z -> Z -> Z.

Lemma no_blank_cons (c : ascii) (t : string) :
  no_blank (String c t) = true ->
  byte c < 0x80 /\ Plain.is_space c = false /\ no_blank t = true.
Proof.
  simpl. intros H. apply andb_true_iff in H as [H H3].
  apply andb_true_iff in H as [H1 H2].
  apply Z.ltb_lt in H1. apply negb_true_iff in H2. now repeat split.
Qed.

Lemma no_blank_ascii (s : string) :
  no_blank s = true -> Plain.all_ascii s = true.
Proof.
  induction s as [|c t IH]; [reflexivity|]. intros H.
  apply no_blank_cons in H as (H1 & _ & H3). simpl.
  rewrite (IH H3). now apply Z.ltb_lt in H1 as ->.
Qed.

(** The runes of a text that begins with ASCII bytes. *)
Lemma runes_app_ascii (p rest : string) :
  Plain.all_ascii p = true ->
  utf8.runes (p +:+ rest) = utf8.runes p ++ utf8.runes rest.
Proof.
  induction p as [|c t IH]; intros Ha; [reflexivity|].
  apply all_ascii_cons in Ha as [Hc Ht].
  rewrite app_cons, !(runes_ascii _ _ Hc), (IH Ht). reflexivity.
Qed.

Lemma runes_no_blank (s : string) :
  no_blank s = true ->
  forallb (fun p => negb (strings.space_rune p)) (utf8.runes s) = true.
Proof.
  induction s as [|c t IH]; [reflexivity|]. intros H.
  apply no_blank_cons in H as (H1 & H2 & H3).
  rewrite (runes_ascii _ _ H1). cbn [forallb]. rewrite (IH H3), andb_true_r.
  unfold strings.space_rune. cbn [fst]. now rewrite (IsSpace_ascii c H1), H2.
Qed.

(** Trimming stops at an element that does not match. *)
Lemma drop_while_stop {A} (f : A -> bool) (x : A) (l : list A) :
  f x = false -> strings.drop_while f (x :: l) = x :: l.
Proof. intros H. simpl. now rewrite H. Qed.

Lemma drop_while_app_stop {A} (f : A -> bool) (l1 : list A) (x : A)
  (l2 : list A) :
  f x = false ->
  strings.drop_while f (l1 ++ x :: l2) = strings.drop_while f l1 ++ x :: l2.
Proof.
  intros H. induction l1 as [|a l1 IH]; simpl.
  - now rewrite H.
  - destruct (f a); [exact IH|reflexivity].
Qed.

(** White space is trimmed around a text, not inside its first word. *)
Lemma TrimSpace_keeps_word (k rest : string) :
  k <> EmptyString -> no_blank k = true ->
  exists z, strings.TrimSpace (k +:+ rest) = k +:+ z.
Proof.
  intros Hne Hk.
  pose proof (runes_no_blank k Hk) as Hall.
  pose proof (no_blank_ascii k Hk) as Ha.
  assert (Hleft : strings.TrimLeftSpace (k +:+ rest) = k +:+ rest).
  { unfold strings.TrimLeftSpace. rewrite (runes_app_ascii k rest Ha).
    destruct (utf8.runes k) as [|x l] eqn:Er.
    - destruct k as [|c t]; [contradiction|].
      apply no_blank_cons in Hk as (H1 & _). rewrite (runes_ascii _ _ H1) in Er.
      discriminate.
    - cbn [forallb] in Hall. apply andb_true_iff in Hall as [Hx _].
      apply negb_true_iff in Hx.
      change ((x :: l) ++ utf8.runes rest) with (x :: (l ++ utf8.runes rest)).
      rewrite (drop_while_stop _ x _ Hx).
      change (x :: (l ++ utf8.runes rest)) with ((x :: l) ++ utf8.runes rest).
      rewrite <- Er, <- (runes_app_ascii k rest Ha). apply bytes_of_runes. }
  unfold strings.TrimSpace. rewrite Hleft. unfold strings.TrimRightSpace.
  rewrite (runes_app_ascii k rest Ha), rev_app_distr.
  destruct (rev (utf8.runes k)) as [|x l] eqn:Er.
  - apply (f_equal (@rev _)) in Er. rewrite rev_involutive in Er. simpl in Er.
    destruct k as [|c t]; [contradiction|].
    apply no_blank_cons in Hk as (H1 & _). rewrite (runes_ascii _ _ H1) in Er.
    discriminate.
  - assert (Hx : strings.space_rune x = false).
    { rewrite forallb_forall in Hall. apply negb_true_iff, Hall.
      apply in_rev. rewrite Er. now left. }
    rewrite (drop_while_app_stop _ _ x l Hx), rev_app_distr, <- Er,
      rev_involutive, bytes_of_app, bytes_of_runes.
    eexists. reflexivity.
Qed.

(** Upper case acts on an ASCII beginning byte by byte. *)
Lemma ToUpper_app_ascii (p rest : string) :
  Plain.all_ascii p = true ->
  strings.ToUpper To (p +:+ rest)
  = Plain.map_bytes Plain.upper p +:+ strings.ToUpper To rest.
Proof.
  intros Ha. rewrite <- (ToUpper_ascii To p Ha).
  unfold strings.ToUpper, strings.Map.
  now rewrite (runes_app_ascii p rest Ha), map_app, concat_app.
Qed.

Lemma len_map_bytes (f : ascii -> ascii) (s : string) :
  len (Plain.map_bytes f s) = len s.
Proof. induction s as [|c t IH]; [reflexivity|]. unfold len in *. simpl. now rewrite IH. Qed.

(** A text as long as the prefix has it exactly when it is the prefix. *)
Lemma HasPrefix_app_exact (u y p : string) :
  len u = len p -> HasPrefix (u +:+ y) p = String.eqb u p.
Proof.
  revert u; induction p as [|a p IH]; intros [|c u] Hl; try discriminate Hl.
  - reflexivity.
  - rewrite app_cons. simpl. rewrite (IH u) by (unfold len in *; simpl in Hl; lia).
    reflexivity.
Qed.

(** The test of [ExecuteQuery] on a statement whose first six bytes are ASCII
    without white space looks at these bytes only. *)
Lemma isSelect_word (k rest : string) :
  len k = 6%nat -> no_blank k = true ->
  isSelect To (k +:+ rest) = String.eqb (Plain.map_bytes Plain.upper k) "SELECT".
Proof.
  intros Hl Hk. unfold isSelect.
  assert (Hne : k <> EmptyString) by (intros ->; discriminate Hl).
  destruct (TrimSpace_keeps_word k rest Hne Hk) as [z ->].
  rewrite (ToUpper_app_ascii k z (no_blank_ascii k Hk)).
  apply HasPrefix_app_exact. now rewrite len_map_bytes.
Qed.

End KeywordFacts.


Example runes_ex1 :
  utf8.runes ("a" +:+ String (chr 0xC5) (String (chr 0xBF) "b"))
  = [(0x61, "a"); (0x17F, String (chr 0xC5) (String (chr 0xBF) ""));
     (0x62, "b")].
Proof. vm_compute. reflexivity. Qed.

Example trim_ex1 : strings.TrimSpace "  select 1  " = "select 1".
Proof. vm_compute. reflexivity. Qed.

Example upper_ex1 : strings.ToUpper Demo.no_case "  select 1  " = "  SELECT 1  ".
Proof. vm_compute. reflexivity. Qed.


Example md5_empty :
  hex.EncodeToString (md5.Sum "") = "d41d8cd98f00b204e9800998ecf8427e".
Proof. vm_compute. reflexivity. Qed.

Example md5_abc :
  hex.EncodeToString (md5.Sum "abc") = "900150983cd24fb0d6963f7d28e17f72".
Proof. vm_compute. reflexivity. Qed.

Example md5_two_blocks :
  hex.EncodeToString
    (md5.Sum "xxxxxxxxxxxxxxxxxxxxxxxxxxxxxxxxxxxxxxxxxxxxxxxxxxxxxxxxxxxxxxxx")
  = "c1bb4f81d892b2d57947682aeb252456".
Proof. vm_compute. reflexivity. Qed.

Example md5_56 :
  hex.EncodeToString
    (md5.Sum "xxxxxxxxxxxxxxxxxxxxxxxxxxxxxxxxxxxxxxxxxxxxxxxxxxxxxxxx")
  = "668a72d5ba17f08e62dabcafad6db14b".
Proof. vm_compute. reflexivity. Qed.

Example Sprintf_ex : fmt.Sprintf "a %s b %v" ["x"; "y"] = "a x b y".
Proof. vm_compute. reflexivity. Qed.

Example embedded_tables :
  SchemaFormat.created_tables embedded = ["users"; "products"; "orders"].
Proof. vm_compute. reflexivity. Qed.

Example NewDatabase_defaults :
  NewDatabase Demo.engine Demo.no_case "localhost" "user" "pass" 5432
    (Demo.world [] [])
  = (Ret (Demo.db, None),
     mkWorld (w_env (Demo.world [] [])) (w_files (Demo.world [] []))
       ["users"; "products"; "orders"]
       [Opened "sqlite" "file::memory:?cache=shared"; Pinged;
        FileRead "pkg/database/schema.sql"; Executed embedded]).
Proof. vm_compute. reflexivity. Qed.

(** The classification of statements. *)
Example isSelect_examples :
  map (isSelect Demo.no_case)
      ["SELECT 1"; "  select * from users"; "SeLeCt"; "SELECTED"; "selec";
       "INSERT INTO t VALUES (1)"; ""; "  "; "; SELECT 1";
       String (chr 0xC2) (String (chr 0xA0) "select 1")]
  = [true; true; true; true; false; false; false; false; false; true].
Proof. vm_compute. reflexivity. Qed.

(** An injected user name reaches the engine as it is. *)
Example CreateUser_injection :
  w_trace (snd (CreateUser Demo.engine Demo.db "x', 'y', 'z'); --" "e" "p"
                  Demo.ready))
  = w_trace Demo.ready ++
    [Printed "Executing query: INSERT INTO users (username, email, password) VALUES ('x', 'y', 'z'); --', 'e', 'p')
";
     Executed "INSERT INTO users (username, email, password) VALUES ('x', 'y', 'z'); --', 'e', 'p')"].
Proof. vm_compute. reflexivity. Qed.

(** The schema file is used when it can be read. *)
Example NewDatabase_schema_file :
  let w :=
    Demo.world [("DB_SCHEMA_FILE", "custom.sql"); ("DB_AUTO_SEED", "0")]
      [("custom.sql",
        "CREATE TABLE IF NOT EXISTS custom_table (id INTEGER PRIMARY KEY);")] in
  fst (NewDatabase Demo.engine Demo.no_case "" "" "" 0 w) = Ret (Demo.db, None)
  /\ w_store (snd (NewDatabase Demo.engine Demo.no_case "" "" "" 0 w))
     = ["custom_table"].
Proof. vm_compute. split; reflexivity. Qed.

(** A schema that the engine rejects is fatal. *)
Example NewDatabase_bad_schema :
  let w := Demo.world [("DB_SCHEMA_FILE", "bad.sql")] [("bad.sql", "CREATE TABLE")] in
  NewDatabase Demo.engine Demo.no_case "" "" "" 0 w
  = (Ret (None, Some (Err "SQL logic error: syntax error")),
     after w [Opened "sqlite" "file::memory:?cache=shared"; Pinged;
              FileRead "bad.sql"; Executed "CREATE TABLE"; ConnClosed] []).
Proof. vm_compute. reflexivity. Qed.

(** Seeding: off for 0, on for TRUE, and then fatal when the seed fails. *)
Example AutoSeedFromEnv_off :
  AutoSeedFromEnv Demo.engine Demo.no_case Demo.db
    (Demo.world [("DB_AUTO_SEED", "0")] [])
  = (Ret None, Demo.world [("DB_AUTO_SEED", "0")] []).
Proof. vm_compute. reflexivity. Qed.

Example NewDatabase_seed_rejected :
  let w :=
    Demo.world [("DB_AUTO_SEED", "TRUE"); ("DB_SEED_FILE", "seed.sql")]
      [("seed.sql", "INSERT INTO users (username) VALUES ('a');")] in
  NewDatabase Demo.engine Demo.no_case "" "" "" 0 w
  = (Ret (None, Some (Err "SQL logic error: syntax error")),
     after w [Opened "sqlite" "file::memory:?cache=shared"; Pinged;
              FileRead "pkg/database/schema.sql"; Executed embedded;
              FileRead "seed.sql";
              Executed "INSERT INTO users (username) VALUES ('a');"; ConnClosed]
       ["users"; "products"; "orders"]).
Proof. vm_compute. reflexivity. Qed.

(** A query on a nil connection panics, after the line is printed. *)
Example ExecuteQuery_nil_conn :
  ExecuteQuery Demo.engine Demo.no_case (Some (mkDatabase None)) "SELECT 1"
    (Demo.world [] [])
  = (Panic, after (Demo.world [] []) [Printed "Executing query: SELECT 1
"] []).
Proof. vm_compute. reflexivity. Qed.

(** ** The adapter and its specification *)

Section Properties.

Context {Store Conn : Type}.
Variable E : Engine Store Conn.
Variable To : Z -> Z -> Z.

Implicit Types (w : World Store) (c : Conn) (db : option (Database Conn)).

(** *** The primitive calls, run *)

Lemma after_after w (e1 e2 : list Event) (s1 s2 : Store) :
  after (after w e1 s1) e2 s2 = after w (e1 ++ e2) s2.
Proof. unfold after. simpl. now rewrite <- app_assoc. Qed.

Lemma after_nil w : after w [] (w_store w) = w.
Proof. destruct w. unfold after. simpl. now rewrite app_nil_r. Qed.

Lemma bind_run {A B} (m : M A) (k : A -> M B) w :
  bind m k w =
  match m w with
  | (Ret a, w') => k a w'
  | (Panic, w') => (Panic, w')
  end.
Proof. reflexivity. Qed.

Lemma ret_run {A} (a : A) w : ret a w = (Ret a, w).
Proof. reflexivity. Qed.

Lemma Getenv_run (key : string) w :
  Getenv key w = (Ret (default "" (w_env w key)), w).
Proof. reflexivity. Qed.

Lemma Printf_run (format : string) (a : list string) w :
  Printf format a w
  = (Ret tt, after w [Printed (fmt.Sprintf format a)] (w_store w)).
Proof. reflexivity. Qed.

Lemma ReadFile_run (path : string) w :
  ReadFile path w = (Ret (w_files w path), after w [FileRead path] (w_store w)).
Proof. reflexivity. Qed.

Lemma Exec_run c (query : string) w :
  Exec E c query w
  = (Ret (snd (db_Exec E c query (w_store w))),
     after w [Executed query] (fst (db_Exec E c query (w_store w)))).
Proof.
  unfold Exec, bind, emit, on_store, after. simpl.
  now destruct (db_Exec E c query (w_store w)).
Qed.

Lemma Query_run c (query : string) w :
  Query E c query w
  = (Ret (snd (db_Query E c query (w_store w))),
     after w [Queried query] (fst (db_Query E c query (w_store w)))).
Proof.
  unfold Query, bind, emit, on_store, after. simpl.
  now destruct (db_Query E c query (w_store w)).
Qed.

Lemma Open_run (driver dsn : string) w :
  Open E driver dsn w
  = (Ret (snd (sql_Open E driver dsn (w_store w))),
     after w [Opened driver dsn] (fst (sql_Open E driver dsn (w_store w)))).
Proof.
  unfold Open, bind, emit, on_store, after. simpl.
  now destruct (sql_Open E driver dsn (w_store w)).
Qed.

Lemma Ping_run c w :
  Ping E c w
  = (Ret (snd (db_Ping E c (w_store w))),
     after w [Pinged] (fst (db_Ping E c (w_store w)))).
Proof.
  unfold Ping, bind, emit, on_store, after. simpl.
  now destruct (db_Ping E c (w_store w)).
Qed.

Lemma conn_Close_run c w :
  conn_Close E c w
  = (Ret (snd (db_Close E c (w_store w))),
     after w [ConnClosed] (fst (db_Close E c (w_store w)))).
Proof.
  unfold conn_Close, bind, emit, on_store, after. simpl.
  now destruct (db_Close E c (w_store w)).
Qed.

(** Run the calls of a body one after the other. *)
Lemma w_store_after w (evs : list Event) (st : Store) :
  w_store (after w evs st) = st.
Proof. reflexivity. Qed.

Lemma w_env_after w (evs : list Event) (st : Store) :
  w_env (after w evs st) = w_env w.
Proof. reflexivity. Qed.

Lemma w_files_after w (evs : list Event) (st : Store) :
  w_files (after w evs st) = w_files w.
Proof. reflexivity. Qed.

Lemma schema_path_after w (evs : list Event) (st : Store) :
  Config.schema_path (after w evs st) = Config.schema_path w.
Proof. reflexivity. Qed.

Lemma schema_text_after (fallback : string) w (evs : list Event) (st : Store) :
  Config.schema_text fallback (after w evs st) = Config.schema_text fallback w.
Proof. reflexivity. Qed.

Lemma seed_path_after w (evs : list Event) (st : Store) :
  Config.seed_path (after w evs st) = Config.seed_path w.
Proof. reflexivity. Qed.

(** Run the calls of a body one after the other. *)
Ltac run :=
  repeat first
    [ rewrite bind_run | rewrite Printf_run | rewrite Getenv_run
    | rewrite ReadFile_run | rewrite Exec_run | rewrite Query_run
    | rewrite Open_run | rewrite Ping_run | rewrite conn_Close_run
    | rewrite ret_run | rewrite after_after | rewrite w_store_after
    | rewrite w_env_after | rewrite w_files_after
    | rewrite schema_path_after | rewrite schema_text_after
    | rewrite seed_path_after
    | progress cbn [the_conn conn fst snd app negb] ].

(** C9. [Close] and [SeedFromFile] are nil-safe no-ops: on a nil
    [*Database], and on a [Database] whose connection is nil, each returns a
    nil error and leaves the world as it was: no file is read, the store is
    not touched. *)
Theorem C9_nil_safe (w : World Store) (path : string) :
  Close E None w = (Ret None, w) /\
  Close E (Some (mkDatabase None)) w = (Ret None, w) /\
  SeedFromFile E None path w = (Ret None, w) /\
  SeedFromFile E (Some (mkDatabase None)) path w = (Ret None, w).
Proof. repeat split. Qed.

(** C10. The constructor does not depend on its host, user, password and
    port parameters: two calls that differ in them only, run in the same
    world, return the same result and leave the same world. *)
Theorem C10_parameters_ignored
  (host user password host' user' password' : string) (port port' : Z)
  (w : World Store) :
  NewDatabase E To host user password port w
  = NewDatabase E To host' user' password' port' w.
Proof. reflexivity. Qed.

(** C6. The accessors put the caller's strings into the SQL text as they
    are.  [CreateUser] prints and executes exactly the INSERT with the three
    strings between the quotes, and returns the error of that execution;
    [GetUserByUsername] prints and queries exactly the SELECT that ends with
    the user name between quotes.  Nothing else reaches the engine. *)
Theorem C6_verbatim_sql (c : Conn) (username email password : string)
  (w : World Store) :
  let db := Some (mkDatabase (Some c)) in
  let insert :=
    "INSERT INTO users (username, email, password) VALUES ('" +:+ username
    +:+ "', '" +:+ email +:+ "', '" +:+ password +:+ "')" in
  let select :=
    "SELECT id, username, email, password FROM users WHERE username = '"
    +:+ username +:+ "'" in
  CreateUser E db username email password w
  = (Ret (snd (db_Exec E c insert (w_store w))),
     after w [Printed ("Executing query: " +:+ insert +:+ String (chr 10) "");
              Executed insert]
       (fst (db_Exec E c insert (w_store w))))
  /\ exists r,
    GetUserByUsername E db username w
    = (Ret r,
       after w [Printed ("Executing query: " +:+ select +:+ String (chr 10) "");
                Queried select]
         (fst (db_Query E c select (w_store w)))).
Proof.
  intros db insert select.
  assert (Ei : fmt.Sprintf
                 "INSERT INTO users (username, email, password) VALUES ('%s', '%s', '%s')"
                 [username; email; password] = insert) by reflexivity.
  assert (Ep : forall q, fmt.Sprintf "Executing query: %s
" [q] = "Executing query: " +:+ q +:+ String (chr 10) "") by reflexivity.
  split.
  - unfold CreateUser. rewrite Ei. subst db. run. now rewrite Ep.
  - unfold GetUserByUsername. fold select. subst db. run. rewrite Ep.
    destruct (scanUser E (snd (db_Query E c select (w_store w))))
      as [err|[[[id uname] em] pw]];
      [destruct (decide (err = ErrNoRows))|]; eexists; reflexivity.
Qed.

(** *** The query executor *)

Lemma Sprintf_query (q : string) :
  fmt.Sprintf "Executing query: %s
" [q] = "Executing query: " +:+ q +:+ String (chr 10) "".
Proof. reflexivity. Qed.

Lemma scanRows_ok (cols : list string) (data : list (list Value))
  (acc : list RowMap) :
  scanRows cols (map inr data) acc = inr (acc ++ rowMaps cols data).
Proof.
  revert acc; induction data as [|d data IH]; intros acc; simpl.
  - now rewrite app_nil_r.
  - rewrite IH, <- app_assoc. reflexivity.
Qed.

(** When neither [Columns], nor a [Scan], nor [Err] fails, every row of the
    engine is in the result, in order. *)
Lemma collectRows_ok (rows : Rows) (cols : list string)
  (data : list (list Value)) :
  rows_columns rows = inr cols ->
  rows_data rows = map inr data ->
  rows_err rows = None ->
  collectRows rows = (Some (rowMaps cols data), None).
Proof.
  intros Hc Hd He. unfold collectRows.
  now rewrite Hc, Hd, scanRows_ok, He.
Qed.

(** A column that is not assigned keeps what the map had. *)
Lemma fillRow_other (cols : list string) (i : nat) (d : list Value)
  (m : RowMap) (col : string) :
  col ∉ cols -> fillRow i cols d m !! col = m !! col.
Proof.
  revert i m; induction cols as [|x cols IH]; intros i m Hn; [reflexivity|].
  simpl. rewrite IH by (intros H; apply Hn; now right).
  apply lookup_insert_ne. intros ->. apply Hn. now left.
Qed.

(** A column holds the value at its last position. *)
Lemma fillRow_last (cols : list string) (i : nat) (d : list Value)
  (m : RowMap) (j : nat) (col : string) :
  cols !! j = Some col ->
  (forall j', (j < j')%nat -> cols !! j' <> Some col) ->
  fillRow i cols d m !! col = Some (nth (i + j) d VNil).
Proof.
  revert i m j; induction cols as [|x cols IH]; intros i m j Hj Hlast;
    [discriminate|].
  destruct j as [|j]; simpl in *.
  - injection Hj as ->. rewrite fillRow_other.
    + rewrite lookup_insert_eq. now rewrite Nat.add_0_r.
    + intros Hin. apply list_elem_of_lookup in Hin as [k Hk].
      apply (Hlast (S k)); [lia|exact Hk].
  - rewrite (IH (S i) _ j Hj).
    + f_equal. f_equal. lia.
    + intros j' Hlt. apply (Hlast (S j')). lia.
Qed.

Lemma fillRow_dom (cols : list string) (i : nat) (d : list Value)
  (m : RowMap) (col : string) :
  is_Some (fillRow i cols d m !! col) <-> col ∈ cols \/ is_Some (m !! col).
Proof.
  revert i m; induction cols as [|x cols IH]; intros i m; simpl.
  - split; [now right|]. intros [H|H]; [inversion H|exact H].
  - rewrite IH, lookup_insert_is_Some, elem_of_cons.
    destruct (decide (x = col)) as [->|Hne]; intuition congruence.
Qed.

(** C1. [ExecuteQuery] takes a statement for a read exactly when the
    statement, without its leading white space and in upper case, begins
    with SELECT; on ASCII text that is the comparison byte by byte, without
    regard to case, after the leading blanks.  A read is printed and goes to
    the query path, which returns the error of the query or the rows
    collected from it, every row of the engine when nothing fails; any other
    statement is printed and goes to the execute path, and the result is the
    nil slice with the error of the execution, nil or not. *)
Theorem C1_ExecuteQuery_dispatch (HTo : CaseTables.upper_space To)
  (c : Conn) (q : string) (w : World Store) :
  let db := Some (mkDatabase (Some c)) in
  let line := Printed ("Executing query: " +:+ q +:+ String (chr 10) "") in
  (isSelect To q
   = HasPrefix (strings.ToUpper To (strings.TrimLeftSpace q)) "SELECT") /\
  (Plain.all_ascii q = true -> isSelect To q = Plain.begins_with "SELECT" q) /\
  (isSelect To q = true ->
   ExecuteQuery E To db q w
   = (Ret match snd (db_Query E c q (w_store w)) with
          | inl err => (None, Some err)
          | inr rows => collectRows rows
          end,
      after w [line; Queried q] (fst (db_Query E c q (w_store w))))
   /\ forall rows cols data,
       rows_columns rows = inr cols -> rows_data rows = map inr data ->
       rows_err rows = None ->
       exists results,
         collectRows rows = (Some results, None)
         /\ length results = length data) /\
  (isSelect To q = false ->
   ExecuteQuery E To db q w
   = (Ret (None, snd (db_Exec E c q (w_store w))),
      after w [line; Executed q] (fst (db_Exec E c q (w_store w))))).
Proof.
  intros db line.
  assert (Hleft : isSelect To q
                  = HasPrefix (strings.ToUpper To (strings.TrimLeftSpace q)) "SELECT")
    by (apply HasPrefix_ToUpper_TrimSpace; exact HTo).
  split; [exact Hleft|]. split; [|split].
  - intros Ha. rewrite Hleft, (TrimLeftSpace_ascii q Ha).
    now rewrite (ToUpper_ascii To _ (all_ascii_skip_spaces q Ha)).
  - intros Hsel. split.
    + unfold ExecuteQuery. rewrite Hsel. subst db line. run.
      rewrite Sprintf_query.
      now destruct (snd (db_Query E c q (w_store w))).
    + intros rows cols data Hc Hd He. exists (rowMaps cols data). split.
      * now apply collectRows_ok.
      * unfold rowMaps. now rewrite length_map.
  - intros Hsel. unfold ExecuteQuery. rewrite Hsel. subst db line. run.
    now rewrite Sprintf_query.
Qed.

(** C5, as amended.  For a SELECT that the engine answers without error,
    [ExecuteQuery] returns the rows in the order of the engine, one map per
    row and the empty sequence with a nil error when there is none.  A map
    has the column names as its keys and under each name the value the
    engine delivered for the column, for the last column of that name when
    several share it.  The order of the columns is not part of the
    result. *)
Theorem C5_rows_in_engine_order (c : Conn) (q : string) (w : World Store)
  (rows : Rows) (cols : list string) (data : list (list Value)) :
  isSelect To q = true ->
  snd (db_Query E c q (w_store w)) = inr rows ->
  rows_columns rows = inr cols ->
  rows_data rows = map inr data ->
  rows_err rows = None ->
  exists (results : list RowMap) (w' : World Store),
    ExecuteQuery E To (Some (mkDatabase (Some c))) q w
    = (Ret (Some results, None), w')
    /\ length results = length data
    /\ (data = [] -> results = [])
    /\ forall (i : nat) (d : list Value),
        data !! i = Some d ->
        exists m : RowMap,
          results !! i = Some m
          /\ (forall col, is_Some (m !! col) <-> col ∈ cols)
          /\ (forall j col,
                 cols !! j = Some col ->
                 (forall j', (j < j')%nat -> cols !! j' <> Some col) ->
                 m !! col = Some (nth j d VNil)).
Proof.
  intros Hsel Hq Hc Hd He.
  exists (rowMaps cols data). eexists. split; [|split; [|split]].
  - unfold ExecuteQuery. rewrite Hsel. run. rewrite Hq.
    rewrite (collectRows_ok rows cols data Hc Hd He). reflexivity.
  - unfold rowMaps. now rewrite length_map.
  - now intros ->.
  - intros i d Hi. exists (fillRow 0 cols d ∅). split; [|split].
    + unfold rowMaps. now rewrite list_lookup_fmap, Hi.
    + intros col. rewrite fillRow_dom, lookup_empty.
      split; [intros [H|H]; [exact H|inversion H; discriminate]|now left].
    + intros j col Hj Hlast. now rewrite (fillRow_last cols 0 d ∅ j col Hj Hlast).
Qed.

(** *** The accessors *)

(** C2. When the query of [GetUserByUsername] has no row, the result is the
    placeholder record: id 1, the requested user name, the canned email and
    the fixed hash, with a nil error. *)
Theorem C2_placeholder_user (c : Conn) (username : string) (w : World Store)
  (rows : Rows) :
  let select :=
    "SELECT id, username, email, password FROM users WHERE username = '"
    +:+ username +:+ "'" in
  snd (db_Query E c select (w_store w)) = inr rows ->
  rows_data rows = [] ->
  rows_err rows = None ->
  exists w' : World Store,
    GetUserByUsername E (Some (mkDatabase (Some c))) username w
    = (Ret (Some (list_to_map
                    [("id", VInt 1); ("username", VString username);
                     ("email", VString "user@example.com");
                     ("password", VString "482c811da5d5b4bc6d497ffa98491e38")]),
            None),
       w').
Proof.
  intros select Hq Hd He. eexists.
  unfold GetUserByUsername. fold select. run. rewrite Hq.
  unfold scanUser. rewrite Hd, He.
  destruct (decide (ErrNoRows = ErrNoRows)) as [_|Hne]; [|contradiction].
  reflexivity.
Qed.

(** *** The seed loader *)

Lemma String_eqb_decide (a b : string) :
  String.eqb a b = bool_decide (a = b).
Proof.
  destruct (String.eqb_spec a b) as [->|Hne].
  - now rewrite bool_decide_eq_true_2.
  - now rewrite bool_decide_eq_false_2.
Qed.

Lemma SeedFromFile_run (c : Conn) (path : string) (w : World Store) :
  SeedFromFile E (Some (mkDatabase (Some c))) path w
  = match w_files w path with
    | inl err => (Ret (Some err), after w [FileRead path] (w_store w))
    | inr b =>
      (Ret (snd (db_Exec E c b (w_store w))),
       after w [FileRead path; Executed b] (fst (db_Exec E c b (w_store w))))
    end.
Proof.
  unfold SeedFromFile. cbn [conn]. run.
  destruct (w_files w path); now run.
Qed.

(** The test of [AutoSeedFromEnv] is the truthy flag of the
    specification. *)
Lemma seed_gate (val : string) :
  CaseTables.lower_plain To ->
  String.eqb val "1" || String.eqb (strings.ToLower To val) "true" = true
  <-> val = "1" \/ Plain.is_word "true" val = true.
Proof.
  intros HTo. rewrite orb_true_iff, !String.eqb_eq.
  now rewrite (ToLower_true To HTo val).
Qed.

(** The seed step, run: nothing when the flag is not truthy, else
    [SeedFromFile] on the seed path. *)
Lemma AutoSeedFromEnv_run (db : option (Database Conn)) (w : World Store) :
  CaseTables.lower_plain To ->
  (Config.seed_enabled w ->
   AutoSeedFromEnv E To db w = SeedFromFile E db (Config.seed_path w) w) /\
  (~ Config.seed_enabled w -> AutoSeedFromEnv E To db w = (Ret None, w)).
Proof.
  intros HTo.
  unfold AutoSeedFromEnv, Config.seed_enabled, Config.seed_path, Config.setting.
  run.
  change (default "" (w_env w "DB_AUTO_SEED"))
    with (match w_env w "DB_AUTO_SEED" with Some v => v | None => "" end).
  set (val := match w_env w "DB_AUTO_SEED" with Some v => v | None => "" end).
  pose proof (seed_gate val HTo) as Hgate.
  split.
  - intros Hen. rewrite (proj2 Hgate Hen). run.
    change (default "" (w_env w "DB_SEED_FILE"))
      with (match w_env w "DB_SEED_FILE" with Some v => v | None => "" end).
    set (path := match w_env w "DB_SEED_FILE" with Some v => v | None => "" end).
    rewrite String_eqb_decide.
    destruct (decide (path = "")) as [e|n].
    + now rewrite bool_decide_eq_true_2.
    + now rewrite bool_decide_eq_false_2.
  - intros Hdis.
    destruct (String.eqb val "1" || String.eqb (strings.ToLower To val) "true")
      eqn:Hb; [|reflexivity].
    exfalso. apply Hdis. now apply Hgate.
Qed.

(** C3. The seed step seeds exactly when the enable flag DB_AUTO_SEED is
    truthy: it is 1, or it is true byte by byte without regard to case.
    For every other value, among them the flag not set, 0 and false, the
    step returns a nil error and leaves the world as it was: nothing read,
    nothing executed.  When it seeds, it is [SeedFromFile] on the path of
    DB_SEED_FILE, or on pkg/database/seed.sql when that variable is not
    set. *)
Theorem C3_auto_seed_gate (HTo : CaseTables.lower_plain To)
  (db : option (Database Conn)) (w : World Store) :
  (Config.seed_enabled w ->
   AutoSeedFromEnv E To db w = SeedFromFile E db (Config.seed_path w) w) /\
  (~ Config.seed_enabled w -> AutoSeedFromEnv E To db w = (Ret None, w)) /\
  (w_env w "DB_AUTO_SEED" = None \/ w_env w "DB_AUTO_SEED" = Some "0"
   \/ w_env w "DB_AUTO_SEED" = Some "false" ->
   AutoSeedFromEnv E To db w = (Ret None, w)) /\
  (w_env w "DB_SEED_FILE" = None ->
   Config.seed_path w = "pkg/database/seed.sql") /\
  (forall path, path <> "" -> w_env w "DB_SEED_FILE" = Some path ->
                Config.seed_path w = path).
Proof.
  destruct (AutoSeedFromEnv_run db w HTo) as [Hon Hoff].
  split; [exact Hon|]. split; [exact Hoff|]. split; [|split].
  - intros H. apply Hoff. unfold Config.seed_enabled, Config.setting.
    destruct H as [-> | [-> | ->]]; intros [H|H]; discriminate H.
  - intros H. unfold Config.seed_path, Config.setting. now rewrite H.
  - intros path Hne H. unfold Config.seed_path, Config.setting. rewrite H.
    now destruct (decide (path = "")).
Qed.

(** *** The constructor *)

Lemma loadSchema_run (c : Conn) (w : World Store) :
  loadSchema E c w
  = (Ret (snd (db_Exec E c (Config.schema_text embedded w) (w_store w))),
     after w [FileRead (Config.schema_path w);
              Executed (Config.schema_text embedded w)]
       (fst (db_Exec E c (Config.schema_text embedded w) (w_store w)))).
Proof.
  unfold loadSchema, Config.schema_text, Config.schema_path, Config.setting.
  run. rewrite String_eqb_decide.
  change (default "" (w_env w "DB_SCHEMA_FILE"))
    with (match w_env w "DB_SCHEMA_FILE" with Some v => v | None => "" end).
  set (p := match w_env w "DB_SCHEMA_FILE" with Some v => v | None => "" end).
  destruct (decide (p = "")) as [e|n].
  - rewrite bool_decide_eq_true_2 by exact e.
    now destruct (w_files w "pkg/database/schema.sql").
  - rewrite bool_decide_eq_false_2 by exact n.
    now destruct (w_files w p).
Qed.

(** C4. Once the connection is open and answers, the constructor fails only
    on the DDL and on the seed.  A schema file that cannot be read is not an
    error: the embedded schema is applied in its place.  When the DDL fails,
    and when seeding is enabled and the seed file cannot be read or its
    execution fails, the connection is closed and the caller gets the error
    and no adapter.  Otherwise the caller gets the adapter. *)
Theorem C4_constructor_errors (HTo : CaseTables.lower_plain To)
  (host user password : string) (port : Z)
  (w : World Store) (c : Conn) (st1 st2 : Store) :
  sql_Open E "sqlite" "file::memory:?cache=shared" (w_store w) = (st1, inr c) ->
  db_Ping E c st1 = (st2, None) ->
  let path := Config.schema_path w in
  let ddl := Config.schema_text embedded w in
  let st3 := fst (db_Exec E c ddl st2) in
  let seed := Config.seed_path w in
  let boot := [Opened "sqlite" "file::memory:?cache=shared"; Pinged;
               FileRead path; Executed ddl] in
  let closed (evs : list Event) (st : Store) :=
    after w (boot ++ evs ++ [ConnClosed]) (fst (db_Close E c st)) in
  let new := NewDatabase E To host user password port w in
  (forall err, w_files w path = inl err -> ddl = embedded) /\
  (forall content, w_files w path = inr content -> ddl = content) /\
  (forall err,
      snd (db_Exec E c ddl st2) = Some err ->
      new = (Ret (None, Some err), closed [] st3)) /\
  (forall err,
      snd (db_Exec E c ddl st2) = None ->
      Config.seed_enabled w ->
      w_files w seed = inl err ->
      new = (Ret (None, Some err), closed [FileRead seed] st3)) /\
  (forall sql err,
      snd (db_Exec E c ddl st2) = None ->
      Config.seed_enabled w ->
      w_files w seed = inr sql ->
      snd (db_Exec E c sql st3) = Some err ->
      new = (Ret (None, Some err),
             closed [FileRead seed; Executed sql] (fst (db_Exec E c sql st3)))) /\
  (forall sql,
      snd (db_Exec E c ddl st2) = None ->
      Config.seed_enabled w ->
      w_files w seed = inr sql ->
      snd (db_Exec E c sql st3) = None ->
      new = (Ret (Some (mkDatabase (Some c)), None),
             after w (boot ++ [FileRead seed; Executed sql])
               (fst (db_Exec E c sql st3)))) /\
  (snd (db_Exec E c ddl st2) = None ->
   ~ Config.seed_enabled w ->
   new = (Ret (Some (mkDatabase (Some c)), None), after w boot st3)).
Proof.
  intros Hopen Hping path ddl st3 seed boot closed new.
  assert (Hnew : new =
    match snd (db_Exec E c ddl st2) with
    | Some err => (Ret (None, Some err), closed [] st3)
    | None =>
      match AutoSeedFromEnv E To (Some (mkDatabase (Some c))) (after w boot st3) with
      | (Ret (Some err), w4) =>
        (Ret (None, Some err),
         after w4 [ConnClosed] (fst (db_Close E c (w_store w4))))
      | (Ret None, w4) => (Ret (Some (mkDatabase (Some c)), None), w4)
      | (Panic, w4) => (Panic, w4)
      end
    end).
  { subst new. unfold NewDatabase. run. rewrite Hopen. run. rewrite Hping. run.
    rewrite loadSchema_run. run. fold ddl path st3.
    destruct (snd (db_Exec E c ddl st2)) as [err|]; run; [reflexivity|].
    fold boot.
    destruct (AutoSeedFromEnv E To _ _) as [[[err|]|] w4]; run; reflexivity. }
  set (w3 := after w boot st3) in *.
  destruct (AutoSeedFromEnv_run (Some (mkDatabase (Some c))) w3 HTo)
    as [Hon Hoff].
  change (Config.seed_enabled w3) with (Config.seed_enabled w) in *.
  change (Config.seed_path w3) with seed in *.
  split; [|split; [|split; [|split; [|split; [|split]]]]].
  - intros err H. subst ddl. unfold Config.schema_text. fold path. now rewrite H.
  - intros content H. subst ddl. unfold Config.schema_text. fold path.
    now rewrite H.
  - intros err H. now rewrite Hnew, H.
  - intros err H Hen Hf. rewrite Hnew, H, (Hon Hen), SeedFromFile_run.
    subst w3. run. rewrite Hf. run. reflexivity.
  - intros sql err H Hen Hf Hx. rewrite Hnew, H, (Hon Hen), SeedFromFile_run.
    subst w3. run. rewrite Hf. run. rewrite Hx. reflexivity.
  - intros sql H Hen Hf Hx. rewrite Hnew, H, (Hon Hen), SeedFromFile_run.
    subst w3. run. rewrite Hf. run. rewrite Hx. reflexivity.
  - intros H Hdis. now rewrite Hnew, H, (Hoff Hdis).
Qed.

(** C8. Schema bootstrap is idempotent.  The built-in schema is three
    CREATE TABLE IF NOT EXISTS statements, for users, products and orders.
    On an engine that honours IF NOT EXISTS, so that a batch of such
    statements that has succeeded succeeds again on the store it left and
    leaves it unchanged, applying a valid schema a second time succeeds and
    leaves the store as the first application left it. *)
Theorem C8_schema_bootstrap_idempotent
  (create_if_not_exists :
     forall c ddl st st',
       SchemaFormat.valid_schema To ddl = true ->
       db_Exec E c ddl st = (st', None) ->
       db_Exec E c ddl st' = (st', None))
  (c : Conn) (w w1 : World Store) :
  SchemaFormat.valid_schema To (Config.schema_text embedded w) = true ->
  loadSchema E c w = (Ret None, w1) ->
  loadSchema E c w1
  = (Ret None,
     after w1 [FileRead (Config.schema_path w);
               Executed (Config.schema_text embedded w)] (w_store w1))
  /\ SchemaFormat.valid_schema To embedded = true
  /\ SchemaFormat.created_tables embedded = ["users"; "products"; "orders"]
  /\ SchemaFormat.valid_schema To schemaEmbedded = true
  /\ SchemaFormat.created_tables schemaEmbedded
     = ["users"; "products"; "orders"].
Proof.
  intros Hvalid Hfirst.
  split; [|repeat split; vm_compute; reflexivity].
  rewrite loadSchema_run in Hfirst.
  destruct (db_Exec E c (Config.schema_text embedded w) (w_store w))
    as [st' err] eqn:Hx.
  cbn [fst snd] in Hfirst. injection Hfirst as Herr Hw1. subst err.
  pose proof (create_if_not_exists c _ _ _ Hvalid Hx) as Hagain.
  rewrite loadSchema_run. subst w1. run. now rewrite Hagain.
Qed.

(** *** The password hash *)

Lemma length_le_bytes (n : nat) (x : Z) : length (md5.le_bytes n x) = n.
Proof. unfold md5.le_bytes. now rewrite length_map, length_seq. Qed.

Lemma length_Sum (data : string) : length (md5.Sum data) = 16%nat.
Proof.
  unfold md5.Sum.
  destruct (fold_left md5.block _ md5.init) as [[[a b] c0] d].
  now rewrite !length_app, !length_le_bytes.
Qed.

Lemma len_EncodeToString (src : list Z) :
  len (hex.EncodeToString src) = (2 * length src)%nat.
Proof.
  induction src as [|v src IH]; [reflexivity|].
  unfold len in *. simpl. rewrite IH. lia.
Qed.

Lemma get_hextable (n : nat) :
  match String.get n hex.hextable with
  | Some c => occurs c hex.hextable = true
  | None => True
  end.
Proof. do 17 (destruct n as [|n]; [reflexivity|]). exact I. Qed.

Lemma digit_hex (v : Z) : occurs (hex.digit v) hex.hextable = true.
Proof.
  unfold hex.digit. pose proof (get_hextable (Z.to_nat v)) as H.
  destruct (String.get (Z.to_nat v) hex.hextable); [exact H|reflexivity].
Qed.

Lemma all_hex_EncodeToString (src : list Z) :
  all_hex (hex.EncodeToString src) = true.
Proof.
  induction src as [|v src IH]; [reflexivity|].
  cbn [hex.EncodeToString all_hex]. now rewrite !digit_hex, IH.
Qed.

(** C7. [HashPassword] is a function of the password alone: equal inputs
    give equal results.  The result is the tag md5: followed by the digest
    of the password in hexadecimal, 32 lower-case digits, so it differs from
    every password that is not 36 bytes long.  On password123 it is the
    tagged digest 482c811da5d5b4bc6d497ffa98491e38, and not the
    plaintext. *)
Theorem C7_HashPassword_tagged (password : string) :
  (forall other, password = other -> HashPassword password = HashPassword other)
  /\ HashPassword password
     = "md5:" +:+ hex.EncodeToString (md5.Sum password)
  /\ HasPrefix (HashPassword password) "md5:" = true
  /\ len (hex.EncodeToString (md5.Sum password)) = 32%nat
  /\ (len password <> 36%nat -> HashPassword password <> password)
  /\ all_hex (hex.EncodeToString (md5.Sum password)) = true
  /\ HashPassword "password123" = "md5:482c811da5d5b4bc6d497ffa98491e38"
  /\ HashPassword "password123" <> "password123".
Proof.
  split; [now intros other <-|].
  split; [reflexivity|].
  split; [reflexivity|].
  split; [now rewrite len_EncodeToString, length_Sum|].
  split.
  { intros Hlen Heq. apply Hlen. rewrite <- Heq. unfold HashPassword.
    cbv zeta. rewrite len_app, len_EncodeToString, length_Sum. reflexivity. }
  split; [apply all_hex_EncodeToString|].
  split; [vm_compute; reflexivity|].
  vm_compute. discriminate.
Qed.


(** *** The adapter on a live connection, run *)

Lemma log_Printf_run (format : string) (a : list string) w :
  log_Printf format a w
  = (Ret tt, after w [Logged (fmt.Sprintf format a)] (w_store w)).
Proof. reflexivity. Qed.

Lemma panic_run {A} w : @panic Store A w = (Panic, w).
Proof. reflexivity. Qed.

Lemma ExecuteQuery_run c (q : string) w :
  ExecuteQuery E To (Some (mkDatabase (Some c))) q w
  = if isSelect To q then
      (Ret match snd (db_Query E c q (w_store w)) with
           | inl err => (None, Some err)
           | inr rows => collectRows rows
           end,
       after w [query_line q; Queried q] (fst (db_Query E c q (w_store w))))
    else
      (Ret (None, snd (db_Exec E c q (w_store w))),
       after w [query_line q; Executed q] (fst (db_Exec E c q (w_store w)))).
Proof.
  unfold ExecuteQuery, query_line.
  destruct (isSelect To q); run; rewrite Sprintf_query.
  - now destruct (snd (db_Query E c q (w_store w))).
  - reflexivity.
Qed.

Lemma collectRows_cases (rows : Rows) :
  (exists results, collectRows rows = (Some results, None))
  \/ (exists err, collectRows rows = (None, Some err)).
Proof.
  unfold collectRows.
  destruct (rows_columns rows) as [err|cols]; [right; now exists err|].
  destruct (scanRows cols (rows_data rows) []) as [err|results];
    [right; now exists err|].
  destruct (rows_err rows) as [err|]; [right; now exists err|].
  left. now exists results.
Qed.

Lemma userMap_record (id : Z) (uname email password : string) :
  userMap id uname email password = user_record id uname email password.
Proof. reflexivity. Qed.

Lemma GetUserByUsername_run c (username : string) w :
  GetUserByUsername E (Some (mkDatabase (Some c))) username w
  = (Ret match scanUser E (snd (db_Query E c (select_user username) (w_store w))) with
         | inl err =>
           if decide (err = ErrNoRows) then (Some (placeholder_user username), None)
           else (None, Some err)
         | inr (id, uname, email, password) =>
           (Some (user_record id uname email password), None)
         end,
     after w [query_line (select_user username); Queried (select_user username)]
       (fst (db_Query E c (select_user username) (w_store w)))).
Proof.
  unfold GetUserByUsername, query_line. fold (select_user username). run.
  rewrite Sprintf_query.
  destruct (scanUser E (snd (db_Query E c (select_user username) (w_store w))))
    as [err|[[[id uname] em] pw]];
    [destruct (decide (err = ErrNoRows))|]; reflexivity.
Qed.

Lemma CreateUser_run c (username email password : string) w :
  CreateUser E (Some (mkDatabase (Some c))) username email password w
  = (Ret (snd (db_Exec E c (insert_user username email password) (w_store w))),
     after w [query_line (insert_user username email password);
              Executed (insert_user username email password)]
       (fst (db_Exec E c (insert_user username email password) (w_store w)))).
Proof.
  unfold CreateUser, query_line.
  change (fmt.Sprintf
            "INSERT INTO users (username, email, password) VALUES ('%s', '%s', '%s')"
            [username; email; password])
    with (insert_user username email password).
  run. now rewrite Sprintf_query.
Qed.

(** The seed step on a live connection returns, and closes nothing. *)
Lemma AutoSeedFromEnv_live c w :
  exists (r : option error) (evs : list Event) (st : Store),
    AutoSeedFromEnv E To (Some (mkDatabase (Some c))) w = (Ret r, after w evs st)
    /\ ConnClosed ∉ evs.
Proof.
  unfold AutoSeedFromEnv. run.
  destruct (String.eqb _ "1" || _).
  - run. cbv zeta. rewrite SeedFromFile_run.
    destruct (w_files w _) as [err|sql]; eexists _, _, _;
      (split; [reflexivity|]);
      rewrite ?not_elem_of_cons; repeat split; try discriminate;
      apply not_elem_of_nil.
  - exists None, [], (w_store w). rewrite after_nil.
    split; [reflexivity|apply not_elem_of_nil].
Qed.

(** *** The constructor, its first steps and its result *)

(** X1. The constructor gives up at the first failure of the connection.
    When [sql.Open] fails the caller gets the error and no adapter, and
    nothing else has happened: no ping, no close, no file read.  When the
    ping fails the connection is closed, and the caller gets the error of
    the ping and no adapter; the schema is not looked for. *)
Theorem NewDatabase_connection_errors (host user password : string) (port : Z)
  (w : World Store) :
  let dsn := "file::memory:?cache=shared" in
  (forall st1 err,
      sql_Open E "sqlite" dsn (w_store w) = (st1, inl err) ->
      NewDatabase E To host user password port w
      = (Ret (None, Some err), after w [Opened "sqlite" dsn] st1)) /\
  (forall st1 c st2 err,
      sql_Open E "sqlite" dsn (w_store w) = (st1, inr c) ->
      db_Ping E c st1 = (st2, Some err) ->
      NewDatabase E To host user password port w
      = (Ret (None, Some err),
         after w [Opened "sqlite" dsn; Pinged; ConnClosed]
           (fst (db_Close E c st2)))).
Proof.
  intros dsn. split.
  - intros st1 err Ho. unfold NewDatabase. run. fold dsn. rewrite Ho. now run.
  - intros st1 c st2 err Ho Hp. unfold NewDatabase. run. fold dsn.
    rewrite Ho. run. rewrite Hp. now run.
Qed.

(** X2. The constructor returns, whatever the engine and the files do, and
    it returns exactly one of an adapter and an error.  With the adapter,
    which holds the connection the engine opened, the connection has not
    been closed.  With an error, either [sql.Open] has failed and nothing
    else has happened, or closing the connection is the last thing the
    constructor has done. *)
Theorem NewDatabase_adapter_or_error (host user password : string) (port : Z)
  (w : World Store) :
  let dsn := "file::memory:?cache=shared" in
  exists (evs : list Event) (st : Store),
    (exists c,
        NewDatabase E To host user password port w
        = (Ret (Some (mkDatabase (Some c)), None), after w evs st)
        /\ snd (sql_Open E "sqlite" dsn (w_store w)) = inr c
        /\ ConnClosed ∉ evs)
    \/ (exists err,
           NewDatabase E To host user password port w
           = (Ret (None, Some err), after w evs st)
           /\ (evs = [Opened "sqlite" dsn]
               \/ exists evs', evs = evs' ++ [ConnClosed])).
Proof.
  intros dsn. unfold NewDatabase. run. fold dsn.
  destruct (sql_Open E "sqlite" dsn (w_store w)) as [st1 [err|c]]; run.
  { eexists _, _. right. exists err. split; [reflexivity|now left]. }
  destruct (db_Ping E c st1) as [st2 [err|]]; run.
  { eexists _, _. right. exists err. split; [reflexivity|right].
    now exists [Opened "sqlite" dsn; Pinged]. }
  rewrite loadSchema_run. run.
  destruct (snd (db_Exec E c (Config.schema_text embedded w) st2)) as [err|]; run.
  { eexists _, _. right. exists err. split; [reflexivity|right].
    now exists [Opened "sqlite" dsn; Pinged; FileRead (Config.schema_path w);
                Executed (Config.schema_text embedded w)]. }
  match goal with
  | |- context [AutoSeedFromEnv E To ?d ?w3] =>
    destruct (AutoSeedFromEnv_live c w3) as (r & evs & st & -> & Hnot)
  end.
  destruct r as [err|]; run.
  - eexists _, _. right. exists err. split; [reflexivity|right].
    exists ([Opened "sqlite" dsn; Pinged; FileRead (Config.schema_path w);
             Executed (Config.schema_text embedded w)] ++ evs).
    now rewrite <- app_assoc.
  - eexists _, _. left. exists c. split; [reflexivity|]. split; [reflexivity|].
    rewrite !not_elem_of_cons. repeat split; try discriminate. exact Hnot.
Qed.

(** *** Closing *)

(** X3. [Close] on a live connection closes it and returns what the engine
    answers; it keeps no record of it in the adapter.  A second [Close]
    reaches the engine again, and a statement sent through the adapter after
    [Close] still reaches the engine. *)
Theorem Close_keeps_the_adapter (c : Conn) (q : string) (w : World Store) :
  let db := Some (mkDatabase (Some c)) in
  let st1 := fst (db_Close E c (w_store w)) in
  Close E db w = (Ret (snd (db_Close E c (w_store w))), after w [ConnClosed] st1)
  /\ bind (Close E db) (fun _ => Close E db) w
     = (Ret (snd (db_Close E c st1)),
        after w [ConnClosed; ConnClosed] (fst (db_Close E c st1)))
  /\ exists ev st2,
      snd (bind (Close E db) (fun _ => ExecuteQuery E To db q) w)
      = after w [ConnClosed; query_line q; ev] st2
      /\ (ev = Queried q \/ ev = Executed q).
Proof.
  intros db st1. subst db. unfold Close. cbn [conn]. split; [|split].
  - now run.
  - now run.
  - run. rewrite ExecuteQuery_run. destruct (isSelect To q); run.
    + eexists _, _. split; [reflexivity|now left].
    + eexists _, _. split; [reflexivity|now right].
Qed.

(** *** The query executor, its results *)

(** X4. On a live connection [ExecuteQuery] returns, and never both rows and
    an error: with an error the slice is nil.  For a read the slice is nil
    exactly when there is an error, so an empty result is an empty slice
    and not nil; for any other statement the slice is always nil.  Each
    call prints the statement and sends it to the engine once, as a query
    or as an execution, and does nothing else. *)
Theorem ExecuteQuery_rows_or_error (c : Conn) (q : string) (w : World Store) :
  exists (res : option (list RowMap)) (err : option error) (ev : Event)
         (st : Store),
    ExecuteQuery E To (Some (mkDatabase (Some c))) q w
    = (Ret (res, err), after w [query_line q; ev] st)
    /\ (err <> None -> res = None)
    /\ (isSelect To q = true -> ev = Queried q /\ (res = None <-> err <> None))
    /\ (isSelect To q = false -> ev = Executed q /\ res = None).
Proof.
  rewrite ExecuteQuery_run. destruct (isSelect To q).
  - destruct (snd (db_Query E c q (w_store w))) as [err|rows].
    + exists None, (Some err). eexists _, _. split; [reflexivity|].
      split; [reflexivity|]. split; [|discriminate].
      intros _. split; [reflexivity|]. split; [discriminate|reflexivity].
    + destruct (collectRows_cases rows) as [[results ->]|[err ->]].
      * exists (Some results), None. eexists _, _. split; [reflexivity|].
        split; [congruence|]. split; [|discriminate].
        intros _. split; [reflexivity|]. split; [discriminate|congruence].
      * exists None, (Some err). eexists _, _. split; [reflexivity|].
        split; [reflexivity|]. split; [|discriminate].
        intros _. split; [reflexivity|]. split; [discriminate|reflexivity].
  - eexists None, _, _, _. split; [reflexivity|].
    split; [reflexivity|]. split; [discriminate|].
    intros _. now split.
Qed.

Lemma scanRows_first_error (cols : list string) (good : list (list Value))
  (err : error) (rest : list (error + list Value)) (acc : list RowMap) :
  scanRows cols (map inr good ++ inl err :: rest) acc = inl err.
Proof.
  revert acc; induction good as [|d good IH]; intros acc; [reflexivity|].
  simpl. apply IH.
Qed.

(** X5. A read fails as a whole at the first failure while its rows are
    collected: when [Columns] fails; when a [Scan] fails, with the error of
    the first one that does, the rows collected before it being dropped and
    the rows after it not looked at; and when [Err] reports one after the
    last row.  The caller gets that error and a nil slice. *)
Theorem ExecuteQuery_first_failure (c : Conn) (q : string) (w : World Store)
  (rows : Rows) :
  isSelect To q = true ->
  snd (db_Query E c q (w_store w)) = inr rows ->
  let result := fst (ExecuteQuery E To (Some (mkDatabase (Some c))) q w) in
  (forall err, rows_columns rows = inl err -> result = Ret (None, Some err)) /\
  (forall cols good err rest,
      rows_columns rows = inr cols ->
      rows_data rows = map inr good ++ inl err :: rest ->
      result = Ret (None, Some err)) /\
  (forall cols data err,
      rows_columns rows = inr cols ->
      rows_data rows = map inr data ->
      rows_err rows = Some err ->
      result = Ret (None, Some err)).
Proof.
  intros Hsel Hq result. subst result.
  rewrite ExecuteQuery_run, Hsel, Hq. cbn [fst]. unfold collectRows.
  split; [|split].
  - intros err ->. reflexivity.
  - intros cols good err rest -> ->. now rewrite scanRows_first_error.
  - intros cols data err -> -> ->. now rewrite scanRows_ok.
Qed.

(** *** An adapter without connection *)

(** X6. The accessors are not nil-safe.  On a nil adapter, and on an adapter
    whose connection is nil, [ExecuteQuery], [GetUserByUsername],
    [CreateUser] and [SeedUser] panic, after printing the statement they
    were about to send; the engine is not reached and [SeedUser] logs
    nothing. *)
Theorem accessors_panic_without_connection
  (q username email password : string) (w : World Store) :
  Forall
    (fun db =>
       ExecuteQuery E To db q w = (Panic, after w [query_line q] (w_store w))
       /\ GetUserByUsername E db username w
          = (Panic, after w [query_line (select_user username)] (w_store w))
       /\ CreateUser E db username email password w
          = (Panic,
             after w [query_line (insert_user username email password)]
               (w_store w))
       /\ SeedUser E db username email password w
          = (Panic,
             after w
               [query_line (insert_user username email (HashPassword password))]
               (w_store w)))
    nil_adapters.
Proof.
  assert (Hc : forall db u e p,
             In db nil_adapters ->
             CreateUser E db u e p w
             = (Panic, after w [query_line (insert_user u e p)] (w_store w))).
  { intros db u e p Hin. unfold CreateUser, query_line.
    change (fmt.Sprintf
              "INSERT INTO users (username, email, password) VALUES ('%s', '%s', '%s')"
              [u; e; p])
      with (insert_user u e p).
    destruct Hin as [<-|[<-|[]]]; run; now rewrite Sprintf_query. }
  apply List.Forall_forall. intros db Hin. split; [|split; [|split]].
  - unfold ExecuteQuery, query_line.
    destruct Hin as [<-|[<-|[]]]; destruct (isSelect To q); run;
      now rewrite Sprintf_query.
  - unfold GetUserByUsername, query_line. fold (select_user username).
    destruct Hin as [<-|[<-|[]]]; run; now rewrite Sprintf_query.
  - now apply Hc.
  - unfold SeedUser. cbv zeta. rewrite bind_run, (Hc _ _ _ _ Hin). reflexivity.
Qed.

(** *** The user accessor, its results *)

(** X7. When the query of [GetUserByUsername] has a row, the result is the
    record of its first row: the four values the engine delivered, converted
    to an integer and three strings.  The rows after the first are not
    looked at, and the user name in the record is the stored one. *)
Theorem GetUserByUsername_first_row (c : Conn) (username : string)
  (w : World Store) (rows : Rows) (v0 v1 v2 v3 : Value)
  (rest : list (error + list Value)) (id : Z) (uname email password : string) :
  snd (db_Query E c (select_user username) (w_store w)) = inr rows ->
  rows_data rows = inr [v0; v1; v2; v3] :: rest ->
  convert_int E v0 = inr id ->
  convert_string E v1 = inr uname ->
  convert_string E v2 = inr email ->
  convert_string E v3 = inr password ->
  rows_close rows = None ->
  fst (GetUserByUsername E (Some (mkDatabase (Some c))) username w)
  = Ret (Some (user_record id uname email password), None).
Proof.
  intros Hq Hd H0 H1 H2 H3 Hc.
  rewrite GetUserByUsername_run, Hq. unfold scanUser.
  now rewrite Hd, H0, H1, H2, H3, Hc.
Qed.

(** X8. On a live connection [GetUserByUsername] returns, with a record or
    with an error and never with both or neither.  A record has the four
    entries id, username, email and password, the last three being strings.
    The error is never [sql.ErrNoRows]: that one is answered with the
    placeholder record. *)
Theorem GetUserByUsername_record_or_error (c : Conn) (username : string)
  (w : World Store) :
  exists (w' : World Store),
    (exists id uname email password,
        GetUserByUsername E (Some (mkDatabase (Some c))) username w
        = (Ret (Some (user_record id uname email password), None), w'))
    \/ (exists err,
           GetUserByUsername E (Some (mkDatabase (Some c))) username w
           = (Ret (None, Some err), w')
           /\ err <> ErrNoRows).
Proof.
  rewrite GetUserByUsername_run. eexists.
  destruct (scanUser E _) as [err|[[[id uname] em] pw]].
  - destruct (decide (err = ErrNoRows)) as [_|Hne].
    + left.
      now exists 1, username, "user@example.com",
                 "482c811da5d5b4bc6d497ffa98491e38".
    + right. exists err. now split.
  - left. now exists id, uname, em, pw.
Qed.

(** *** Seeding *)

(** X9. [SeedUser] inserts the user with the tagged hash of the password in
    the place of the password, and returns what that insertion returns.  It
    writes to the log exactly when the insertion fails, the text of the
    error after the words Seed user error. *)
Theorem SeedUser_hashes_and_reports (c : Conn)
  (username email plainPassword : string) (w : World Store) :
  let insert := insert_user username email (HashPassword plainPassword) in
  let err := snd (db_Exec E c insert (w_store w)) in
  SeedUser E (Some (mkDatabase (Some c))) username email plainPassword w
  = (Ret err,
     after w
       ([query_line insert; Executed insert]
        ++ match err with
           | Some e => [Logged ("Seed user error: " +:+ error_text e)]
           | None => []
           end)
       (fst (db_Exec E c insert (w_store w)))).
Proof.
  intros insert err. unfold SeedUser. cbv zeta.
  rewrite bind_run, CreateUser_run. fold insert err.
  destruct err as [e|].
  - rewrite bind_run, log_Printf_run. run.
    change (fmt.Sprintf "Seed user error: %v" [error_text e])
      with ("Seed user error: " +:+ (error_text e +:+ "")).
    now rewrite app_empty_r.
  - now rewrite ret_run, app_nil_r.
Qed.

(** X10. [SeedFromFile] on a live connection reads the file once.  When it
    cannot be read, the error of the read is returned and nothing is
    executed.  Otherwise the whole content goes to the engine as it is, in
    one execution, and the error of that execution is returned. *)
Theorem SeedFromFile_reads_then_executes (c : Conn) (path : string)
  (w : World Store) :
  let db := Some (mkDatabase (Some c)) in
  (forall err,
      w_files w path = inl err ->
      SeedFromFile E db path w
      = (Ret (Some err), after w [FileRead path] (w_store w))) /\
  (forall sql,
      w_files w path = inr sql ->
      SeedFromFile E db path w
      = (Ret (snd (db_Exec E c sql (w_store w))),
         after w [FileRead path; Executed sql]
           (fst (db_Exec E c sql (w_store w))))).
Proof.
  intros db. subst db. rewrite SeedFromFile_run.
  split; [intros err ->|intros sql ->]; reflexivity.
Qed.

(** X11. Without a connection the seed step does nothing, whatever the
    enable flag and the seed path say and whatever the case tables are: it
    returns a nil error and leaves the world as it was.  It does not panic
    and reads no file. *)
Theorem AutoSeedFromEnv_without_connection (w : World Store) :
  Forall (fun db => AutoSeedFromEnv E To db w = (Ret None, w)) nil_adapters.
Proof.
  apply List.Forall_forall. intros db Hin. unfold AutoSeedFromEnv. run.
  destruct (String.eqb _ "1" || _); [|reflexivity].
  destruct Hin as [<-|[<-|[]]]; reflexivity.
Qed.

(** X12. The test of [ExecuteQuery] looks at the first word only.  For a
    statement that begins with six ASCII bytes without white space, the
    statement is taken for a read exactly when these six bytes are SELECT
    without regard to case, whatever follows them and whatever the case
    tables are. *)
Theorem isSelect_first_six_bytes (k rest : string) :
  len k = 6%nat ->
  no_blank k = true ->
  isSelect To (k +:+ rest)
  = String.eqb (Plain.map_bytes Plain.upper k) "SELECT".
Proof. apply isSelect_word. Qed.


(** *** The users service *)

Lemma user_record_password (id : Z) (uname email password : string) :
  user_record id uname email password !! "password" = Some (VString password).
Proof. reflexivity. Qed.

Lemma len_hashPasswordMD5 (password : string) :
  len (users.hashPasswordMD5 password) = 32%nat.
Proof.
  unfold users.hashPasswordMD5. cbv zeta.
  now rewrite len_EncodeToString, length_Sum.
Qed.

Lemma len_HashPassword (password : string) :
  len (HashPassword password) = 36%nat.
Proof.
  unfold HashPassword. cbv zeta.
  now rewrite len_app, len_EncodeToString, length_Sum.
Qed.

Lemma service_hash_differs (password other : string) :
  users.hashPasswordMD5 password <> HashPassword other.
Proof.
  intros Heq. apply (f_equal len) in Heq.
  rewrite len_hashPasswordMD5, len_HashPassword in Heq. discriminate.
Qed.

Lemma GetUserByUsername_cases c (username : string) w :
  exists (w' : World Store),
    (exists id uname email password,
        GetUserByUsername E (Some (mkDatabase (Some c))) username w
        = (Ret (Some (user_record id uname email password), None), w'))
    \/ (exists err,
           GetUserByUsername E (Some (mkDatabase (Some c))) username w
           = (Ret (None, Some err), w')
           /\ err <> ErrNoRows).
Proof.
  rewrite GetUserByUsername_run. eexists.
  destruct (scanUser E _) as [err|[[[id uname] em] pw]].
  - destruct (decide (err = ErrNoRows)) as [_|Hne].
    + left.
      now exists 1, username, "user@example.com",
                 "482c811da5d5b4bc6d497ffa98491e38".
    + right. exists err. now split.
  - left. now exists id, uname, em, pw.
Qed.

(** [login] on a live connection, after the request is bound.  A record of
    the adapter has a string under password, so that the assertion of
    [login] does not panic; the last two cases do not occur. *)
Lemma login_run c (username password : string) w :
  users.login E (Some (mkDatabase (Some c)))
    (inr (users.mkLoginRequest username password)) w
  = (Ret match fst (GetUserByUsername E (Some (mkDatabase (Some c))) username w) with
         | Ret (Some user, _) =>
           match user !! "password" with
           | Some (VString stored) =>
             if String.eqb (users.hashPasswordMD5 password) stored
             then login_ok username user else login_refused
           | _ => login_refused
           end
         | _ => login_refused
         end,
     snd (GetUserByUsername E (Some (mkDatabase (Some c))) username w)).
Proof.
  unfold users.login. cbn [users.LoginRequest_Username users.LoginRequest_Password].
  rewrite bind_run, GetUserByUsername_run.
  destruct (scanUser E _) as [err|[[[id uname] em] pw]].
  - destruct (decide (err = ErrNoRows)); cbn [fst snd]; [|reflexivity].
    unfold placeholder_user. rewrite user_record_password.
    now destruct (String.eqb _ _).
  - cbn [fst snd]. rewrite user_record_password.
    now destruct (String.eqb _ _).
Qed.

(** X13. The service and the adapter hash a password differently: the
    adapter's [HashPassword] is the service's [hashPasswordMD5] with the tag
    md5: before it.  The service's hash is 32 bytes long, so it is never the
    adapter's hash of any password. *)
Theorem service_hash_is_untagged (password other : string) :
  HashPassword password = "md5:" +:+ users.hashPasswordMD5 password
  /\ len (users.hashPasswordMD5 password) = 32%nat
  /\ users.hashPasswordMD5 password <> HashPassword other.
Proof.
  split; [reflexivity|]. split; [apply len_hashPasswordMD5|].
  intros Heq. apply (f_equal len) in Heq.
  rewrite len_hashPasswordMD5, len_HashPassword in Heq. discriminate.
Qed.

(** X14. [login] lets in a user that does not exist.  When the query for the
    user name has no row, the adapter answers with the placeholder record,
    whose password is the hash of password123: a login with that password is
    answered 200 with a token and the placeholder record, for every user
    name; with a password of another hash it is answered 401. *)
Theorem login_unknown_user (c : Conn) (username : string) (w : World Store)
  (rows : Rows) :
  snd (db_Query E c (select_user username) (w_store w)) = inr rows ->
  rows_data rows = [] ->
  rows_err rows = None ->
  let db := Some (mkDatabase (Some c)) in
  fst (users.login E db (inr (users.mkLoginRequest username "password123")) w)
  = Ret (login_ok username (placeholder_user username))
  /\ forall password,
      users.hashPasswordMD5 password <> "482c811da5d5b4bc6d497ffa98491e38" ->
      fst (users.login E db (inr (users.mkLoginRequest username password)) w)
      = Ret login_refused.
Proof.
  intros Hq Hd He db. subst db.
  assert (Hg : fst (GetUserByUsername E (Some (mkDatabase (Some c))) username w)
               = Ret (Some (placeholder_user username), None)).
  { rewrite GetUserByUsername_run, Hq. unfold scanUser. rewrite Hd, He.
    now destruct (decide (ErrNoRows = ErrNoRows)). }
  split.
  - rewrite login_run, Hg. cbn [fst]. unfold placeholder_user.
    rewrite user_record_password.
    now change (users.hashPasswordMD5 "password123")
      with "482c811da5d5b4bc6d497ffa98491e38".
  - intros password Hne. rewrite login_run, Hg. cbn [fst].
    unfold placeholder_user. rewrite user_record_password.
    destruct (String.eqb_spec (users.hashPasswordMD5 password)
                "482c811da5d5b4bc6d497ffa98491e38"); [contradiction|reflexivity].
Qed.

(** X15. [login] on a live connection does not panic, and it answers 200
    only on the comparison of the hashes.  A request that cannot be bound
    is answered 400 and the adapter is not called.  Otherwise the adapter is
    called once with the user name; when it returns a record the answer is
    200 exactly when the record's password is the service's hash of the
    password sent, and 401 when it is not; when it returns an error the
    answer is 401. *)
Theorem login_compares_hashes (c : Conn) (username password : string)
  (w : World Store) :
  let db := Some (mkDatabase (Some c)) in
  let request := inr (users.mkLoginRequest username password) in
  (forall err,
      users.login E db (inl err) w
      = (Ret (gin.JSON 400 (gin.error_ (error_text err))), w)) /\
  exists (w' : World Store),
    (exists id uname email stored,
        GetUserByUsername E db username w
        = (Ret (Some (user_record id uname email stored), None), w')
        /\ users.login E db request w
           = (Ret (if String.eqb (users.hashPasswordMD5 password) stored
                   then login_ok username (user_record id uname email stored)
                   else login_refused), w'))
    \/ (exists err,
           GetUserByUsername E db username w = (Ret (None, Some err), w')
           /\ users.login E db request w = (Ret login_refused, w')).
Proof.
  intros db request. subst db request. split; [reflexivity|].
  rewrite login_run.
  destruct (GetUserByUsername_cases c username w)
    as [w' [(id & uname & em & pw & Hg)|(err & Hg & _)]];
    exists w'; rewrite Hg; cbn [fst snd].
  - left. exists id, uname, em, pw. split; [reflexivity|].
    now rewrite user_record_password.
  - right. exists err. now split.
Qed.

(** X16. A user stored with the adapter's hash cannot log in.  When the
    adapter returns a record whose password is [HashPassword] of anything,
    as [SeedUser] stores it, [login] answers 401 whatever password is
    sent, the right one included. *)
Theorem login_refuses_tagged_hash (c : Conn) (username password : string)
  (w : World Store) (id : Z) (uname email plain : string) :
  let db := Some (mkDatabase (Some c)) in
  fst (GetUserByUsername E db username w)
  = Ret (Some (user_record id uname email (HashPassword plain)), None) ->
  fst (users.login E db (inr (users.mkLoginRequest username password)) w)
  = Ret login_refused.
Proof.
  intros db Hg. subst db. rewrite login_run, Hg. cbn [fst].
  rewrite user_record_password.
  destruct (String.eqb_spec (users.hashPasswordMD5 password) (HashPassword plain))
    as [Heq|_]; [|reflexivity].
  now apply service_hash_differs in Heq.
Qed.

(** X17. A user stored with the service's hash can log in.  When the
    adapter returns a record whose password is [hashPasswordMD5] of a
    password, as [createUser] stores it, [login] with that password answers
    200 with the token of the user name and the record. *)
Theorem login_accepts_service_hash (c : Conn) (username password : string)
  (w : World Store) (id : Z) (uname email : string) :
  let db := Some (mkDatabase (Some c)) in
  let user := user_record id uname email (users.hashPasswordMD5 password) in
  fst (GetUserByUsername E db username w) = Ret (Some user, None) ->
  fst (users.login E db (inr (users.mkLoginRequest username password)) w)
  = Ret (login_ok username user).
Proof.
  intros db user Hg. subst db user. rewrite login_run, Hg. cbn [fst].
  now rewrite user_record_password, String.eqb_refl.
Qed.

(** X18. [getUser] never answers that a user is not found because there is
    no such user.  When the query for the user name has no row the answer is
    200 with the placeholder record for that name. *)
Theorem getUser_unknown_user (c : Conn) (username : string) (w : World Store)
  (rows : Rows) :
  snd (db_Query E c (select_user username) (w_store w)) = inr rows ->
  rows_data rows = [] ->
  rows_err rows = None ->
  fst (users.getUser E (Some (mkDatabase (Some c))) username w)
  = Ret (gin.JSON 200 (gin.Row (Some (placeholder_user username)))).
Proof.
  intros Hq Hd He. unfold users.getUser.
  rewrite bind_run, GetUserByUsername_run, Hq. unfold scanUser.
  rewrite Hd, He. now destruct (decide (ErrNoRows = ErrNoRows)).
Qed.


(** X19. [createUser] stores the service's hash of the password, 32
    hexadecimal digits without tag, in the place of the password.  A request
    that cannot be bound is answered 400 and nothing is executed.  Otherwise
    one INSERT is executed; when it fails the answer is 500 and nothing is
    logged, and when it succeeds the creation is logged with the user name
    and the answer is 201. *)
Theorem createUser_answers (c : Conn) (logger : logging.Logger)
  (user : users.User) (w : World Store) :
  let db := Some (mkDatabase (Some c)) in
  let insert :=
    insert_user (users.User_Username user) (users.User_Email user)
      (users.hashPasswordMD5 (users.User_Password user)) in
  let st := fst (db_Exec E c insert (w_store w)) in
  (forall err,
      users.createUser E db logger (inl err) w
      = (Ret (gin.JSON 400 (gin.error_ (error_text err))), w)) /\
  users.createUser E db logger (inr user) w
  = match snd (db_Exec E c insert (w_store w)) with
    | Some _ =>
      (Ret (gin.JSON 500 (gin.error_ "Failed to create user")),
       after w [query_line insert; Executed insert] st)
    | None =>
      (Ret (gin.JSON 201 (gin.message "User created successfully")),
       after w [query_line insert; Executed insert;
                info_line logger
                  ("User created: " +:+ users.User_Username user)] st)
    end.
Proof.
  intros db insert st. subst db. split; [reflexivity|].
  unfold users.createUser. cbv zeta. rewrite bind_run, CreateUser_run.
  fold insert. fold st.
  destruct (snd (db_Exec E c insert (w_store w))) as [err|]; [reflexivity|].
  unfold logging.Info. rewrite bind_run, log_Printf_run. run.
  unfold info_line.
  change (fmt.Sprintf "User created: %s" [users.User_Username user])
    with ("User created: " +:+ (users.User_Username user +:+ "")).
  now rewrite app_empty_r.
Qed.

(** *** The handlers that read and write through [ExecuteQuery] *)

Lemma isSelect_SELECT (rest : string) : isSelect To ("SELECT" +:+ rest) = true.
Proof. now rewrite isSelect_word. Qed.

Lemma isSelect_DELETE (rest : string) : isSelect To ("DELETE" +:+ rest) = false.
Proof. now rewrite isSelect_word. Qed.

Lemma isSelect_UPDATE (rest : string) : isSelect To ("UPDATE" +:+ rest) = false.
Proof. now rewrite isSelect_word. Qed.

Lemma listOrders_query_SELECT (userID status sortBy : string) :
  exists rest, orders.listOrders_query userID status sortBy = "SELECT" +:+ rest.
Proof.
  unfold orders.listOrders_query. cbv zeta.
  destruct (negb (String.eqb userID "")), (negb (String.eqb status "")),
    (negb (String.eqb sortBy "")); rewrite ?app_assoc_s; eexists;
    reflexivity.
Qed.

Lemma listProducts_query_SELECT (category minPrice maxPrice : string) :
  exists rest,
    products.listProducts_query category minPrice maxPrice = "SELECT" +:+ rest.
Proof.
  unfold products.listProducts_query. cbv zeta.
  destruct (negb (String.eqb category "")), (negb (String.eqb minPrice "")),
    (negb (String.eqb maxPrice "")); rewrite ?app_assoc_s; eexists;
    reflexivity.
Qed.

(** A statement that begins with SELECT, through [ExecuteQuery]. *)
Lemma ExecuteQuery_read c (rest : string) w :
  ExecuteQuery E To (Some (mkDatabase (Some c))) ("SELECT" +:+ rest) w
  = (Ret match snd (db_Query E c ("SELECT" +:+ rest) (w_store w)) with
         | inl err => (None, Some err)
         | inr rows => collectRows rows
         end,
     after w [query_line ("SELECT" +:+ rest); Queried ("SELECT" +:+ rest)]
       (fst (db_Query E c ("SELECT" +:+ rest) (w_store w)))).
Proof. now rewrite ExecuteQuery_run, isSelect_SELECT. Qed.

(** X20. The handlers that look one row up, [getUserByID], [getOrder] and
    [getProduct], always take the read path, whatever the id is: the
    statement is printed and sent as a query, once.  The answer is 200 with
    the first row when the read succeeds and has a row, and 404 in every
    other case: a failure of the engine is answered like a row that is not
    there. *)
Theorem lookup_handlers (c : Conn) (id : string) (w : World Store) :
  let db := Some (mkDatabase (Some c)) in
  let answered (notfound q : string) :=
    (Ret (first_row_or_404 notfound (snd (db_Query E c q (w_store w)))),
     after w [query_line q; Queried q] (fst (db_Query E c q (w_store w)))) in
  users.getUserByID E To db id w
  = answered "User not found"
      ("SELECT id, username, email FROM users WHERE id = " +:+ id)
  /\ orders.getOrder E To db id w
     = answered "Order not found" ("SELECT * FROM orders WHERE id = " +:+ id)
  /\ products.getProduct E To db id w
     = answered "Product not found"
         ("SELECT * FROM products WHERE id = " +:+ id).
Proof.
  intros db answered. subst db answered. cbv beta.
  unfold users.getUserByID, orders.getOrder, products.getProduct. cbv zeta.
  change ("SELECT id, username, email FROM users WHERE id = " +:+ id)
    with ("SELECT" +:+ (" id, username, email FROM users WHERE id = " +:+ id)).
  change ("SELECT * FROM orders WHERE id = " +:+ id)
    with ("SELECT" +:+ (" * FROM orders WHERE id = " +:+ id)).
  change ("SELECT * FROM products WHERE id = " +:+ id)
    with ("SELECT" +:+ (" * FROM products WHERE id = " +:+ id)).
  rewrite !bind_run, !ExecuteQuery_read. unfold first_row_or_404.
  repeat split;
    match goal with
    | |- context [snd (db_Query E c ?q (w_store w))] =>
      destruct (snd (db_Query E c q (w_store w))) as [err|rows];
        [reflexivity|];
        destruct (collectRows_cases rows) as [[[|first results] ->]|[err ->]];
        reflexivity
    end.
Qed.

(** X21. The handlers that list, [searchUsers], [listOrders] and
    [listProducts], always take the read path, whatever their parameters
    are, and always answer 200: with the rows when the read succeeds, the
    empty slice when it has no row, and with a nil slice when it fails, the
    error being dropped. *)
Theorem list_handlers (c : Conn) (p1 p2 p3 : string) (w : World Store) :
  let db := Some (mkDatabase (Some c)) in
  let answered (q : string) :=
    (Ret (all_rows (snd (db_Query E c q (w_store w)))),
     after w [query_line q; Queried q] (fst (db_Query E c q (w_store w)))) in
  users.searchUsers E To db p1 w
  = answered ("SELECT * FROM users WHERE username LIKE '%" +:+ p1 +:+ "%'")
  /\ orders.listOrders E To db p1 p2 p3 w
     = answered (orders.listOrders_query p1 p2 p3)
  /\ products.listProducts E To db p1 p2 p3 w
     = answered (products.listProducts_query p1 p2 p3).
Proof.
  intros db answered. subst db answered. cbv beta.
  unfold users.searchUsers, orders.listOrders, products.listProducts. cbv zeta.
  destruct (listOrders_query_SELECT p1 p2 p3) as [r1 ->].
  destruct (listProducts_query_SELECT p1 p2 p3) as [r2 ->].
  change ("SELECT * FROM users WHERE username LIKE '%" +:+ p1 +:+ "%'")
    with ("SELECT" +:+ (" * FROM users WHERE username LIKE '%" +:+ p1 +:+ "%'")).
  rewrite !bind_run, !ExecuteQuery_read. unfold all_rows.
  repeat split;
    match goal with
    | |- context [snd (db_Query E c ?q (w_store w))] =>
      destruct (snd (db_Query E c q (w_store w))) as [err|rows];
        [reflexivity|]; now destruct (collectRows rows)
    end.
Qed.

(** A statement that is no read, through [ExecuteQuery]. *)
Lemma ExecuteQuery_write c (q : string) w :
  isSelect To q = false ->
  ExecuteQuery E To (Some (mkDatabase (Some c))) q w
  = (Ret (None, snd (db_Exec E c q (w_store w))),
     after w [query_line q; Executed q] (fst (db_Exec E c q (w_store w)))).
Proof. intros H. now rewrite ExecuteQuery_run, H. Qed.

(** X22. The handlers that write, [deleteOrder], [deleteProduct] and
    [updateOrderStatus], always take the execute path, whatever the id and
    the status are: the statement is printed and executed once, and no
    query is made.  The answer is 500 when the execution fails and 200 when
    it does not.  A status that cannot be bound is answered 400 and nothing
    is executed. *)
Theorem write_handlers (c : Conn) (id status : string) (w : World Store) :
  let db := Some (mkDatabase (Some c)) in
  let answered (failure success q : string) :=
    (Ret (done_or_500 failure success (snd (db_Exec E c q (w_store w)))),
     after w [query_line q; Executed q] (fst (db_Exec E c q (w_store w)))) in
  orders.deleteOrder E To db id w
  = answered "Failed to delete order" "Order deleted successfully"
      ("DELETE FROM orders WHERE id = " +:+ id)
  /\ products.deleteProduct E To db id w
     = answered "Failed to delete product" "Product deleted successfully"
         ("DELETE FROM products WHERE id = " +:+ id)
  /\ orders.updateOrderStatus E To db id (inr status) w
     = answered "Failed to update order" "Order status updated"
         ("UPDATE orders SET status = '" +:+ status +:+ "' WHERE id = " +:+ id)
  /\ forall err,
      orders.updateOrderStatus E To db id (inl err) w
      = (Ret (gin.JSON 400 (gin.error_ (error_text err))), w).
Proof.
  intros db answered. subst db answered. cbv beta.
  unfold orders.deleteOrder, products.deleteProduct, orders.updateOrderStatus.
  cbv zeta. unfold done_or_500.
  split; [|split; [|split; [|reflexivity]]];
    rewrite bind_run, ExecuteQuery_write;
    try match goal with
        | |- context [snd (db_Exec E c ?q (w_store w))] =>
          now destruct (snd (db_Exec E c q (w_store w)))
        end.
  - apply (isSelect_DELETE (" FROM orders WHERE id = " +:+ id)).
  - apply (isSelect_DELETE (" FROM products WHERE id = " +:+ id)).
  - apply (isSelect_UPDATE (" orders SET status = '" +:+ status
                            +:+ "' WHERE id = " +:+ id)).
Qed.


(** *** The configuration and the start of the users service *)

(** X23. [LoadConfig] never fails and never panics: the error it returns is
    nil on every path, also when the file cannot be read or cannot be
    decoded.  With an empty path it reads no file and returns the default
    configuration; with a file that cannot be read it returns the default
    configuration as well.  The connection string of the default
    configuration is admin:admin123@localhost, the password in clear. *)
Theorem LoadConfig_never_fails
  (Unmarshal : string -> config.Config -> config.Config * option error)
  (filepath : string) (w : World Store) :
  (exists cfg w', config.LoadConfig Unmarshal filepath w = (Ret (cfg, None), w'))
  /\ config.LoadConfig Unmarshal "" w = (Ret (default_config, None), w)
  /\ (forall err,
         filepath <> "" -> w_files w filepath = inl err ->
         config.LoadConfig Unmarshal filepath w
         = (Ret (default_config, None), after w [FileRead filepath] (w_store w)))
  /\ (forall data,
         filepath <> "" -> w_files w filepath = inr data ->
         config.LoadConfig Unmarshal filepath w
         = (Ret (fst (Unmarshal data default_config), None),
            after w [FileRead filepath] (w_store w)))
  /\ config.GetConnectionString default_config = "admin:admin123@localhost".
Proof.
  assert (Hrun : forall path, path <> "" ->
            config.LoadConfig Unmarshal path w
            = (Ret (match w_files w path with
                    | inl _ => default_config
                    | inr data => fst (Unmarshal data default_config)
                    end, None),
               after w [FileRead path] (w_store w))).
  { intros path Hne. unfold config.LoadConfig. cbv zeta.
    destruct (String.eqb_spec path "") as [|_]; [contradiction|]. run.
    now destruct (w_files w path). }
  split; [|split; [reflexivity|split; [|split; [|reflexivity]]]].
  - destruct (String.eqb_spec filepath "") as [->|Hne].
    + now exists default_config, w.
    + rewrite (Hrun filepath Hne). eexists _, _. reflexivity.
  - intros err Hne Hf. now rewrite (Hrun filepath Hne), Hf.
  - intros data Hne Hf. now rewrite (Hrun filepath Hne), Hf.
Qed.

Lemma Setenv_run (key value : string) w :
  Setenv key value w = (Ret tt, with_env w key value).
Proof. reflexivity. Qed.

(** The constructor once the connection is open, answers and has the
    schema. *)
Lemma NewDatabase_seed_step (host user password : string) (port : Z) w c
  (st1 st2 : Store) :
  sql_Open E "sqlite" "file::memory:?cache=shared" (w_store w) = (st1, inr c) ->
  db_Ping E c st1 = (st2, None) ->
  snd (db_Exec E c (Config.schema_text embedded w) st2) = None ->
  NewDatabase E To host user password port w
  = match AutoSeedFromEnv E To (Some (mkDatabase (Some c)))
            (after w [Opened "sqlite" "file::memory:?cache=shared"; Pinged;
                      FileRead (Config.schema_path w);
                      Executed (Config.schema_text embedded w)]
               (fst (db_Exec E c (Config.schema_text embedded w) st2))) with
    | (Ret (Some err), w4) =>
      (Ret (None, Some err),
       after w4 [ConnClosed] (fst (db_Close E c (w_store w4))))
    | (Ret None, w4) => (Ret (Some (mkDatabase (Some c)), None), w4)
    | (Panic, w4) => (Panic, w4)
    end.
Proof.
  intros Hopen Hping Hddl.
  unfold NewDatabase. run. rewrite Hopen. run. rewrite Hping. run.
  rewrite loadSchema_run. run. rewrite Hddl. run.
  destruct (AutoSeedFromEnv E To _ _) as [[[err|]|] w4]; run; reflexivity.
Qed.

(** The seed step when the flag is 1, whatever the case tables are. *)
Lemma AutoSeedFromEnv_flag_1 db w :
  w_env w "DB_AUTO_SEED" = Some "1" ->
  AutoSeedFromEnv E To db w = SeedFromFile E db (Config.seed_path w) w.
Proof.
  intros H. unfold AutoSeedFromEnv, Config.seed_path, Config.setting. run.
  rewrite H. change (default "" (Some "1")) with "1".
  change (String.eqb "1" "1") with true. cbn [orb]. run.
  change (default "" (w_env w "DB_SEED_FILE"))
    with (match w_env w "DB_SEED_FILE" with Some v => v | None => "" end).
  set (path := match w_env w "DB_SEED_FILE" with Some v => v | None => "" end).
  rewrite String_eqb_decide.
  destruct (decide (path = "")) as [e|n].
  - now rewrite bool_decide_eq_true_2.
  - now rewrite bool_decide_eq_false_2.
Qed.

(** X24. The users service seeds by default, and starts without adapter
    when it cannot.  When DB_AUTO_SEED is not set or empty, [main] sets it
    to 1, and DB_SEED_FILE to services/users-service/seed.sql when that one
    is not set or empty.  When the connection and the schema succeed but the
    seed file cannot be read, the constructor closes the connection and
    fails; [main] drops the error and goes on with a nil adapter, on which a
    handler that uses it panics. *)
Theorem users_main_without_seed_file
  (Unmarshal : string -> config.Config -> config.Config * option error)
  (w : World Store) (c : Conn) (st1 st2 : Store) (err : error) :
  Config.setting w "DB_AUTO_SEED" = "" ->
  sql_Open E "sqlite" "file::memory:?cache=shared" (w_store w) = (st1, inr c) ->
  db_Ping E c st1 = (st2, None) ->
  snd (db_Exec E c (Config.schema_text embedded w) st2) = None ->
  let seed :=
    if decide (Config.setting w "DB_SEED_FILE" = "")
    then "services/users-service/seed.sql"
    else Config.setting w "DB_SEED_FILE" in
  w_files w seed = inl err ->
  exists (w' : World Store),
    users.main_setup E To Unmarshal w
    = (Ret (logging.NewLogger "users-service", default_config, None), w')
    /\ w_env w' "DB_AUTO_SEED" = Some "1"
    /\ Config.seed_path w' = seed
    /\ w_trace w'
       = w_trace w ++ [Opened "sqlite" "file::memory:?cache=shared"; Pinged;
                       FileRead (Config.schema_path w);
                       Executed (Config.schema_text embedded w);
                       FileRead seed; ConnClosed]
    /\ forall username,
        fst (users.getUser E None username w') = Panic.
Proof.
  intros Hflag Hopen Hping Hddl seed Hfile.
  assert (Hstart : forall w2 : World Store,
             w_env w2 "DB_AUTO_SEED" = Some "1" ->
             w_env w2 "DB_SCHEMA_FILE" = w_env w "DB_SCHEMA_FILE" ->
             Config.seed_path w2 = seed ->
             w_files w2 = w_files w -> w_store w2 = w_store w ->
             w_trace w2 = w_trace w ->
             exists w',
               NewDatabase E To "localhost" "admin" "admin123" 5432 w2
               = (Ret (None, Some err), w')
               /\ w_env w' = w_env w2
               /\ w_trace w'
                  = w_trace w ++ [Opened "sqlite" "file::memory:?cache=shared";
                                  Pinged; FileRead (Config.schema_path w);
                                  Executed (Config.schema_text embedded w);
                                  FileRead seed; ConnClosed]).
  { intros w2 Hone Hschema Hseed Hfiles Hstore Htrace.
    assert (Hpath : Config.schema_path w2 = Config.schema_path w)
      by (unfold Config.schema_path, Config.setting; now rewrite Hschema).
    assert (Htext : Config.schema_text embedded w2 = Config.schema_text embedded w)
      by (unfold Config.schema_text; now rewrite Hpath, Hfiles).
    rewrite (NewDatabase_seed_step _ _ _ _ w2 c st1 st2);
      rewrite ?Hstore, ?Htext; try assumption.
    rewrite AutoSeedFromEnv_flag_1 by exact Hone.
    rewrite SeedFromFile_run. run. rewrite Hseed, Hfiles, Hfile. run.
    eexists. split; [reflexivity|]. split; [reflexivity|].
    unfold after. cbn [w_trace]. now rewrite Hpath, Htrace. }
  unfold users.main_setup. cbv zeta. rewrite bind_run, Getenv_run.
  change (default "" (w_env w "DB_AUTO_SEED"))
    with (Config.setting w "DB_AUTO_SEED").
  rewrite Hflag. cbn [String.eqb]. rewrite bind_run, Setenv_run.
  rewrite bind_run, Getenv_run.
  change (default "" (w_env (with_env w "DB_AUTO_SEED" "1") "DB_SEED_FILE"))
    with (Config.setting w "DB_SEED_FILE").
  subst seed.
  destruct (decide (Config.setting w "DB_SEED_FILE" = "")) as [Hempty|Hset].
  - rewrite Hempty. cbn [String.eqb]. rewrite bind_run, Setenv_run.
    set (w2 := with_env (with_env w "DB_AUTO_SEED" "1") "DB_SEED_FILE"
                 "services/users-service/seed.sql").
    rewrite bind_run.
    change (config.LoadConfig Unmarshal "" w2)
      with (@ret Store _ (default_config, @None error) w2).
    rewrite ret_run. cbn [fst].
    change (config.DatabaseHost default_config) with "localhost".
    change (config.DatabaseUser default_config) with "admin".
    change (config.DatabasePassword default_config) with "admin123".
    change (config.DatabasePort default_config) with 5432.
    destruct (Hstart w2) as (w' & Hnew & Henv & Htr); try reflexivity.
    rewrite bind_run, Hnew. cbn [fst]. rewrite ret_run.
    exists w'. split; [reflexivity|]. split; [now rewrite Henv|].
    split; [|split; [exact Htr|reflexivity]].
    unfold Config.seed_path, Config.setting. now rewrite Henv.
  - destruct (String.eqb_spec (Config.setting w "DB_SEED_FILE") "") as [|_];
      [contradiction|].
    set (w2 := with_env w "DB_AUTO_SEED" "1").
    rewrite bind_run, ret_run, bind_run.
    change (config.LoadConfig Unmarshal "" w2)
      with (@ret Store _ (default_config, @None error) w2).
    rewrite ret_run. cbn [fst].
    change (config.DatabaseHost default_config) with "localhost".
    change (config.DatabaseUser default_config) with "admin".
    change (config.DatabasePassword default_config) with "admin123".
    change (config.DatabasePort default_config) with 5432.
    assert (Hseed2 : Config.seed_path w2
                     = Config.setting w "DB_SEED_FILE").
    { unfold Config.seed_path.
      change (Config.setting w2 "DB_SEED_FILE")
        with (Config.setting w "DB_SEED_FILE").
      now destruct (decide (Config.setting w "DB_SEED_FILE" = "")). }
    destruct (Hstart w2) as (w' & Hnew & Henv & Htr); try reflexivity;
      [exact Hseed2|].
    rewrite bind_run, Hnew. cbn [fst]. rewrite ret_run.
    exists w'. split; [reflexivity|]. split; [now rewrite Henv|].
    split; [|split; [exact Htr|reflexivity]].
    unfold Config.seed_path, Config.setting. rewrite Henv.
    exact Hseed2.
Qed.

End Properties.

(** ** The adapter on the small engine *)

Section DemoFacts.

Import Demo.

Lemma no_case_space : CaseTables.upper_space no_case.
Proof. intros r _. reflexivity. Qed.

Lemma no_case_plain : CaseTables.lower_plain no_case.
Proof.
  intros r Hr. unfold no_case. split; [lia|]. simpl. lia.
Qed.

Lemma add_table_present (st : Store) (t : string) :
  has_table st t = true -> add_table st t = st.
Proof. unfold add_table. now intros ->. Qed.

Lemma has_table_add (st : Store) (t t' : string) :
  has_table st t = true -> has_table (add_table st t') t = true.
Proof.
  unfold add_table. intros H. destruct (has_table st t'); [exact H|].
  unfold has_table in *. rewrite existsb_app, H. reflexivity.
Qed.

Lemma has_table_added (st : Store) (t : string) :
  has_table (add_table st t) t = true.
Proof.
  unfold add_table. destruct (has_table st t) eqn:H; [exact H|].
  unfold has_table. rewrite existsb_app. simpl.
  rewrite String.eqb_refl. now rewrite orb_true_r.
Qed.

Lemma has_table_fold (names : list string) (st : Store) (t : string) :
  has_table st t = true -> has_table (fold_left add_table names st) t = true.
Proof.
  revert st; induction names as [|n names IH]; intros st H; [exact H|].
  simpl. apply IH. now apply has_table_add.
Qed.

Lemma has_table_fold_In (names : list string) (st : Store) (t : string) :
  In t names -> has_table (fold_left add_table names st) t = true.
Proof.
  revert st; induction names as [|n names IH]; intros st Hin; [destruct Hin|].
  destruct Hin as [->|H]; simpl.
  - apply has_table_fold, has_table_added.
  - now apply IH.
Qed.

Lemma fold_add_present (names : list string) (st : Store) :
  (forall t, In t names -> has_table st t = true) ->
  fold_left add_table names st = st.
Proof.
  revert st; induction names as [|n names IH]; intros st H; [reflexivity|].
  simpl. rewrite add_table_present by (apply H; now left).
  apply IH. intros t Ht. apply H. now right.
Qed.

(** The small engine honours IF NOT EXISTS. *)
Lemma Exec_create_again (c : unit) (ddl : string) (st st' : Store) :
  SchemaFormat.valid_schema no_case ddl = true ->
  db_Exec engine c ddl st = (st', None) ->
  db_Exec engine c ddl st' = (st', None).
Proof.
  simpl. unfold Exec. intros ->. intros H. injection H as <-.
  f_equal. apply fold_add_present. intros t Ht.
  now apply has_table_fold_In.
Qed.

End DemoFacts.

(** ** The hypotheses of the theorems, met *)

Lemma C1_dispatch_witness :
  CaseTables.upper_space Demo.no_case
  /\ isSelect Demo.no_case "  Select name FROM sqlite_master  " = true
  /\ fst (ExecuteQuery Demo.engine Demo.no_case Demo.db
            "  Select name FROM sqlite_master  " Demo.ready)
     = Ret (Some [{["name" := VString "users"]};
                  {["name" := VString "products"]};
                  {["name" := VString "orders"]}], None).
Proof.
  split; [exact no_case_space|].
  destruct (C1_ExecuteQuery_dispatch Demo.engine Demo.no_case no_case_space tt
              "  Select name FROM sqlite_master  " Demo.ready) as (Hc & _ & Hr & _).
  assert (Hs : isSelect Demo.no_case "  Select name FROM sqlite_master  " = true)
    by (rewrite Hc; vm_compute; reflexivity).
  split; [exact Hs|].
  unfold Demo.db. destruct (Hr Hs) as [-> _]. vm_compute. reflexivity.
Defined.

Lemma C2_placeholder_witness :
  snd (db_Query Demo.engine tt
         "SELECT id, username, email, password FROM users WHERE username = 'nobody'"
         (w_store Demo.ready))
  = inr (mkRows (inr []) [] None None)
  /\ fst (GetUserByUsername Demo.engine Demo.db "nobody" Demo.ready)
     = Ret (Some (list_to_map
                    [("id", VInt 1); ("username", VString "nobody");
                     ("email", VString "user@example.com");
                     ("password", VString "482c811da5d5b4bc6d497ffa98491e38")]),
            None).
Proof.
  assert (Hq : snd (db_Query Demo.engine tt
                      "SELECT id, username, email, password FROM users WHERE username = 'nobody'"
                      (w_store Demo.ready))
               = inr (mkRows (inr []) [] None None))
    by (vm_compute; reflexivity).
  split; [exact Hq|].
  unfold Demo.db.
  destruct (C2_placeholder_user Demo.engine tt "nobody" Demo.ready _ Hq eq_refl eq_refl)
    as [w' ->].
  reflexivity.
Defined.

Lemma C4_constructor_witness :
  let w := Demo.world [("DB_AUTO_SEED", "True")] [] in
  CaseTables.lower_plain Demo.no_case
  /\ sql_Open Demo.engine "sqlite" "file::memory:?cache=shared" (w_store w)
     = ([], inr tt)
  /\ db_Ping Demo.engine tt [] = ([], None)
  /\ Config.schema_text embedded w = embedded
  /\ fst (NewDatabase Demo.engine Demo.no_case "localhost" "user" "pass" 5432 w)
     = Ret (None,
            Some (Err "open pkg/database/seed.sql: no such file or directory")).
Proof.
  intros w.
  destruct (C4_constructor_errors Demo.engine Demo.no_case no_case_plain
              "localhost" "user" "pass" 5432 w tt [] [] eq_refl eq_refl)
    as (Hfallback & _ & _ & Hseed & _).
  split; [exact no_case_plain|]. split; [reflexivity|]. split; [reflexivity|].
  split; [exact (Hfallback _ eq_refl)|].
  rewrite (Hseed (Err "open pkg/database/seed.sql: no such file or directory")).
  - reflexivity.
  - vm_compute. reflexivity.
  - right. reflexivity.
  - reflexivity.
Defined.

Lemma C3_seed_gate_witness :
  let w := Demo.world [("DB_AUTO_SEED", "tRuE"); ("DB_SEED_FILE", "seed.sql")]
             [("seed.sql", "CREATE TABLE IF NOT EXISTS seeded (id INTEGER);")] in
  CaseTables.lower_plain Demo.no_case
  /\ Config.seed_enabled w
  /\ AutoSeedFromEnv Demo.engine Demo.no_case Demo.db w
     = (Ret None,
        after w [FileRead "seed.sql";
                 Executed "CREATE TABLE IF NOT EXISTS seeded (id INTEGER);"]
          ["seeded"]).
Proof.
  intros w.
  assert (Hen : Config.seed_enabled w) by (right; reflexivity).
  destruct (C3_auto_seed_gate Demo.engine Demo.no_case no_case_plain Demo.db w)
    as (Hon & _).
  split; [exact no_case_plain|]. split; [exact Hen|].
  rewrite (Hon Hen). vm_compute. reflexivity.
Defined.

Lemma C5_rows_witness :
  let q := "SELECT name FROM sqlite_master WHERE type='table'" in
  let rows :=
    mkRows (inr ["name"])
      [inr [VString "users"]; inr [VString "products"]; inr [VString "orders"]]
      None None in
  isSelect Demo.no_case q = true
  /\ snd (db_Query Demo.engine tt q (w_store Demo.ready)) = inr rows
  /\ exists results w',
      ExecuteQuery Demo.engine Demo.no_case Demo.db q Demo.ready
      = (Ret (Some results, None), w')
      /\ length results = 3%nat
      /\ results !! 1%nat = Some {["name" := VString "products"]}.
Proof.
  intros q rows.
  assert (Hs : isSelect Demo.no_case q = true) by (vm_compute; reflexivity).
  assert (Hq : snd (db_Query Demo.engine tt q (w_store Demo.ready)) = inr rows)
    by (vm_compute; reflexivity).
  split; [exact Hs|]. split; [exact Hq|].
  destruct (C5_rows_in_engine_order Demo.engine Demo.no_case tt q Demo.ready rows
              ["name"]
              [[VString "users"]; [VString "products"]; [VString "orders"]]
              Hs Hq eq_refl eq_refl eq_refl)
    as (results & w' & Hrun & Hlen & _ & Hrow).
  exists results, w'. split; [exact Hrun|]. split; [exact Hlen|].
  destruct (Hrow 1%nat [VString "products"] eq_refl) as (m & -> & Hdom & Hval).
  f_equal. apply map_eq. intros col.
  destruct (decide (col = "name")) as [->|Hne].
  - rewrite (Hval 0%nat "name" eq_refl), lookup_singleton_eq; [reflexivity|].
    intros j' Hj'. destruct j' as [|j']; [lia|]. discriminate.
  - rewrite lookup_singleton_ne by congruence.
    apply eq_None_not_Some. rewrite Hdom. intros Hin.
    apply list_elem_of_singleton in Hin. contradiction.
Defined.

(** C5, as stated, fails: the rows of a result do not tell the order of the
    columns.  Two answers of an engine that differ in the order of their
    columns give the same rows, so nothing computed from the rows is that
    order. *)
Lemma C5_column_order_lost :
  ~ exists order : list RowMap -> list string,
      forall rows cols results,
        rows_columns rows = inr cols ->
        collectRows rows = (Some results, None) ->
        order results = cols.
Proof.
  intros [order H].
  pose (r1 := mkRows (inr ["id"; "name"]) [inr [VInt64 7; VString "x"]] None None).
  pose (r2 := mkRows (inr ["name"; "id"]) [inr [VString "x"; VInt64 7]] None None).
  pose proof (H r1 ["id"; "name"] _ eq_refl eq_refl) as H1.
  pose proof (H r2 ["name"; "id"] _ eq_refl eq_refl) as H2.
  vm_compute in H1, H2. congruence.
Qed.

Lemma C8_bootstrap_witness :
  let w := Demo.world [] [] in
  (forall c ddl st st',
      SchemaFormat.valid_schema Demo.no_case ddl = true ->
      db_Exec Demo.engine c ddl st = (st', None) ->
      db_Exec Demo.engine c ddl st' = (st', None))
  /\ SchemaFormat.valid_schema Demo.no_case (Config.schema_text embedded w) = true
  /\ fst (loadSchema Demo.engine tt w) = Ret None
  /\ w_store (snd (loadSchema Demo.engine tt w)) = ["users"; "products"; "orders"]
  /\ fst (loadSchema Demo.engine tt (snd (loadSchema Demo.engine tt w)))
     = Ret None
  /\ w_store (snd (loadSchema Demo.engine tt (snd (loadSchema Demo.engine tt w))))
     = ["users"; "products"; "orders"].
Proof.
  intros w.
  assert (Hv : SchemaFormat.valid_schema Demo.no_case
                 (Config.schema_text embedded w) = true)
    by (vm_compute; reflexivity).
  assert (H1 : loadSchema Demo.engine tt w
               = (Ret None, snd (loadSchema Demo.engine tt w)))
    by (vm_compute; reflexivity).
  destruct (C8_schema_bootstrap_idempotent Demo.engine Demo.no_case
              Exec_create_again tt w _ Hv H1) as [H2 _].
  split; [exact Exec_create_again|]. split; [exact Hv|].
  split; [vm_compute; reflexivity|]. split; [vm_compute; reflexivity|].
  rewrite H2. split; [reflexivity|]. vm_compute. reflexivity.
Defined.

(** ** The hypotheses of the further theorems, met *)

Lemma NewDatabase_connection_errors_witness :
  let refused := Canned.mkStore (Some (Err "out of memory")) None None None
                   (inl ErrNoRows) in
  let silent := Canned.mkStore None (Some (Err "database is locked")) None None
                  (inl ErrNoRows) in
  sql_Open Canned.engine "sqlite" "file::memory:?cache=shared" refused
  = (refused, inl (Err "out of memory"))
  /\ NewDatabase Canned.engine Demo.no_case "localhost" "admin" "admin123" 5432
       (Canned.world refused)
     = (Ret (None, Some (Err "out of memory")),
        after (Canned.world refused)
          [Opened "sqlite" "file::memory:?cache=shared"] refused)
  /\ sql_Open Canned.engine "sqlite" "file::memory:?cache=shared" silent
     = (silent, inr tt)
  /\ db_Ping Canned.engine tt silent = (silent, Some (Err "database is locked"))
  /\ NewDatabase Canned.engine Demo.no_case "localhost" "admin" "admin123" 5432
       (Canned.world silent)
     = (Ret (None, Some (Err "database is locked")),
        after (Canned.world silent)
          [Opened "sqlite" "file::memory:?cache=shared"; Pinged; ConnClosed]
          silent).
Proof.
  intros refused silent.
  destruct (NewDatabase_connection_errors Canned.engine Demo.no_case
              "localhost" "admin" "admin123" 5432 (Canned.world refused))
    as [Hopen _].
  destruct (NewDatabase_connection_errors Canned.engine Demo.no_case
              "localhost" "admin" "admin123" 5432 (Canned.world silent))
    as [_ Hping].
  split; [reflexivity|]. split; [exact (Hopen _ _ eq_refl)|].
  split; [reflexivity|]. split; [reflexivity|].
  exact (Hping _ _ _ _ eq_refl eq_refl).
Defined.

Lemma ExecuteQuery_first_failure_witness :
  let rows :=
    mkRows (inr ["id"])
      [inr [VInt64 1]; inl (Err "sql: Scan error on column index 0");
       inr [VInt64 3]] None None in
  let w := Canned.world (Canned.answering (inr rows)) in
  isSelect Demo.no_case "SELECT id FROM orders" = true
  /\ snd (db_Query Canned.engine tt "SELECT id FROM orders" (w_store w)) = inr rows
  /\ fst (ExecuteQuery Canned.engine Demo.no_case Canned.db
            "SELECT id FROM orders" w)
     = Ret (None, Some (Err "sql: Scan error on column index 0")).
Proof.
  intros rows w.
  assert (Hs : isSelect Demo.no_case "SELECT id FROM orders" = true)
    by (vm_compute; reflexivity).
  split; [exact Hs|]. split; [reflexivity|].
  destruct (ExecuteQuery_first_failure Canned.engine Demo.no_case tt
              "SELECT id FROM orders" w rows Hs eq_refl) as (_ & Hscan & _).
  exact (Hscan ["id"] [[VInt64 1]] _ [inr [VInt64 3]] eq_refl eq_refl).
Defined.

Lemma GetUserByUsername_first_row_witness :
  let rows :=
    mkRows (inr ["id"; "username"; "email"; "password"])
      [inr [VInt64 7; VString "alice"; VString "alice@example.com";
            VString "5f4dcc3b5aa765d61d8327deb882cf99"];
       inl (Err "never looked at")] None None in
  let w := Canned.world (Canned.answering (inr rows)) in
  snd (db_Query Canned.engine tt (select_user "alice") (w_store w)) = inr rows
  /\ convert_int Canned.engine (VInt64 7) = inr 7
  /\ convert_string Canned.engine (VString "alice") = inr "alice"
  /\ fst (GetUserByUsername Canned.engine Canned.db "alice" w)
     = Ret (Some (user_record 7 "alice" "alice@example.com"
                    "5f4dcc3b5aa765d61d8327deb882cf99"), None).
Proof.
  intros rows w. split; [reflexivity|]. split; [reflexivity|].
  split; [reflexivity|].
  exact (GetUserByUsername_first_row Canned.engine tt "alice" w rows
           (VInt64 7) (VString "alice") (VString "alice@example.com")
           (VString "5f4dcc3b5aa765d61d8327deb882cf99")
           [inl (Err "never looked at")] 7 "alice" "alice@example.com"
           "5f4dcc3b5aa765d61d8327deb882cf99"
           eq_refl eq_refl eq_refl eq_refl eq_refl eq_refl eq_refl).
Defined.

Lemma isSelect_first_six_bytes_witness :
  len "sElEcT" = 6%nat /\ no_blank "sElEcT" = true
  /\ isSelect Demo.no_case ("sElEcT" +:+ "ED; DROP TABLE users") = true
  /\ len "DELETE" = 6%nat /\ no_blank "DELETE" = true
  /\ isSelect Demo.no_case ("DELETE" +:+ " FROM users; SELECT 1") = false.
Proof.
  split; [reflexivity|]. split; [reflexivity|]. split.
  - rewrite (isSelect_first_six_bytes Demo.no_case "sElEcT"
               "ED; DROP TABLE users" eq_refl eq_refl).
    reflexivity.
  - split; [reflexivity|]. split; [reflexivity|].
    rewrite (isSelect_first_six_bytes Demo.no_case "DELETE"
               " FROM users; SELECT 1" eq_refl eq_refl).
    reflexivity.
Defined.

Lemma login_unknown_user_witness :
  let rows := mkRows (inr ["id"; "username"; "email"; "password"]) [] None None in
  let w := Canned.world (Canned.answering (inr rows)) in
  snd (db_Query Canned.engine tt (select_user "nobody") (w_store w)) = inr rows
  /\ fst (users.login Canned.engine Canned.db
            (inr (users.mkLoginRequest "nobody" "password123")) w)
     = Ret (login_ok "nobody" (placeholder_user "nobody"))
  /\ users.hashPasswordMD5 "letmein" <> "482c811da5d5b4bc6d497ffa98491e38"
  /\ fst (users.login Canned.engine Canned.db
            (inr (users.mkLoginRequest "nobody" "letmein")) w)
     = Ret login_refused.
Proof.
  intros rows w.
  destruct (login_unknown_user Canned.engine tt "nobody" w rows
              eq_refl eq_refl eq_refl) as [Hin Hout].
  assert (Hne : users.hashPasswordMD5 "letmein"
                <> "482c811da5d5b4bc6d497ffa98491e38")
    by (vm_compute; discriminate).
  split; [reflexivity|]. split; [exact Hin|]. split; [exact Hne|].
  exact (Hout "letmein" Hne).
Defined.

Lemma login_refuses_tagged_hash_witness :
  let rows :=
    mkRows (inr ["id"; "username"; "email"; "password"])
      [inr [VInt64 1; VString "alice"; VString "alice@example.com";
            VString (HashPassword "password123")]] None None in
  let w := Canned.world (Canned.answering (inr rows)) in
  fst (GetUserByUsername Canned.engine Canned.db "alice" w)
  = Ret (Some (user_record 1 "alice" "alice@example.com"
                 (HashPassword "password123")), None)
  /\ fst (users.login Canned.engine Canned.db
            (inr (users.mkLoginRequest "alice" "password123")) w)
     = Ret login_refused.
Proof.
  intros rows w.
  assert (Hg : fst (GetUserByUsername Canned.engine Canned.db "alice" w)
               = Ret (Some (user_record 1 "alice" "alice@example.com"
                              (HashPassword "password123")), None))
    by (vm_compute; reflexivity).
  split; [exact Hg|].
  exact (login_refuses_tagged_hash Canned.engine tt "alice" "password123" w
           1 "alice" "alice@example.com" "password123" Hg).
Defined.

Lemma login_accepts_service_hash_witness :
  let rows :=
    mkRows (inr ["id"; "username"; "email"; "password"])
      [inr [VInt64 1; VString "alice"; VString "alice@example.com";
            VString (users.hashPasswordMD5 "s3cret")]] None None in
  let w := Canned.world (Canned.answering (inr rows)) in
  let user :=
    user_record 1 "alice" "alice@example.com" (users.hashPasswordMD5 "s3cret") in
  fst (GetUserByUsername Canned.engine Canned.db "alice" w)
  = Ret (Some user, None)
  /\ fst (users.login Canned.engine Canned.db
            (inr (users.mkLoginRequest "alice" "s3cret")) w)
     = Ret (login_ok "alice" user).
Proof.
  intros rows w user.
  assert (Hg : fst (GetUserByUsername Canned.engine Canned.db "alice" w)
               = Ret (Some user, None))
    by (vm_compute; reflexivity).
  split; [exact Hg|].
  exact (login_accepts_service_hash Canned.engine tt "alice" "s3cret" w
           1 "alice" "alice@example.com" Hg).
Defined.

Lemma getUser_unknown_user_witness :
  snd (db_Query Demo.engine tt (select_user "nobody") (w_store Demo.ready))
  = inr (mkRows (inr []) [] None None)
  /\ fst (users.getUser Demo.engine Demo.db "nobody" Demo.ready)
     = Ret (gin.JSON 200 (gin.Row (Some (placeholder_user "nobody")))).
Proof.
  assert (Hq : snd (db_Query Demo.engine tt (select_user "nobody")
                      (w_store Demo.ready))
               = inr (mkRows (inr []) [] None None))
    by (vm_compute; reflexivity).
  split; [exact Hq|].
  exact (getUser_unknown_user Demo.engine tt "nobody" Demo.ready _ Hq
           eq_refl eq_refl).
Defined.

Lemma users_main_without_seed_file_witness :
  let w := Demo.world [] [] in
  let missing :=
    Err "open services/users-service/seed.sql: no such file or directory" in
  Config.setting w "DB_AUTO_SEED" = ""
  /\ w_files w "services/users-service/seed.sql" = inl missing
  /\ exists w',
      users.main_setup Demo.engine Demo.no_case (fun _ cfg => (cfg, None)) w
      = (Ret (logging.NewLogger "users-service", default_config, None), w')
      /\ w_env w' "DB_AUTO_SEED" = Some "1"
      /\ w_store w' = ["users"; "products"; "orders"].
Proof.
  intros w missing.
  destruct (users_main_without_seed_file Demo.engine Demo.no_case
              (fun _ cfg => (cfg, None)) w tt [] [] missing
              eq_refl eq_refl eq_refl eq_refl eq_refl)
    as (w' & Hrun & Henv & _).
  split; [reflexivity|]. split; [reflexivity|].
  exists w'. split; [exact Hrun|]. split; [exact Henv|].
  assert (Hw : w' = snd (users.main_setup Demo.engine Demo.no_case
                           (fun _ cfg => (cfg, None)) w))
    by now rewrite Hrun.
  rewrite Hw. vm_compute. reflexivity.
Defined.
